(** * Fork-safe synchronisation, safe queue and background monitor
    of [clearml/utilities/process/mp.py]

    A shallow embedding of the process utilities: the fork-safe wrappers
    ([_ForkSafeThreadSyncObject], [ForkEvent], [ForkQueue]), the async call
    pool ([ThreadCalls], [SingletonThreadPool]), the pickling queue
    ([SafeQueue]), the guarded event ([SafeEvent]) and the monitor life
    cycle ([BackgroundMonitor]).

    Python objects are records, [None] is [option], a method is a function
    from the receiver (and the process-wide state it reads) to the updated
    receiver and an outcome; a raised exception is the outcome [Raises].
    The operating system (pids, the process table seen through [psutil],
    the pipe under [SimpleQueue]) is an explicit environment argument. *)

From Stdlib Require Import ZArith List Bool Lia.
From Stdlib.Strings Require Import String Byte.
From stdpp Require Import base option list gmap.

Local Open Scope Z_scope.

(** ** Python values shared by all classes *)

Module Py.

(** The exceptions the module can meet.  [KeyboardInterrupt] stands for
    the [BaseException]s that are not [Exception]s. *)
Inductive exn : Type :=
| PicklingError
| OSError
| RuntimeError
| StructError
| ValueError
| OverflowError
| AttributeError
| QueueEmpty
| PsutilError
| KeyboardInterrupt.

(** [except Exception] *)
Definition is_Exception (e : exn) : bool :=
  match e with KeyboardInterrupt => false | _ => true end.

(** [except psutil.Error] *)
Definition is_psutil_Error (e : exn) : bool :=
  match e with PsutilError => true | _ => false end.

(** [except ValueError] *)
Definition is_ValueError (e : exn) : bool :=
  match e with ValueError => true | _ => false end.

Inductive outcome (A : Type) : Type :=
| Returns (a : A)
| Raises (e : exn).
Arguments Returns {A} a.
Arguments Raises {A} e.

(** A process id as read from a class attribute: [None] or an int. *)
Definition pid_truthy (p : option Z) : bool :=
  match p with
  | Some n => negb (n =? 0)
  | None => false
  end.

(** [a != b] where [a] may be [None] and [b] is an int. *)
Definition opt_pid_neq (a : option Z) (b : Z) : bool :=
  match a with
  | Some n => negb (n =? b)
  | None => true
  end.

(** Stateful code that may raise: the state is threaded through and
    survives an exception, as the attributes of a Python object do. *)
Definition M (S A : Type) : Type := S -> S * outcome A.

Definition ret {S A} (a : A) : M S A := fun s => (s, Returns a).
Definition raise {S A} (e : exn) : M S A := fun s => (s, Raises e).
Definition bind {S A B} (m : M S A) (k : A -> M S B) : M S B :=
  fun s =>
    match m s with
    | (s', Returns a) => k a s'
    | (s', Raises e) => (s', Raises e)
    end.
Definition gets {S A} (f : S -> A) : M S A := fun s => (s, Returns (f s)).
Definition modify {S} (f : S -> S) : M S unit := fun s => (f s, Returns tt).

(** [try: body  except <catches>: handler] *)
Definition try_except {S A} (body : M S A) (catches : exn -> bool)
           (handler : exn -> M S A) : M S A :=
  fun s =>
    match body s with
    | (s', Returns a) => (s', Returns a)
    | (s', Raises e) => if catches e then handler e s' else (s', Raises e)
    end.

Definition catch_all (e : exn) : bool := true.

End Py.

Import Py.

Notation "'do' x <~ m ; k" := (Py.bind m (fun x => k))
  (at level 10, x name, m at level 100, k at level 200).
Notation "'do_' m ; k" := (Py.bind m (fun _ => k))
  (at level 10, m at level 100, k at level 200).

(** ** The fork-safe wrappers *)

Module ForkSafe.

(** [_ForkSafeThreadSyncObject]: the wrapped primitive, the pid that
    created it, and the factory.  Every wrapped primitive of this file
    ([TrQueue], [TrEvent]) is an object without [__bool__] or [__len__],
    so [not self._sync] holds exactly when [_sync] is [None]. *)
Record sync_object (T : Type) : Type := mk_sync {
  _sync : option T;
  _instance_pid : option Z;
  _functor : unit -> T
}.
Arguments mk_sync {T}.
Arguments _sync {T}.
Arguments _instance_pid {T}.
Arguments _functor {T}.

Definition __init__ {T} (functor : unit -> T) : sync_object T :=
  mk_sync None None functor.

Definition stale {T} (pid : Z) (s : sync_object T) : bool :=
  opt_pid_neq (_instance_pid s) pid || negb (bool_decide (is_Some (_sync s))).

(** [_create]: the test is made twice, outside and inside the process
    lock; the lock itself never fails towards the caller ([_inner_lock]
    and [_inner_unlock] swallow everything), so sequentially it only
    brackets the rebuild.  The object is built first, the pid stored
    second. *)
Definition _create {T} (pid : Z) (s : sync_object T) : sync_object T :=
  if stale pid s then
    if stale pid s then
      let s1 := mk_sync (Some (_functor s tt)) (_instance_pid s) (_functor s) in
      mk_sync (_sync s1) (Some pid) (_functor s1)
    else s
  else s.

(** The content of the wrapped primitive after [_create]. *)
Definition the_sync {T} (s : sync_object T) : T :=
  match _sync s with
  | Some t => t
  | None => _functor s tt
  end.

(** *** [ForkEvent]: a [threading.Event], a flag *)
Definition ForkEvent : Type := sync_object bool.

Definition TrEvent (_ : unit) : bool := false.

Definition ForkEvent_init : ForkEvent := __init__ TrEvent.

Definition with_sync {T} (s : sync_object T) (t : T) : sync_object T :=
  mk_sync (Some t) (_instance_pid s) (_functor s).

Definition ForkEvent_set (pid : Z) (e : ForkEvent) : ForkEvent :=
  let e := _create pid e in
  with_sync e true.

Definition ForkEvent_clear (pid : Z) (e : ForkEvent) : ForkEvent :=
  match _sync e with
  | None => e
  | Some _ =>
      let e := _create pid e in
      with_sync e false
  end.

Definition ForkEvent_is_set (pid : Z) (e : ForkEvent) : ForkEvent * bool :=
  let e := _create pid e in
  (e, the_sync e).

(** *** [ForkQueue]: an unbounded [queue.Queue], a FIFO list *)
Definition ForkQueue (A : Type) : Type := sync_object (list A).

Definition TrQueue {A} (_ : unit) : list A := [].

Definition ForkQueue_init {A} : ForkQueue A := __init__ TrQueue.

(** What a [get] on the inner queue does when nothing is there: wait
    ([block=True] without a timeout) or raise [Empty]. *)
Inductive got (A : Type) : Type :=
| Got (a : A)
| Blocked
| Failed (e : exn).
Arguments Got {A} a.
Arguments Blocked {A}.
Arguments Failed {A} e.

Definition ForkQueue_get {A} (pid : Z) (block : bool) (q : ForkQueue A)
  : ForkQueue A * got A :=
  let q := _create pid q in
  match the_sync q with
  | x :: rest => (with_sync q rest, Got x)
  | [] => (q, if block then Blocked else Failed QueueEmpty)
  end.

Definition ForkQueue_put {A} (pid : Z) (x : A) (q : ForkQueue A) : ForkQueue A :=
  let q := _create pid q in
  with_sync q (the_sync q ++ [x]).

Definition ForkQueue_empty {A} (pid : Z) (q : ForkQueue A)
  : ForkQueue A * outcome bool :=
  match _sync q with
  | None => (q, Returns true)
  | Some _ =>
      let q := _create pid q in
      (q, Returns (bool_decide (the_sync q = [])))
  end.

(** [queue.Queue.full] is [0 < maxsize <= qsize()], and [maxsize] is 0. *)
Definition ForkQueue_full {A} (pid : Z) (q : ForkQueue A)
  : ForkQueue A * outcome bool :=
  match _sync q with
  | None => (q, Returns false)
  | Some _ =>
      let q := _create pid q in
      (q, Returns false)
  end.

(** [queue.Queue] has no [close] attribute: past the guard the call
    fails on the attribute lookup. *)
Definition ForkQueue_close {A} (pid : Z) (q : ForkQueue A)
  : ForkQueue A * outcome unit :=
  match _sync q with
  | None => (q, Returns tt)
  | Some _ =>
      let q := _create pid q in
      (q, Raises AttributeError)
  end.

End ForkSafe.

(** ** The write primitive installed on the pipe *)

Module Pipe.

Definition bytes : Type := list byte.

Definition byte_of_Z (z : Z) : byte :=
  match Byte.of_N (Z.to_N (Z.land z 255)) with
  | Some b => b
  | None => Byte.x00
  end.

Definition Z_of_byte (b : byte) : Z := Z.of_N (Byte.to_N b).

(** [struct.pack("!i", n)]: four bytes, most significant first, for a
    signed 32-bit [n]; [struct.error] outside that range. *)
Definition struct_pack_i (n : Z) : outcome bytes :=
  if (-2147483648 <=? n) && (n <=? 2147483647) then
    Returns [ byte_of_Z (Z.shiftr n 24); byte_of_Z (Z.shiftr n 16);
              byte_of_Z (Z.shiftr n 8); byte_of_Z n ]
  else Raises StructError.

(** Reading an unsigned big-endian number back. *)
Definition big_endian (bs : bytes) : Z :=
  fold_left (fun acc b => Z.lor (Z.shiftl acc 8) (Z_of_byte b)) bs 0.

(** The connection under the queue's writer: [sent] lists the buffers
    handed to the underlying [_send], one entry per call, oldest first. *)
Record Connection : Type := mk_conn {
  sent : list bytes
}.

(** [self._send(data)]: the call is made with [data]; whether the
    descriptor accepts it is the system's answer [os_write]. *)
Definition _send (os_write : outcome unit) (data : bytes) : M Connection unit :=
  fun c => (mk_conn (sent c ++ [data]), os_write).

Definition _pipe_override_send_bytes (os_write : outcome unit) (buf : bytes)
  : M Connection unit :=
  let n := Z.of_nat (length buf) in
  fun c =>
    match struct_pack_i n with
    | Raises e => (c, Raises e)
    | Returns header => _send os_write (header ++ buf) c
    end.

(** Which [_send_bytes] the writer end carries. *)
Inductive send_bytes_impl : Type :=
| NativeSendBytes
| PipeOverrideSendBytes.

(** [multiprocessing.SimpleQueue] as the queue sees it: the messages
    written and not yet read, oldest first, and the writer end. *)
Record SimpleQueue : Type := mk_simple_queue {
  messages : list bytes;
  _writer_send_bytes : send_bytes_impl
}.

Definition SimpleQueue_init : SimpleQueue := mk_simple_queue [] NativeSendBytes.

(** The part of [SafeQueue.__init__] that touches the writer. *)
Definition install_send_bytes (platform : string) (q : SimpleQueue) : SimpleQueue :=
  if negb (String.eqb platform "win32") then
    mk_simple_queue (messages q) PipeOverrideSendBytes
  else q.

(** [SimpleQueue.put]: the message reaches the pipe when the system
    accepts the write, otherwise the failure is raised. *)
Definition SimpleQueue_put (os_write : outcome unit) (b : bytes) : M SimpleQueue unit :=
  fun q =>
    match os_write with
    | Returns _ => (mk_simple_queue (messages q ++ [b]) (_writer_send_bytes q), Returns tt)
    | Raises e => (q, Raises e)
    end.

End Pipe.

(** ** The process table, as [psutil] answers *)

Module Psutil.

Inductive proc_status : Type :=
| STATUS_RUNNING
| STATUS_SLEEPING
| STATUS_STOPPED
| STATUS_ZOMBIE
| STATUS_DEAD.

Definition is_zombie (s : proc_status) : bool :=
  match s with STATUS_ZOMBIE => true | _ => false end.

(** What is asked of a process handle: its pid, [is_running()] and
    [status()] (which raises when the process is gone). *)
Record proc : Type := mk_proc {
  pid : Z;
  is_running : bool;
  status : outcome proc_status
}.

(** A handle returned by [psutil.Process(pid)], with the answer of
    [children(recursive=True)]. *)
Record Process : Type := mk_Process {
  this : proc;
  children : outcome (list proc)
}.

(** [psutil.Process(pid)] for every pid ([None] is the caller). *)
Definition table : Type := option Z -> outcome Process.

(** [p.is_running() and p.status() != psutil.STATUS_ZOMBIE] *)
Definition running_and_not_zombie (p : proc) : outcome bool :=
  if is_running p then
    match status p with
    | Returns s => Returns (negb (is_zombie s))
    | Raises e => Raises e
    end
  else Returns false.

End Psutil.

(** ** [SafeEvent]: the event shared by the two processes *)

Module SafeEvent.

(** [multiprocessing.Event] is its flag. *)
Record t : Type := mk {
  _event : bool
}.

Definition __init__ : t := mk false.
Definition is_set (e : t) : bool := _event e.
Definition clear (e : t) : t := mk false.
(** The bare [self._event.set()] of the primitive. *)
Definition ProcessEvent_set (e : t) : t := mk true.

End SafeEvent.

(** ** [BackgroundMonitor] *)

Module BackgroundMonitor.

(** The task a monitor reports for: [task.id], [id(task.id)],
    [task.is_main_task()] and [task._report_subprocess_enabled]. *)
Record Task : Type := mk_task {
  id : string;
  obj_id : Z;
  is_main_task : bool;
  _report_subprocess_enabled : bool
}.

(** What the running process answers: [os.getpid()], [psutil],
    [os.fork()], and whether a thread comes to its end, so that a
    [join()] on it returns. *)
Record system : Type := mk_system {
  getpid : Z;
  Process : Psutil.table;
  fork : outcome Z;
  thread_ends : nat -> bool
}.

(** The class attributes.  The registry [_instances] maps [id(task.id)]
    to the list of monitors, each one known by its object identity. *)
Record class_attrs : Type := mk_class {
  _main_process : option Z;
  _main_process_proc_obj : option Psutil.Process;
  _main_process_task_id : option string;
  _parent_pid : option Z;
  _sub_process_started : option SafeEvent.t;
  _at_exit : bool;
  _instances : gmap Z (list nat)
}.

Definition class_initial : class_attrs :=
  mk_class None None None None None false ∅.

Definition set_instances (r : gmap Z (list nat)) (c : class_attrs) : class_attrs :=
  mk_class (_main_process c) (_main_process_proc_obj c) (_main_process_task_id c)
           (_parent_pid c) (_sub_process_started c) (_at_exit c) r.

Definition get_at_exit_state (c : class_attrs) : bool := _at_exit c.

Definition set_at_exit_state (state : bool) (c : class_attrs) : class_attrs :=
  mk_class (_main_process c) (_main_process_proc_obj c) (_main_process_task_id c)
           (_parent_pid c) (_sub_process_started c) state (_instances c).

(** [cls._main_process_task_id != task.id] *)
Definition task_id_differs (c : class_attrs) (tid : string) : bool :=
  match _main_process_task_id c with
  | Some i => negb (String.eqb i tid)
  | None => true
  end.

(** [task and cls._main_process_task_id != task.id] *)
Definition other_task (c : class_attrs) (task : option Task) : bool :=
  match task with
  | Some t => task_id_differs c (id t)
  | None => false
  end.

Definition is_subprocess_enabled (c : class_attrs) (task : option Task) : bool :=
  pid_truthy (_main_process c) && negb (other_task c task).

(** The [try] block of [is_subprocess_alive]. *)
Definition direct_lookup (sys : system) (c : class_attrs) : outcome bool :=
  match Process sys (_main_process c) with
  | Returns p => Psutil.running_and_not_zombie (Psutil.this p)
  | Raises e => Raises e
  end.

(** The loop over [parent.children(recursive=True)]. *)
Fixpoint find_child (current_pid : Z) (l : list Psutil.proc) : outcome (option bool) :=
  match l with
  | [] => Returns (Some false)
  | child :: rest =>
      if Psutil.pid child =? current_pid then
        match Psutil.running_and_not_zombie child with
        | Returns b => Returns (Some b)
        | Raises e => Raises e
        end
      else find_child current_pid rest
  end.

(** The [except Exception] block of [is_subprocess_alive]. *)
Definition fallback_lookup (sys : system) (c : class_attrs) : outcome (option bool) :=
  match _main_process c with
  | None => Returns (Some false)
  | Some current_pid =>
      if current_pid =? 0 then Returns (Some false)
      else
        match Process sys (_parent_pid c) with
        | Raises e => if is_psutil_Error e then Returns None else Raises e
        | Returns parent =>
            match Psutil.children parent with
            | Raises e => Raises e
            | Returns l => find_child current_pid l
            end
        end
  end.

(** [is_subprocess_alive]: [Returns (Some b)] is the boolean [b],
    [Returns None] is Python's [None]. *)
Definition is_subprocess_alive (sys : system) (c : class_attrs) (task : option Task)
  : outcome (option bool) :=
  if negb (pid_truthy (_main_process c)) || other_task c task then Returns (Some false)
  else
    match direct_lookup sys c with
    | Returns b => Returns (Some b)
    | Raises e => if is_Exception e then fallback_lookup sys c else Raises e
    end.

(** Truth value of what [is_subprocess_alive] returned. *)
Definition truthy (v : option bool) : bool :=
  match v with
  | Some b => b
  | None => false
  end.

(** [SafeEvent.set], kept here because it reads the class attributes. *)
Definition SafeEvent_set (sys : system) (c : class_attrs) (e : SafeEvent.t)
  : SafeEvent.t * outcome unit :=
  if negb (is_subprocess_enabled c None) then (SafeEvent.ProcessEvent_set e, Returns tt)
  else
    match is_subprocess_alive sys c None with
    | Raises x => (e, Raises x)
    | Returns v =>
        if truthy v then (SafeEvent.ProcessEvent_set e, Returns tt)
        else (e, Returns tt)
    end.

(** *** Instances *)

(** The three events of a monitor are [ForkEvent]s until
    [set_subprocess_mode] replaces them by [SafeEvent]s. *)
Inductive event : Type :=
| Fork (e : ForkSafe.ForkEvent)
| Safe (e : SafeEvent.t).

(** [self._thread]: [None], [True] or [False], or a [Thread] object. *)
Inductive thread_field : Type :=
| NoThread
| Flag (b : bool)
| Thread (th : nat).

Definition thread_truthy (f : thread_field) : bool :=
  match f with
  | NoThread => false
  | Flag b => b
  | Thread _ => true
  end.

(** [self] is the identity of the object; [_wait_timeout] is only read
    by the daemon loop and is left out. *)
Record t : Type := mk {
  self : nat;
  _event : event;
  _done_ev : event;
  _start_ev : event;
  _task_pid : Z;
  _thread : thread_field;
  _thread_pid : option Z;
  _subprocess : option bool;
  _task_id : string;
  _task_obj_id : Z
}.

Definition set_event (e : event) (m : t) : t :=
  mk (self m) e (_done_ev m) (_start_ev m) (_task_pid m) (_thread m)
     (_thread_pid m) (_subprocess m) (_task_id m) (_task_obj_id m).
Definition set_done_ev (e : event) (m : t) : t :=
  mk (self m) (_event m) e (_start_ev m) (_task_pid m) (_thread m)
     (_thread_pid m) (_subprocess m) (_task_id m) (_task_obj_id m).
Definition set_start_ev (e : event) (m : t) : t :=
  mk (self m) (_event m) (_done_ev m) e (_task_pid m) (_thread m)
     (_thread_pid m) (_subprocess m) (_task_id m) (_task_obj_id m).
Definition set_thread (f : thread_field) (m : t) : t :=
  mk (self m) (_event m) (_done_ev m) (_start_ev m) (_task_pid m) f
     (_thread_pid m) (_subprocess m) (_task_id m) (_task_obj_id m).
Definition set_thread_pid (p : option Z) (m : t) : t :=
  mk (self m) (_event m) (_done_ev m) (_start_ev m) (_task_pid m) (_thread m)
     p (_subprocess m) (_task_id m) (_task_obj_id m).
Definition set_subprocess (b : option bool) (m : t) : t :=
  mk (self m) (_event m) (_done_ev m) (_start_ev m) (_task_pid m) (_thread m)
     (_thread_pid m) b (_task_id m) (_task_obj_id m).

Definition __init__ (sys : system) (identity : nat) (task : Task) (for_model : bool) : t :=
  mk identity
     (Fork ForkSafe.ForkEvent_init) (Fork ForkSafe.ForkEvent_init)
     (Fork ForkSafe.ForkEvent_init)
     (getpid sys) NoThread None
     (if negb for_model && is_main_task task then None else Some false)
     (id task) (obj_id task).

(** What was done with [Thread] objects, oldest first: a thread
    started, and a [join()] that has returned. *)
Inductive thread_op : Type :=
| Started (th : nat)
| Joined (th : nat).

(** What the methods of an instance share with the rest of the
    process: the class attributes and the threads. *)
Record shared : Type := mk_shared {
  cls : class_attrs;
  thread_ops : list thread_op;
  next_thread : nat
}.

Definition shared_initial : shared := mk_shared class_initial [] 0%nat.

Definition set_cls (c : class_attrs) (s : shared) : shared :=
  mk_shared c (thread_ops s) (next_thread s).

Definition is_not_False (b : option bool) : bool :=
  match b with
  | Some false => false
  | _ => true
  end.

Definition is_subprocess_mode (c : class_attrs) (m : t) : bool :=
  is_not_False (_subprocess m) && pid_truthy (_main_process c)
  && negb (task_id_differs c (_task_id m)).

Definition _is_subprocess_mode_and_not_parent_process
           (sys : system) (c : class_attrs) (m : t) : bool :=
  is_subprocess_mode c m && opt_pid_neq (_parent_pid c) (getpid sys).

Definition is_subprocess_mode_and_parent_process
           (sys : system) (c : class_attrs) (m : t) : bool :=
  is_subprocess_mode c m && negb (opt_pid_neq (_parent_pid c) (getpid sys)).

(** [self._instances.setdefault(self._task_obj_id, [])]: the list, and
    the registry in which the key now exists. *)
Definition _get_instances (m : t) (c : class_attrs) : list nat * class_attrs :=
  match _instances c !! _task_obj_id m with
  | Some l => (l, c)
  | None => ([], set_instances (<[_task_obj_id m := []]> (_instances c)) c)
  end.

(** The list returned by [_get_instances] is the one the registry
    holds: changing it in place changes the registry. *)
Definition store_instances (m : t) (l : list nat) (c : class_attrs) : class_attrs :=
  set_instances (<[_task_obj_id m := l]> (_instances c)) c.

(** The monitors registered for the task of [m]. *)
Definition registered (m : t) (c : class_attrs) : list nat :=
  match _instances c !! _task_obj_id m with
  | Some l => l
  | None => []
  end.

Definition event_clear (sys : system) (e : event) : event :=
  match e with
  | Fork f => Fork (ForkSafe.ForkEvent_clear (getpid sys) f)
  | Safe s => Safe (SafeEvent.clear s)
  end.

Definition event_set (sys : system) (c : class_attrs) (e : event) : event * outcome unit :=
  match e with
  | Fork f => (Fork (ForkSafe.ForkEvent_set (getpid sys) f), Returns tt)
  | Safe s => let (s', o) := SafeEvent_set sys c s in (Safe s', o)
  end.

Definition spawn (sys : system) (m : t) (s : shared) : t * shared :=
  let th := next_thread s in
  (set_thread (Thread th) (set_thread_pid (Some (getpid sys)) m),
   mk_shared (cls s) (thread_ops s ++ [Started th]) (S th)).

(** [_start]: nothing when this process already runs the thread;
    otherwise (after the upload pools of the metrics interface are
    initialised) a new daemon thread is created and started. *)
Definition _start (sys : system) (m : t) (s : shared) : t * shared :=
  match _thread m with
  | Thread _ =>
      if negb (opt_pid_neq (_thread_pid m) (getpid sys)) then (m, s)
      else spawn sys m s
  | _ => spawn sys m s
  end.

Definition start (sys : system) (m : t) (s : shared) : t * shared :=
  let m := if negb (thread_truthy (_thread m)) then set_thread (Flag true) m else m in
  let m := set_event (event_clear sys (_event m)) m in
  let m := set_done_ev (event_clear sys (_done_ev m)) m in
  if negb (is_not_False (_subprocess m)) then _start sys m s
  else
    let (l, c) := _get_instances m (cls s) in
    if bool_decide (self m ∈ l) then (m, set_cls c s)
    else
      let (l', c') := _get_instances m c in
      (m, set_cls (store_instances m (l' ++ [self m]) c') s).

(** [list.remove(x)]: the first occurrence goes, [ValueError] when
    there is none. *)
Fixpoint list_remove (x : nat) (l : list nat) : outcome (list nat) :=
  match l with
  | [] => Raises ValueError
  | y :: rest =>
      if bool_decide (y = x) then Returns rest
      else
        match list_remove x rest with
        | Returns rest' => Returns (y :: rest')
        | Raises e => Raises e
        end
  end.

(** The guard of [stop]:
    [not self._is_subprocess_mode_and_not_parent_process() and
     (not self.is_subprocess_mode() or self.is_subprocess_alive())]. *)
Definition stop_guard (sys : system) (c : class_attrs) (m : t) : outcome bool :=
  if negb (_is_subprocess_mode_and_not_parent_process sys c m) then
    if negb (is_subprocess_mode c m) then Returns true
    else
      match is_subprocess_alive sys c None with
      | Returns v => Returns (truthy v)
      | Raises e => Raises e
      end
  else Returns false.

(** The second half of [stop], once the join has returned (whatever
    it raises is dropped): the removal from the registry (a missing entry
    is dropped too), and the flag. *)
Definition join_and_unregister (th : nat) (m : t) (s : shared) : t * shared :=
  let s := mk_shared (cls s) (thread_ops s ++ [Joined th]) (next_thread s) in
  let (l, c) := _get_instances m (cls s) in
  let c :=
    match list_remove (self m) l with
    | Returns l' => store_instances m l' c
    | Raises _ => c
    end in
  (set_thread (Flag false) m, set_cls c s).

(** [stop].  [self._thread.join()] has no timeout: the call waits for
    as long as the thread has not come to its end, and nothing after the
    join is done then. *)
Definition stop (sys : system) (m : t) (s : shared)
  : (t * shared) * ForkSafe.got unit :=
  if negb (thread_truthy (_thread m)) then ((m, s), ForkSafe.Got tt)
  else
    match stop_guard sys (cls s) m with
    | Raises e => ((m, s), ForkSafe.Failed e)
    | Returns g =>
        let (ev, o) := if g then event_set sys (cls s) (_event m)
                       else (_event m, Returns tt) in
        let m := set_event ev m in
        match o with
        | Raises e => ((m, s), ForkSafe.Failed e)
        | Returns _ =>
            match _thread m with
            | Thread th =>
                if thread_ends sys th then (join_and_unregister th m s, ForkSafe.Got tt)
                else ((m, s), ForkSafe.Blocked)
            | _ => ((m, s), ForkSafe.Got tt)
            end
        end
    end.

Definition set_subprocess_mode (m : t) : t :=
  let m := if negb (truthy (_subprocess m)) then set_subprocess (Some true) m else m in
  let m := match _done_ev m with Safe _ => m | Fork _ => set_done_ev (Safe SafeEvent.__init__) m end in
  let m := match _start_ev m with Safe _ => m | Fork _ => set_start_ev (Safe SafeEvent.__init__) m end in
  match _event m with Safe _ => m | Fork _ => set_event (Safe SafeEvent.__init__) m end.

(** *** Electing the subprocess *)

(** The monitors of the process, by identity. *)
Definition on_instance (f : t -> t) (h : gmap nat t) (i : nat) : gmap nat t :=
  match h !! i with
  | Some m => <[i := f m]> h
  | None => h
  end.

(** [BackgroundMonitor._instances.get(id(task.id), [])] *)
Definition instances_of (task : Task) (c : class_attrs) : list nat :=
  match _instances c !! obj_id task with
  | Some l => l
  | None => []
  end.

Definition start_each (sys : system) (ids : list nat) (hs : gmap nat t * shared)
  : gmap nat t * shared :=
  fold_left
    (fun (acc : gmap nat t * shared) i =>
       match fst acc !! i with
       | Some m => let (m', s') := _start sys m (snd acc) in (<[i := m']> (fst acc), s')
       | None => acc
       end)
    ids hs.

Definition set_main_process (p : option Z) (o : option Psutil.Process)
           (c : class_attrs) : class_attrs :=
  mk_class p o (_main_process_task_id c) (_parent_pid c)
           (_sub_process_started c) (_at_exit c) (_instances c).

Definition set_election (parent : Z) (ev : SafeEvent.t) (task_id : string)
           (c : class_attrs) : class_attrs :=
  mk_class (_main_process c) (_main_process_proc_obj c) (Some task_id) (Some parent)
           (Some ev) (_at_exit c) (_instances c).

Definition set_sub_process_started (ev : option SafeEvent.t) (c : class_attrs)
  : class_attrs :=
  mk_class (_main_process c) (_main_process_proc_obj c) (_main_process_task_id c)
           (_parent_pid c) ev (_at_exit c) (_instances c).

(** On which side of [os.fork()] the caller is.  The child goes on into
    [_background_process_start] and leaves through [leave_process]: it
    never comes back to the caller of [start_all]. *)
Inductive fork_side : Type :=
| InParent
| InChild.

(** [__start_subprocess_os_fork].  In the parent the handle of the
    child is looked up, and forgotten if that fails. *)
Definition __start_subprocess_os_fork (sys : system) (c : class_attrs)
  : class_attrs * outcome fork_side :=
  match fork sys with
  | Raises e => (c, Raises e)
  | Returns r =>
      if r =? 0 then
        (set_main_process (Some (getpid sys)) (_main_process_proc_obj c) c, Returns InChild)
      else
        let c := set_main_process (Some r) (_main_process_proc_obj c) c in
        match Process sys (Some r) with
        | Returns p => (set_main_process (Some r) (Some p) c, Returns InParent)
        | Raises e =>
            if is_Exception e then (set_main_process (Some r) None c, Returns InParent)
            else (c, Raises e)
        end
  end.

(** [start_all].  With [wait_for_subprocess] the parent comes back once
    the child has set the shared event. *)
Definition start_all (sys : system) (task : Task) (wait_for_subprocess : bool)
           (h : gmap nat t) (s : shared)
  : (gmap nat t * shared) * outcome fork_side :=
  if negb (_report_subprocess_enabled task) then
    (start_each sys (instances_of task (cls s)) (h, s), Returns InParent)
  else if negb (pid_truthy (_main_process (cls s))) then
    let c := set_election (getpid sys) (SafeEvent.clear SafeEvent.__init__) (id task) (cls s) in
    let h := fold_left (on_instance set_subprocess_mode) (instances_of task c) h in
    match __start_subprocess_os_fork sys c with
    | (c, Raises e) => ((h, set_cls c s), Raises e)
    | (c, Returns InChild) => ((h, set_cls c s), Returns InChild)
    | (c, Returns InParent) =>
        let c :=
          if wait_for_subprocess then
            set_sub_process_started
              (option_map SafeEvent.ProcessEvent_set (_sub_process_started c)) c
          else c in
        ((h, set_cls c s), Returns InParent)
    end
  else ((h, s), Returns InParent).

End BackgroundMonitor.

(** ** The async call pool and [SafeQueue] *)

Module SafeQueue.

Import Pipe ForkSafe.

(** A request of the pool, [(func, args)].  The queue only ever submits
    [(self._q_put, (obj, allow_raise))]. *)
Inductive call : Type :=
| q_put_call (obj : bytes) (allow_raise : bool).

(** [ThreadCalls]: the requests ([None] is the closing sentinel) and
    the worker ([Some alive] for a [Thread] object, [None] once the
    worker has marked itself done). *)
Record ThreadCalls : Type := mk_calls {
  _queue : ForkQueue (option call);
  _thread : option bool
}.

Record SingletonThreadPool : Type := mk_pool {
  __thread_pool : option ThreadCalls;
  __thread_pool_pid : option Z
}.

Record t : Type := mk {
  _reader_thread : option bool;
  _reader_thread_started : bool;
  _q : SimpleQueue;
  _internal_q : option (ForkQueue bytes);
  _q_size : list Z
}.

(** One process using one queue: its pid, the class attributes of
    [BackgroundMonitor] (for the at-exit state), its call pool and the
    queue object. *)
Record process : Type := mk_process {
  pid : Z;
  monitor : BackgroundMonitor.class_attrs;
  pool : SingletonThreadPool;
  queue : t
}.

Definition set_pool (p : SingletonThreadPool) (w : process) : process :=
  mk_process (pid w) (monitor w) p (queue w).
Definition set_queue (q : t) (w : process) : process :=
  mk_process (pid w) (monitor w) (pool w) q.
Definition set_monitor (c : BackgroundMonitor.class_attrs) (w : process) : process :=
  mk_process (pid w) c (pool w) (queue w).
Definition set_reader (th : option bool) (started : bool) (q : t) : t :=
  mk th started (_q q) (_internal_q q) (_q_size q).
Definition set_q (sq : SimpleQueue) (q : t) : t :=
  mk (_reader_thread q) (_reader_thread_started q) sq (_internal_q q) (_q_size q).
Definition set_internal_q (iq : option (ForkQueue bytes)) (q : t) : t :=
  mk (_reader_thread q) (_reader_thread_started q) (_q q) iq (_q_size q).
Definition set_q_size (l : list Z) (q : t) : t :=
  mk (_reader_thread q) (_reader_thread_started q) (_q q) (_internal_q q) l.

Definition __init__ (platform : string) : t :=
  mk None false (install_send_bytes platform SimpleQueue_init) None [].

Definition process_initial (platform : string) (p : Z) (at_exit : bool) : process :=
  mk_process p
    (BackgroundMonitor.set_at_exit_state at_exit BackgroundMonitor.class_initial)
    (mk_pool None None) (__init__ platform).

(** *** The pool *)

(** [ThreadCalls()]: [spawn] is what starting the worker thread gives. *)
Definition ThreadCalls_init (spawn : outcome unit) : outcome ThreadCalls :=
  match spawn with
  | Returns _ => Returns (mk_calls ForkQueue_init (Some true))
  | Raises e => Raises e
  end.

Definition SingletonThreadPool_get (spawn : outcome unit) : M process unit :=
  fun w =>
    if opt_pid_neq (__thread_pool_pid (pool w)) (pid w) then
      match ThreadCalls_init spawn with
      | Returns tc => (set_pool (mk_pool (Some tc) (Some (pid w))) w, Returns tt)
      | Raises e => (w, Raises e)
      end
    else (w, Returns tt).

(** [apply_async] on what [get()] returned; the function submitted is a
    bound method, never falsy. *)
Definition apply_async (c : call) : M process bool :=
  fun w =>
    match __thread_pool (pool w) with
    | Some tc =>
        let tc' := mk_calls (ForkQueue_put (pid w) (Some c) (_queue tc)) (_thread tc) in
        (set_pool (mk_pool (Some tc') (__thread_pool_pid (pool w))) w, Returns true)
    | None => (w, Raises AttributeError)
    end.

(** *** The ledger *)

(** [p = None; while p != pid and l: p = l.pop()], on the reversed
    list: entries leave from the end until one of [pid] has left. *)
Fixpoint pop_until (p : Z) (reversed : list Z) : list Z :=
  match reversed with
  | [] => []
  | x :: rest => if x =? p then rest else pop_until p rest
  end.

Definition pop_own (p : Z) (l : list Z) : list Z :=
  rev (pop_until p (rev l)).

(** [len([p for p in self._q_size if p == pid])] with [pid or os.getpid()] *)
Definition _get_q_size_len (arg : option Z) (w : process) : Z :=
  let p := if pid_truthy arg then default (pid w) arg else pid w in
  Z.of_nat (length (filter (fun x => x = p) (_q_size (queue w)))).

Definition is_pending (w : process) : bool :=
  0 <? _get_q_size_len None w.

Definition _q_put (os_write : outcome unit) (obj : bytes) (allow_raise : bool)
  : M process unit :=
  fun w =>
    match SimpleQueue_put os_write obj (_q (queue w)) with
    | (sq, Raises e) =>
        let w := set_queue (set_q_size [] (set_q sq (queue w))) w in
        (w, if allow_raise then Raises e else Returns tt)
    | (sq, Returns _) =>
        let q := set_q sq (queue w) in
        (set_queue (set_q_size (pop_own (pid w) (_q_size q)) q) w, Returns tt)
    end.

(** *** Writing and reading objects *)

Section Pickled.

(** [pickle.dumps] and [pickle.loads] for the objects carried. *)
Context {obj : Type}.
Variable pickle_dumps : obj -> outcome bytes.
Variable pickle_loads : bytes -> outcome obj.

(** What the system answers during one [put]: starting the worker
    thread when the pool has to be built, and the write to the pipe
    when the put is made synchronously. *)
Record put_env : Type := mk_put_env {
  spawn : outcome unit;
  os_write : outcome unit
}.

(** [self.__thread_pool.get().apply_async(self._q_put, args=(obj, False))] *)
Definition dispatch (env : put_env) (b : bytes) : M process unit :=
  do_ SingletonThreadPool_get (spawn env) ;
  do_ apply_async (q_put_call b false) ;
  ret tt.

(** The [try] block of [put]. *)
Definition put_try (env : put_env) (x : obj) : M process unit :=
  do b <~ (fun w => (w, pickle_dumps x)) ;
  do at_exit <~ gets (fun w => BackgroundMonitor.get_at_exit_state (monitor w)) ;
  if (at_exit : bool) then _q_put (os_write env) b true
  else dispatch env b.

Definition put (env : put_env) (x : obj) : M process unit :=
  do_ modify (fun w => set_queue (set_q_size (_q_size (queue w) ++ [pid w]) (queue w)) w) ;
  try_except (put_try env x) catch_all
    (fun _ => modify (fun w =>
       set_queue (set_q_size (pop_own (pid w) (_q_size (queue w))) (queue w)) w)).

(** One turn of the loop of [ThreadCalls._worker], run by the worker
    thread of the pool: nothing to take, the sentinel, or a call
    whose [Exception]s are dropped. *)
Definition _worker (os_write : outcome unit) (w : process) : process :=
  match __thread_pool (pool w) with
  | Some tc =>
      match _thread tc with
      | Some true =>
          let (rq, r) := ForkQueue_get (pid w) true (_queue tc) in
          let with_thread th :=
            set_pool (mk_pool (Some (mk_calls rq th)) (__thread_pool_pid (pool w))) w in
          match r with
          | Got (Some (q_put_call b allow_raise)) =>
              match _q_put os_write b allow_raise (with_thread (Some true)) with
              | (w', Returns _) => w'
              | (w', Raises e) =>
                  if is_Exception e then w'
                  else
                    set_pool (mk_pool (Some (mk_calls rq (Some false)))
                                      (__thread_pool_pid (pool w'))) w'
              end
          | Got None => with_thread None
          | Blocked | Failed _ => with_thread (Some true)
          end
      | _ => w
      end
  | None => w
  end.

(** One turn of the loop of [_reader_daemon], run by the reader
    thread: a message of the pipe goes to the inner queue; a read
    that fails ends the thread. *)
Definition _reader_daemon (os_read : outcome unit) (w : process) : process :=
  match _reader_thread (queue w) with
  | Some true =>
      let dead := set_queue (set_reader (Some false) (_reader_thread_started (queue w)) (queue w)) w in
      match os_read with
      | Raises _ => dead
      | Returns _ =>
          match messages (_q (queue w)) with
          | [] => w
          | b :: rest =>
              match _internal_q (queue w) with
              | Some iq =>
                  let q := set_q (mk_simple_queue rest (_writer_send_bytes (_q (queue w)))) (queue w) in
                  set_queue (set_internal_q (Some (ForkQueue_put (pid w) b iq)) q) w
              | None => dead
              end
          end
      end
  | _ => w
  end.

(** The turns the reader thread takes while another thread waits:
    one read of the pipe each. *)
Definition reader_turns (relays : list (outcome unit)) (w : process) : process :=
  fold_left (fun w o => _reader_daemon o w) relays w.

(** [_init_reader_thread]; the thread object is stored before it is
    started.  After the start the caller waits, first until the daemon has
    set [_reader_thread_started] and then one second more
    ([sleep(1.0)]): [relays] are the reads the reader thread makes in that
    time, each one relaying a message of the pipe to the inner queue. *)
Definition _init_reader_thread (spawn : outcome unit) (relays : list (outcome unit))
  : M process unit :=
  fun w =>
    let q :=
      match _internal_q (queue w) with
      | None => set_internal_q (Some ForkQueue_init) (queue w)
      | Some _ => queue w
      end in
    match _reader_thread q with
    | Some true => (set_queue q w, Returns tt)
    | _ =>
        match spawn with
        | Returns _ =>
            (reader_turns relays (set_queue (set_reader (Some true) true q) w), Returns tt)
        | Raises e =>
            (set_queue (set_reader (Some false) (_reader_thread_started q) q) w, Raises e)
        end
    end.

(** [self._internal_q.get(block)] and [pickle.loads], the two
    statements of [_get_internal_queue] after [_init_reader_thread]. *)
Definition inner_get (block : bool) (w : process) : process * got obj :=
  match _internal_q (queue w) with
  | None => (w, Failed AttributeError)
  | Some iq =>
      let (iq', r) := ForkQueue_get (pid w) block iq in
      let w := set_queue (set_internal_q (Some iq') (queue w)) w in
      match r with
      | Got b =>
          match pickle_loads b with
          | Returns x => (w, Got x)
          | Raises e => (w, Failed e)
          end
      | Blocked => (w, Blocked)
      | Failed e => (w, Failed e)
      end
  end.

(** [get] / [_get_internal_queue].  When the reader thread is started
    by this call, what it relays while the caller waits is there for the
    read that follows; when it is already running, its turns before the
    read are [Reader] events of the schedule. *)
Definition _get_internal_queue (spawn : outcome unit) (relays : list (outcome unit))
           (block : bool) (w : process)
  : process * got obj :=
  match _init_reader_thread spawn relays w with
  | (w, Raises e) => (w, Failed e)
  | (w, Returns _) => inner_get block w
  end.

Definition get := _get_internal_queue.

(** *** Schedules *)

(** What happens in the process, in the order it happens: the calls
    of the main thread, the turns of the two background threads, and
    [BackgroundMonitor.set_at_exit_state].  A [Get] that finds nothing
    yet is a call still waiting; a later [Get] is that call going on. *)
Inductive event : Type :=
| Put (x : obj) (env : put_env)
| Worker (os_write : outcome unit)
| Reader (os_read : outcome unit)
| Get (spawn : outcome unit) (relays : list (outcome unit)) (block : bool)
| AtExit (state : bool).

Definition step (ev : event) (w : process) : process * list (got obj) :=
  match ev with
  | Put x env => (fst (put env x w), [])
  | Worker o => (_worker o w, [])
  | Reader o => (_reader_daemon o w, [])
  | Get sp relays block => let (w', r) := get sp relays block w in (w', [r])
  | AtExit state =>
      (set_monitor (BackgroundMonitor.set_at_exit_state state (monitor w)) w, [])
  end.

Fixpoint run_events (evs : list event) (w : process) : process * list (got obj) :=
  match evs with
  | [] => (w, [])
  | ev :: rest =>
      let (w1, out1) := step ev w in
      let (w2, out2) := run_events rest w1 in
      (w2, out1 ++ out2)
  end.

(** The objects the [get] calls returned. *)
Fixpoint returned (rs : list (got obj)) : list obj :=
  match rs with
  | [] => []
  | Got x :: rest => x :: returned rest
  | _ :: rest => returned rest
  end.

(** The objects put, in the order of the calls. *)
Fixpoint puts_of (evs : list event) : list obj :=
  match evs with
  | [] => []
  | Put x _ :: rest => x :: puts_of rest
  | _ :: rest => puts_of rest
  end.

(** A schedule in which the system refuses nothing. *)
Definition granted (o : outcome unit) : bool :=
  match o with Returns _ => true | Raises _ => false end.

Definition calm (ev : event) : bool :=
  match ev with
  | Put _ env => granted (spawn env) && granted (os_write env)
  | Worker o => granted o
  | Reader o => granted o
  | Get sp relays _ => granted sp && forallb granted relays
  | AtExit _ => true
  end.

(** A step that leaves the at-exit state alone. *)
Definition steady (ev : event) : bool :=
  match ev with
  | AtExit _ => false
  | _ => true
  end.

Definition picklable (x : obj) : bool :=
  match pickle_dumps x with Returns _ => true | Raises _ => false end.

End Pickled.

Arguments mk_put_env spawn os_write : clear implicits.

End SafeQueue.

(** ** [ForkSafeRLock] and [ForkSemaphore] *)

Module ForkSafeRLock.

Import ForkSafe.

(** [threading.RLock]: the thread that holds it and how many times it
    has acquired it. *)
Record RLock : Type := mk_rlock {
  owner : option nat;
  depth : nat
}.

Definition ThreadRLock (_ : unit) : RLock := mk_rlock None 0.

(** [RLock.acquire(blocking)] called by thread [me]. *)
Definition RLock_acquire (me : nat) (blocking : bool) (l : RLock) : RLock * got bool :=
  match owner l with
  | None => (mk_rlock (Some me) 1, Got true)
  | Some holder =>
      if bool_decide (holder = me) then (mk_rlock (Some me) (S (depth l)), Got true)
      else (l, if blocking then Blocked else Got false)
  end.

(** [RLock.release()] called by thread [me]: [RuntimeError] when [me]
    does not hold the lock. *)
Definition RLock_release (me : nat) (l : RLock) : RLock * outcome unit :=
  match owner l with
  | Some holder =>
      if bool_decide (holder = me) then
        match depth l with
        | S (S k) => (mk_rlock (Some me) (S k), Returns tt)
        | _ => (mk_rlock None 0, Returns tt)
        end
      else (l, Raises RuntimeError)
  | None => (l, Raises RuntimeError)
  end.

Definition RLock_is_owned (me : nat) (l : RLock) : bool :=
  bool_decide (owner l = Some me).

Definition t : Type := sync_object RLock.

Definition __init__ : t := ForkSafe.__init__ ThreadRLock.

Definition acquire (pid : Z) (me : nat) (blocking : bool) (l : t) : t * got bool :=
  let l := _create pid l in
  let (inner, r) := RLock_acquire me blocking (the_sync l) in
  (with_sync l inner, r).

Definition release (pid : Z) (me : nat) (l : t) : t * outcome unit :=
  match _sync l with
  | None => (l, Returns tt)
  | Some _ =>
      let l := _create pid l in
      let (inner, r) := RLock_release me (the_sync l) in
      (with_sync l inner, r)
  end.

(** [__enter__] acquires (and returns [self]); [__exit__] releases. *)
Definition __enter__ (pid : Z) (me : nat) (l : t) : t * got bool := acquire pid me true l.
Definition __exit__ (pid : Z) (me : nat) (l : t) : t * outcome unit := release pid me l.

Definition _is_owned (pid : Z) (me : nat) (l : t) : t * bool :=
  let l := _create pid l in
  (l, RLock_is_owned me (the_sync l)).

End ForkSafeRLock.

Module ForkSemaphore.

(** The largest count of a [multiprocessing.Semaphore]: [SEM_VALUE_MAX],
    which is [2^31 - 1] on Linux. *)
Definition SEM_VALUE_MAX : Z := 2147483647.

(** The wrapper of [_ForkSafeThreadSyncObject] for a semaphore: the
    count of the inner [multiprocessing.Semaphore], the pid that built it,
    and the [value] kept in the factory [partial(Semaphore, value)]. *)
Record t : Type := mk {
  _sync : option Z;
  _instance_pid : option Z;
  value : Z
}.

Definition __init__ (value : Z) : t := mk None None value.

Definition stale (pid : Z) (s : t) : bool :=
  opt_pid_neq (_instance_pid s) pid || negb (bool_decide (is_Some (_sync s))).

(** [multiprocessing.Semaphore(value)], which gives the count of the new
    semaphore: a value that does not fit a C [int] is an [OverflowError],
    a negative one is refused by the system with an [OSError], and
    [sem_open] is what the system answers otherwise. *)
Definition Semaphore (sem_open : outcome unit) (value : Z) : outcome Z :=
  if SEM_VALUE_MAX <? value then Raises OverflowError
  else if value <? 0 then Raises OSError
  else match sem_open with
       | Returns _ => Returns value
       | Raises e => Raises e
       end.

(** [Semaphore.acquire(block)] on a semaphore of count [c].  [wait] is
    what becomes of the call in the system: it goes through, or it is
    interrupted and raises. *)
Definition Semaphore_acquire (wait : outcome unit) (block : bool) (c : Z)
  : Z * ForkSafe.got (option bool) :=
  match wait with
  | Raises e => (c, ForkSafe.Failed e)
  | Returns _ =>
      if 0 <? c then (c - 1, ForkSafe.Got (Some true))
      else (c, if block then ForkSafe.Blocked else ForkSafe.Got (Some false))
  end.

(** [Semaphore.release()]: [ValueError] when the count is at
    [SEM_VALUE_MAX]. *)
Definition Semaphore_release (c : Z) : Z * outcome unit :=
  if SEM_VALUE_MAX <=? c then (c, Raises ValueError) else (c + 1, Returns tt).

(** [_create] with a factory that may fail.  The failure leaves the
    wrapper as it was and goes to the caller. *)
Definition _create (sem_open : outcome unit) (pid : Z) (s : t) : t * outcome unit :=
  if stale pid s then
    if stale pid s then
      match Semaphore sem_open (value s) with
      | Returns c => (mk (Some c) (Some pid) (value s), Returns tt)
      | Raises e => (s, Raises e)
      end
    else (s, Returns tt)
  else (s, Returns tt).

(** [acquire], called as [acquire()] or [acquire(block)].  Only
    [self._create()] is inside the [try]: what [self._sync.acquire]
    raises goes to the caller.  In what it gives back, [Got (Some b)] is
    the boolean of the inner semaphore and [Got None] is Python's [None]. *)
Definition acquire (sem_open wait : outcome unit) (pid : Z) (block : bool) (s : t)
  : t * ForkSafe.got (option bool) :=
  match _create sem_open pid s with
  | (s, Raises _) => (s, ForkSafe.Got None)
  | (s, Returns _) =>
      match _sync s with
      | Some c =>
          let (c', r) := Semaphore_acquire wait block c in
          (mk (Some c') (_instance_pid s) (value s), r)
      | None => (s, ForkSafe.Failed AttributeError)
      end
  end.

Definition release (sem_open : outcome unit) (pid : Z) (s : t) : t * outcome unit :=
  match _sync s with
  | None => (s, Returns tt)
  | Some _ =>
      match _create sem_open pid s with
      | (s, Raises e) => (s, Raises e)
      | (s, Returns _) =>
          match _sync s with
          | Some c =>
              let (c', r) := Semaphore_release c in
              (mk (Some c') (_instance_pid s) (value s), r)
          | None => (s, Raises AttributeError)
          end
      end
  end.

Definition get_value (sem_open : outcome unit) (pid : Z) (s : t) : t * outcome Z :=
  match _create sem_open pid s with
  | (s, Raises e) => (s, Raises e)
  | (s, Returns _) =>
      match _sync s with
      | Some c => (s, Returns c)
      | None => (s, Raises AttributeError)
      end
  end.

End ForkSemaphore.

(** ** [SafeQueue.empty] and [SafeQueue.batch_get] *)

Module SafeQueueBatch.

Import Pipe ForkSafe SafeQueue.

(** [self._q.empty() and (not self._internal_q or self._internal_q.empty())]:
    the pipe is looked at first, and the inner queue only when the pipe
    has nothing. *)
Definition empty (w : process) : process * outcome bool :=
  if bool_decide (messages (_q (queue w)) = []) then
    match _internal_q (queue w) with
    | None => (w, Returns true)
    | Some iq =>
        let (iq', r) := ForkQueue_empty (pid w) iq in
        (set_queue (set_internal_q (Some iq') (queue w)) w, r)
    end
  else (w, Returns false).

Section Pickled.

Context {obj : Type}.
Variable pickle_dumps : obj -> outcome bytes.
Variable pickle_loads : bytes -> outcome obj.

(** The inner loop of [batch_get]:
    [while not self.empty() and len(buffer) < max_items], with the
    [try] around the non-blocking read.  It gives back the buffer and
    [empty_count]; any exception but [Empty] leaves [batch_get].
    [spawn] and [relays] are what a read that has to start the reader
    thread meets: the outcome of the start, and the reads of the reader
    while the caller waits for it. *)
Fixpoint take_ready (fuel : nat) (spawn : outcome unit) (relays : list (outcome unit))
         (max_items : Z) (buffer : list obj) (empty_count : Z) (w : process)
  : option (process * outcome (list obj * Z)) :=
  match fuel with
  | O => None
  | S fuel =>
      match empty w with
      | (w, Raises e) => Some (w, Raises e)
      | (w, Returns is_empty) =>
          if negb is_empty && (Z.of_nat (length buffer) <? max_items) then
            match _get_internal_queue pickle_loads spawn relays false w with
            | (w, Got x) => take_ready fuel spawn relays max_items (buffer ++ [x]) 0 w
            | (w, Failed QueueEmpty) => Some (w, Returns (buffer, empty_count))
            | (w, Failed e) => Some (w, Raises e)
            | (w, Blocked) => None
            end
          else Some (w, Returns (buffer, empty_count))
      end
  end.

(** The outer loop.  [timeout_count] is [int(timeout / throttle_sleep)],
    which the source computes in floating point; [naps] lists what the
    other threads do during each [sleep(throttle_sleep)], first nap
    first. *)
Fixpoint batch_loop (fuel : nat) (spawn : outcome unit) (relays : list (outcome unit))
         (naps : list (list event))
         (max_items timeout_count : Z) (buffer : list obj) (empty_count : Z)
         (w : process) : option (process * outcome (list obj)) :=
  match fuel with
  | O => None
  | S fuel' =>
      if Z.of_nat (length buffer) <? max_items then
        match take_ready fuel spawn relays max_items buffer empty_count w with
        | None => None
        | Some (w, Raises e) => Some (w, Raises e)
        | Some (w, Returns (buffer, empty_count)) =>
            let empty_count := empty_count + 1 in
            if (timeout_count <? empty_count) || (max_items <=? Z.of_nat (length buffer))
            then Some (w, Returns buffer)
            else
              let w := fst (run_events pickle_dumps pickle_loads (hd [] naps) w) in
              batch_loop fuel' spawn relays (tl naps) max_items timeout_count buffer
                         empty_count w
        end
      else Some (w, Returns buffer)
  end.

Definition batch_get (fuel : nat) (spawn : outcome unit) (relays : list (outcome unit))
           (naps : list (list event))
           (max_items timeout_count : Z) (w : process)
  : option (process * outcome (list obj)) :=
  batch_loop fuel spawn relays naps max_items timeout_count [] timeout_count w.

End Pickled.

End SafeQueueBatch.

(** ** The life of a monitor *)

Module MonitorRun.

Import BackgroundMonitor.

(** [is_set()] of either kind of event; on a [ForkEvent] the call goes
    through [_create]. *)
Definition event_is_set (sys : system) (e : event) : event * bool :=
  match e with
  | Fork f => let (f', b) := ForkSafe.ForkEvent_is_set (getpid sys) f in (Fork f', b)
  | Safe s => (Safe s, SafeEvent.is_set s)
  end.

(** [wait].  [self._done_ev] is an event object, never falsy, so the
    first test never returns.  [timeout] says whether a timeout was given;
    without one the call waits until the event is set.  Nothing is
    returned either way. *)
Definition wait (sys : system) (c : class_attrs) (timeout : bool) (m : t)
  : t * ForkSafe.got unit :=
  if negb (is_subprocess_mode c m) || is_subprocess_mode_and_parent_process sys c m then
    let (e, b) := event_is_set sys (_done_ev m) in
    (set_done_ev e m, if b || timeout then ForkSafe.Got tt else ForkSafe.Blocked)
  else (m, ForkSafe.Got tt).

Definition post_execution (sys : system) (c : class_attrs) (m : t) : t * outcome unit :=
  let (e, o) := event_set sys c (_done_ev m) in
  (set_done_ev e m, o).

(** [_daemon], the body of the thread.  [daemon_result] is how the call
    [self.daemon()] ends; subclasses supply that method. *)
Definition _daemon (sys : system) (c : class_attrs) (daemon_result : outcome unit) (m : t)
  : t * outcome unit :=
  let (e, o) := event_set sys c (_start_ev m) in
  let m := set_start_ev e m in
  match o with
  | Raises x => (m, Raises x)
  | Returns _ =>
      match post_execution sys c m with
      | (m, Raises x) => (m, Raises x)
      | (m, Returns _) => (set_thread (Flag false) m, daemon_result)
      end
  end.

(** [is_alive]; [alive] is what [Thread.is_alive()] answers.  The
    result is the truth value of what the [and] chain returns. *)
Definition is_alive (sys : system) (alive : nat -> bool) (c : class_attrs) (m : t)
  : t * outcome bool :=
  if negb (is_subprocess_mode c m) then
    (m, Returns (match _thread m with Thread th => alive th | _ => false end))
  else
    match is_subprocess_alive sys c None with
    | Raises e => (m, Raises e)
    | Returns v =>
        if get_at_exit_state c then (m, Returns (truthy v && thread_truthy (_thread m)))
        else if truthy v && thread_truthy (_thread m) then
          let (e, started) := event_is_set sys (_start_ev m) in
          let m := set_start_ev e m in
          if started then
            let (e, done) := event_is_set sys (_done_ev m) in
            (set_done_ev e m, Returns (negb done))
          else (m, Returns false)
        else (m, Returns false)
    end.

(** [_fast_is_subprocess_alive]: the stored handle is asked; a process
    handle is never falsy. *)
Definition _fast_is_subprocess_alive (c : class_attrs) : outcome bool :=
  match _main_process_proc_obj c with
  | None => Returns false
  | Some p =>
      match Psutil.running_and_not_zombie (Psutil.this p) with
      | Returns b => Returns b
      | Raises e => if is_Exception e then Returns false else Raises e
      end
  end.

End MonitorRun.

(** ** [SafeQueue.close] *)

Module SafeQueueClose.

Import Pipe ForkSafe SafeQueue.

(** [ThreadCalls.is_alive]: [bool(self._thread) and self._thread.is_alive()] *)
Definition ThreadCalls_is_alive (tc : ThreadCalls) : bool :=
  match _thread tc with
  | Some alive => alive
  | None => false
  end.

(** [SingletonThreadPool.is_active], as a truth value. *)
Definition SingletonThreadPool_is_active (w : process) : bool :=
  match __thread_pool (pool w) with
  | Some tc =>
      negb (opt_pid_neq (__thread_pool_pid (pool w)) (pid w)) && ThreadCalls_is_alive tc
  | None => false
  end.

Section Pickled.

Context {obj : Type}.
Variable pickle_dumps : obj -> outcome bytes.
Variable pickle_loads : bytes -> outcome obj.

(** One [sleep(0.1)] of [close]: what the other threads do meanwhile,
    the clock when [time() - tic] is computed, and the clock when [tic] is
    read again.  Clock readings are in one fixed unit. *)
Record nap : Type := mk_nap {
  during : list (event (obj := obj));
  now : Z;
  again : Z
}.

(** [if event: event.set()] *)
Definition signal (sys : BackgroundMonitor.system) (c : BackgroundMonitor.class_attrs)
           (ev : option SafeEvent.t) : option SafeEvent.t * outcome unit :=
  match ev with
  | Some e => let (e', o) := BackgroundMonitor.SafeEvent_set sys c e in (Some e', o)
  | None => (None, Returns tt)
  end.

(** The loop of [close].  [timeout] 0 stands for a falsy timeout
    ([None] or [0.0]).  The call has not returned when the naps
    described are used up. *)
Fixpoint close_loop (sys : BackgroundMonitor.system) (timeout : Z) (naps : list nap)
         (tic prev_q_size : Z) (ev : option SafeEvent.t) (w : process)
  : option ((process * option SafeEvent.t) * outcome unit) :=
  if is_pending w then
    match signal sys (monitor w) ev with
    | (ev, Raises x) => Some ((w, ev), Raises x)
    | (ev, Returns _) =>
        if negb (SingletonThreadPool_is_active w) then Some ((w, ev), Returns tt)
        else
          match naps with
          | [] => None
          | n :: rest =>
              let w := fst (run_events pickle_dumps pickle_loads (during n) w) in
              if negb (timeout =? 0) && (timeout <? now n - tic) then
                if prev_q_size =? _get_q_size_len (Some (pid w)) w
                then Some ((w, ev), Returns tt)
                else close_loop sys timeout rest (again n)
                                (_get_q_size_len (Some (pid w)) w) ev w
              else close_loop sys timeout rest tic prev_q_size ev w
          end
    end
  else Some ((w, ev), Returns tt).

Definition close (sys : BackgroundMonitor.system) (timeout : Z) (tic : Z)
           (naps : list nap) (ev : option SafeEvent.t) (w : process)
  : option ((process * option SafeEvent.t) * outcome unit) :=
  close_loop sys timeout naps tic (_get_q_size_len (Some (pid w)) w) ev w.

End Pickled.

End SafeQueueClose.

(** ** Leaving subprocess mode *)

Module MonitorClear.

Import BackgroundMonitor.

(** The loop [for d in BackgroundMonitor._instances.get(id(task.id), []): d.stop()].
    The list walked is the one the registry holds, and [stop] removes
    from that very list: the loop reads position [i] of the list as it is
    at that moment.  The list never grows, so [fuel] at its first length is
    enough.  A [stop] that waits at its join keeps the loop waiting. *)
Fixpoint stop_each (fuel : nat) (i : nat) (sys : system) (task : Task)
         (h : gmap nat t) (s : shared) : (gmap nat t * shared) * ForkSafe.got unit :=
  match fuel with
  | O => ((h, s), ForkSafe.Got tt)
  | S fuel =>
      match instances_of task (cls s) !! i with
      | None => ((h, s), ForkSafe.Got tt)
      | Some d =>
          match h !! d with
          | None => stop_each fuel (S i) sys task h s
          | Some m =>
              match stop sys m s with
              | ((m', s'), ForkSafe.Got _) =>
                  stop_each fuel (S i) sys task (<[d := m']> h) s'
              | ((m', s'), ForkSafe.Blocked) => ((<[d := m']> h, s'), ForkSafe.Blocked)
              | ((m', s'), ForkSafe.Failed e) => ((<[d := m']> h, s'), ForkSafe.Failed e)
              end
          end
      end
  end.

(** The loop [while cls.is_subprocess_alive(task=task) and
    (not timeout or time() - tic < timeout): sleep(0.03)].  Each poll has
    the process table and the clock of its moment; [timeout] 0 stands for
    a falsy timeout.  The call has not returned ([None]) when the polls
    described are used up, or when a [stop] waits at its join. *)
Fixpoint poll (timeout tic : Z) (c : class_attrs) (task : Task)
         (polls : list (system * Z)) : option (outcome unit) :=
  match polls with
  | [] => None
  | (sys, now) :: rest =>
      match is_subprocess_alive sys c (Some task) with
      | Raises e => Some (Raises e)
      | Returns v =>
          if truthy v && ((timeout =? 0) || (now - tic <? timeout))
          then poll timeout tic c task rest
          else Some (Returns tt)
      end
  end.

Definition wait_for_sub_process (sys : system) (task : Task) (timeout tic : Z)
           (polls : list (system * Z)) (h : gmap nat t) (s : shared)
  : option ((gmap nat t * shared) * outcome unit) :=
  if negb (is_subprocess_enabled (cls s) (Some task)) then Some ((h, s), Returns tt)
  else
    match stop_each (length (instances_of task (cls s))) 0 sys task h s with
    | (hs, ForkSafe.Failed e) => Some (hs, Raises e)
    | (_, ForkSafe.Blocked) => None
    | ((h, s), ForkSafe.Got _) =>
        match poll timeout tic (cls s) task polls with
        | None => None
        | Some o => Some ((h, s), o)
        end
    end.

(** [clear_main_process].  The at-exit state is not among the
    attributes reset.  [SingletonThreadPool.clear()] closes the pool
    object, which cannot raise, and forgets it: the two class attributes
    of the pool are [None] afterwards. *)
Definition clear_main_process (sys : system) (task : Task) (tic : Z)
           (polls : list (system * Z)) (h : gmap nat t) (s : shared)
           (pool : SafeQueue.SingletonThreadPool)
  : option (((gmap nat t * shared) * SafeQueue.SingletonThreadPool) * outcome unit) :=
  if task_id_differs (cls s) (id task) then Some (((h, s), pool), Returns tt)
  else
    match wait_for_sub_process sys task 0 tic polls h s with
    | None => None
    | Some (hs, Raises e) => Some ((hs, pool), Raises e)
    | Some ((h, s), Returns _) =>
        let c := mk_class None None None None None (_at_exit (cls s)) ∅ in
        Some (((h, set_cls c s), SafeQueue.mk_pool None None), Returns tt)
    end.

End MonitorClear.

(** ** [SingletonLock] *)

Module SingletonLock.

(** A lock object: [_lock] is [None] until [create]. *)
Record t : Type := mk {
  _lock : option ForkSafeRLock.t
}.

(** The class: [_instances], the objects by identity in the order of
    their creation, and the objects themselves. *)
Record class_state : Type := mk_class {
  _instances : list nat;
  objects : gmap nat t
}.

Definition class_initial : class_state := mk_class [] ∅.

Definition __init__ (identity : nat) (c : class_state) : class_state :=
  mk_class (_instances c ++ [identity]) (<[identity := mk None]> (objects c)).

Definition create (l : t) : t :=
  match _lock l with
  | None => mk (Some ForkSafeRLock.__init__)
  | Some _ => l
  end.

Definition acquire (pid : Z) (me : nat) (blocking : bool) (l : t)
  : t * ForkSafe.got bool :=
  match _lock (create l) with
  | Some k => let (k', r) := ForkSafeRLock.acquire pid me blocking k in (mk (Some k'), r)
  | None => (create l, ForkSafe.Failed AttributeError)
  end.

Definition release (pid : Z) (me : nat) (l : t) : t * outcome unit :=
  match _lock l with
  | None => (l, Returns tt)
  | Some k => let (k', r) := ForkSafeRLock.release pid me k in (mk (Some k'), r)
  end.

(** [instantiate]: [for i in cls._instances: i.create()] *)
Definition instantiate (c : class_state) : class_state :=
  mk_class (_instances c)
    (fold_left (fun h i => match h !! i with
                           | Some l => <[i := create l]> h
                           | None => h
                           end)
               (_instances c) (objects c)).

Definition __enter__ (pid : Z) (me : nat) (l : t) : t * ForkSafe.got bool :=
  acquire pid me true l.
Definition __exit__ (pid : Z) (me : nat) (l : t) : t * outcome unit :=
  release pid me l.

End SingletonLock.

(** ** Closing the call pool *)

Module ThreadPoolClose.

Import Pipe ForkSafe SafeQueue.

(** The turns the worker's loop makes during a [join]. *)
Definition worker_turns (turns : list (outcome unit)) (w : process) : process :=
  fold_left (fun w o => _worker o w) turns w.

Definition set_calls (tc : ThreadCalls) (w : process) : process :=
  set_pool (mk_pool (Some tc) (__thread_pool_pid (pool w))) w.

(** [ThreadCalls.close] on the pool of the class: the sentinel is
    queued, the worker is joined (whatever the two calls raise is
    dropped), and [_thread] is put to [None].  [turns] are the turns the
    worker makes during the join.  A worker still at work when the join
    times out goes on by itself afterwards; such a run is not described. *)
Definition ThreadCalls_close (turns : list (outcome unit)) (w : process) : option process :=
  match __thread_pool (pool w) with
  | None => Some w
  | Some tc =>
      match _thread tc with
      | None => Some w
      | Some _ =>
          let w1 := set_calls (mk_calls (ForkQueue_put (pid w) None (_queue tc)) (_thread tc)) w in
          let w2 := worker_turns turns w1 in
          match __thread_pool (pool w2) with
          | Some tc2 =>
              match _thread tc2 with
              | Some true => None
              | _ => Some (set_calls (mk_calls (_queue tc2) None) w2)
              end
          | None => None
          end
      end
  end.

(** [SingletonThreadPool.clear] *)
Definition SingletonThreadPool_clear (turns : list (outcome unit)) (w : process)
  : option process :=
  match ThreadCalls_close turns w with
  | Some w' => Some (set_pool (mk_pool None None) w')
  | None => None
  end.

End ThreadPoolClose.

(** ** Objects for the examples *)

Module Sample.

(** Two kinds of objects: byte strings, which pickle, and function
    objects, which do not.  The pickle of a byte string is a one-byte tag
    followed by the string. *)
Inductive object : Type :=
| Bytes (b : Pipe.bytes)
| Lambda.

Definition dumps (x : object) : outcome Pipe.bytes :=
  match x with
  | Bytes b => Returns (Byte.x42 :: b)
  | Lambda => Raises PicklingError
  end.

Definition loads (b : Pipe.bytes) : outcome object :=
  match b with
  | Byte.x42 :: rest => Returns (Bytes rest)
  | _ => Raises PicklingError
  end.

Definition a : object := Bytes [Byte.x61].
Definition b : object := Bytes [Byte.x62].
Definition c : object := Bytes [Byte.x63].

(** A system that refuses nothing. *)
Definition fine : SafeQueue.put_env := SafeQueue.mk_put_env (Returns tt) (Returns tt).

Definition linux (pid : Z) (at_exit : bool) : SafeQueue.process :=
  SafeQueue.process_initial "linux" pid at_exit.

End Sample.

(** * Properties *)

(** ** The fork-safe queue before its first use *)

Section ForkQueueFacts.

Import ForkSafe.
Context {A : Type}.

(** C9.  On a [ForkQueue] whose inner queue does not exist yet, [empty()]
    returns [True], [full()] returns [False] and [close()] returns, each of
    them without raising and leaving the object as it was: the inner queue
    is still not built, and no pid is recorded. *)
Theorem ForkQueue_untouched_before_first_use (pid : Z) (q : ForkQueue A) :
  _sync q = None ->
  ForkQueue_empty pid q = (q, Returns true)
  /\ ForkQueue_full pid q = (q, Returns false)
  /\ ForkQueue_close pid q = (q, Returns tt)
  /\ _sync (fst (ForkQueue_empty pid q)) = None
  /\ _sync (fst (ForkQueue_full pid q)) = None
  /\ _sync (fst (ForkQueue_close pid q)) = None.
Proof.
  intros Hnone.
  unfold ForkQueue_empty, ForkQueue_full, ForkQueue_close.
  rewrite Hnone. simpl. by repeat split.
Qed.

End ForkQueueFacts.

Lemma ForkQueue_untouched_fresh_instance :
  ForkSafe._sync (@ForkSafe.ForkQueue_init Pipe.bytes) = None
  /\ ForkSafe.ForkQueue_empty 4242 (@ForkSafe.ForkQueue_init Pipe.bytes)
     = (ForkSafe.ForkQueue_init, Returns true).
Proof.
  split; [reflexivity|].
  apply (ForkQueue_untouched_before_first_use 4242 (@ForkSafe.ForkQueue_init Pipe.bytes)).
  reflexivity.
Defined.

(** The same wrapper does build the queue when an item is put. *)
Example ForkQueue_put_builds :
  ForkSafe._sync (ForkSafe.ForkQueue_put 4242 7%nat ForkSafe.ForkQueue_init) = Some [7%nat]
  /\ snd (ForkSafe.ForkQueue_empty 4242 (ForkSafe.ForkQueue_put 4242 7%nat ForkSafe.ForkQueue_init))
     = Returns false.
Proof. split; reflexivity. Qed.

(** ** The length-prefixed write *)

Section PipeFacts.

Import Pipe.

Lemma Z_of_byte_of_Z (z : Z) : Z_of_byte (byte_of_Z z) = Z.land z 255.
Proof.
  unfold Z_of_byte, byte_of_Z.
  assert (Hb : 0 <= Z.land z 255 < 256).
  { change 255 with (Z.ones 8). rewrite Z.land_ones by lia. apply Z.mod_pos_bound. lia. }
  destruct (Byte.of_N (Z.to_N (Z.land z 255))) as [b|] eqn:E.
  - apply Byte.to_of_N in E. rewrite E. rewrite Z2N.id; lia.
  - apply Byte.of_N_None_iff in E. lia.
Qed.

Lemma octet_bit (n k j : Z) :
  0 <= k ->
  Z.testbit (Z.land (Z.shiftr n k) 255) j
  = (0 <=? j) && (j <? 8) && Z.testbit n (j + k).
Proof.
  intros Hk. destruct (Z.ltb_spec j 0) as [Hj|Hj].
  - rewrite Z.testbit_neg_r by lia.
    replace (0 <=? j) with false by (symmetry; apply Z.leb_gt; lia). reflexivity.
  - rewrite Z.land_spec, Z.shiftr_spec by lia.
    change 255 with (Z.ones 8). rewrite Z.testbit_ones by lia.
    destruct (Z.testbit n (j + k)), (0 <=? j), (j <? 8); reflexivity.
Qed.

Lemma high_bits_clear (n i : Z) :
  0 <= n <= 2147483647 -> 31 <= i -> Z.testbit n i = false.
Proof.
  intros Hn Hi. destruct (Z.eq_dec n 0) as [->|Hz].
  - apply Z.bits_0.
  - apply Z.bits_above_log2; [lia|].
    assert (Z.log2 n < 31); [|lia].
    apply Z.log2_lt_pow2; lia.
Qed.

Lemma shiftl8_bit (a m : Z) : Z.testbit (Z.shiftl a 8) m = Z.testbit a (m - 8).
Proof.
  destruct (Z.ltb_spec m 0).
  - by rewrite !Z.testbit_neg_r by lia.
  - apply Z.shiftl_spec. lia.
Qed.

Lemma big_endian_pack (n : Z) :
  0 <= n <= 2147483647 ->
  big_endian [ byte_of_Z (Z.shiftr n 24); byte_of_Z (Z.shiftr n 16);
               byte_of_Z (Z.shiftr n 8); byte_of_Z n ] = n.
Proof.
  intros Hn. unfold big_endian. simpl fold_left.
  rewrite !Z_of_byte_of_Z.
  replace (Z.land n 255) with (Z.land (Z.shiftr n 0) 255) by (by rewrite Z.shiftr_0_r).
  apply Z.bits_inj'. intros i Hi.
  repeat (rewrite ?Z.lor_spec, ?shiftl8_bit).
  rewrite Z.bits_0, !octet_bit by lia.
  replace (i - 8 - 8 - 8 + 24) with i by lia.
  replace (i - 8 - 8 + 16) with i by lia.
  replace (i - 8 + 8) with i by lia.
  replace (i + 0) with i by lia.
  destruct (Z.ltb_spec i 31) as [Hlt|Hge].
  - destruct (Z.testbit n i); [|by rewrite !andb_false_r].
    rewrite !andb_true_r.
    destruct (Z.leb_spec 0 (i - 8 - 8 - 8)), (Z.ltb_spec (i - 8 - 8 - 8) 8),
      (Z.leb_spec 0 (i - 8 - 8)), (Z.ltb_spec (i - 8 - 8) 8),
      (Z.leb_spec 0 (i - 8)), (Z.ltb_spec (i - 8) 8),
      (Z.leb_spec 0 i), (Z.ltb_spec i 8); simpl; try reflexivity; lia.
  - rewrite (high_bits_clear n i) by lia. by rewrite !andb_false_r.
Qed.
(** C7, as the code has it.  Off Windows the queue's writer carries the
    override, and for a payload of at most 2^31 - 1 bytes the override makes
    one call of the underlying send, with one buffer: a four-byte big-endian
    header holding the payload length, followed by the payload. *)
Theorem pipe_override_sends_one_frame
        (platform : string) (os_write : outcome unit) (buf : bytes) (c : Connection) :
  platform <> "win32"%string ->
  Z.of_nat (length buf) <= 2147483647 ->
  _writer_send_bytes (SafeQueue._q (SafeQueue.__init__ platform)) = PipeOverrideSendBytes
  /\ exists header : bytes,
      length header = 4%nat
      /\ big_endian header = Z.of_nat (length buf)
      /\ _pipe_override_send_bytes os_write buf c
         = (mk_conn (sent c ++ [header ++ buf]), os_write).
Proof.
  intros Hplat Hlen. split.
  - unfold SafeQueue.__init__, install_send_bytes. simpl.
    destruct (String.eqb_spec platform "win32"); [contradiction|reflexivity].
  - unfold _pipe_override_send_bytes, struct_pack_i.
    replace (-2147483648 <=? Z.of_nat (length buf)) with true
      by (symmetry; apply Z.leb_le; lia).
    replace (Z.of_nat (length buf) <=? 2147483647) with true
      by (symmetry; apply Z.leb_le; lia).
    simpl andb. cbv iota.
    set (n := Z.of_nat (length buf)) in *.
    exists [ byte_of_Z (Z.shiftr n 24); byte_of_Z (Z.shiftr n 16);
             byte_of_Z (Z.shiftr n 8); byte_of_Z n ].
    split; [reflexivity|]. split; [|reflexivity].
    apply big_endian_pack. lia.
Qed.

End PipeFacts.

Lemma pipe_override_sends_one_frame_abc :
  "linux"%string <> "win32"%string
  /\ Z.of_nat (length [Byte.x61; Byte.x62; Byte.x63]) <= 2147483647
  /\ exists header : Pipe.bytes,
      length header = 4%nat
      /\ Pipe.big_endian header = 3
      /\ Pipe._pipe_override_send_bytes (Returns tt) [Byte.x61; Byte.x62; Byte.x63]
           (Pipe.mk_conn [])
         = (Pipe.mk_conn [header ++ [Byte.x61; Byte.x62; Byte.x63]], Returns tt).
Proof.
  split; [discriminate|]. split; [simpl; lia|].
  apply (pipe_override_sends_one_frame "linux" (Returns tt)
           [Byte.x61; Byte.x62; Byte.x63] (Pipe.mk_conn [])).
  - discriminate.
  - simpl; lia.
Defined.

Example pipe_override_frame_abc :
  Pipe._pipe_override_send_bytes (Returns tt) [Byte.x61; Byte.x62; Byte.x63] (Pipe.mk_conn [])
  = (Pipe.mk_conn [[Byte.x00; Byte.x00; Byte.x00; Byte.x03; Byte.x61; Byte.x62; Byte.x63]],
     Returns tt).
Proof. reflexivity. Qed.

(** A payload of 2^31 bytes: [struct.pack] refuses the length, the
    override raises and the underlying send is never called. *)
Lemma pipe_override_refuses_2GiB :
  Pipe._pipe_override_send_bytes (Returns tt)
    (repeat Byte.x00 (Z.to_nat 2147483648)) (Pipe.mk_conn [])
  = (Pipe.mk_conn [], Raises StructError).
Proof.
  unfold Pipe._pipe_override_send_bytes.
  rewrite repeat_length, Z2Nat.id by lia.
  reflexivity.
Qed.

(** ** The guarded event and the liveness query *)

Section LivenessFacts.

Import BackgroundMonitor.

(** [BackgroundMonitor.is_subprocess_alive()] returned a true value. *)
Definition confirmed_alive (sys : system) (c : class_attrs) : bool :=
  match is_subprocess_alive sys c None with
  | Returns v => truthy v
  | Raises _ => false
  end.

(** C5, as the code has it.  [SafeEvent.set()] sets the underlying event
    exactly when subprocess coordination is not enabled or the subprocess
    is confirmed alive; in every other state the event is left as it was.
    The call returns normally whenever it sets the event, and it raises
    exactly when subprocess coordination is enabled and the liveness query
    itself raises: the exception of the query then leaves [set()]. *)
Theorem SafeEvent_set_iff_not_enabled_or_alive
        (sys : system) (c : class_attrs) (e : SafeEvent.t) :
  let go := negb (is_subprocess_enabled c None) || confirmed_alive sys c in
  fst (SafeEvent_set sys c e) = (if go then SafeEvent.ProcessEvent_set e else e)
  /\ (SafeEvent.is_set e = false ->
      (SafeEvent.is_set (fst (SafeEvent_set sys c e)) = true <-> go = true))
  /\ (go = true -> snd (SafeEvent_set sys c e) = Returns tt)
  /\ (snd (SafeEvent_set sys c e) = Returns tt
      \/ exists x, is_subprocess_alive sys c None = Raises x
                   /\ snd (SafeEvent_set sys c e) = Raises x)
  /\ (forall x, snd (SafeEvent_set sys c e) = Raises x
                <-> is_subprocess_enabled c None = true
                    /\ is_subprocess_alive sys c None = Raises x).
Proof.
  unfold SafeEvent_set, confirmed_alive.
  destruct (is_subprocess_enabled c None); simpl.
  - destruct (is_subprocess_alive sys c None) as [v|x]; simpl.
    + destruct (truthy v); simpl; repeat split; auto; try congruence;
        intros; intuition congruence.
    + repeat split; auto; try congruence; [right; eauto|intuition congruence].
  - repeat split; auto; intros; intuition congruence.
Qed.

Lemma SafeEvent_set_on_cleared_event :
  SafeEvent.is_set SafeEvent.__init__ = false
  /\ SafeEvent.is_set
       (fst (SafeEvent_set (mk_system 100 (fun _ => Raises PsutilError) (Returns 0) (fun _ => true))
                           class_initial SafeEvent.__init__)) = true.
Proof.
  split; [reflexivity|].
  apply (SafeEvent_set_iff_not_enabled_or_alive
           (mk_system 100 (fun _ => Raises PsutilError) (Returns 0) (fun _ => true))
           class_initial SafeEvent.__init__); reflexivity.
Defined.

Lemma find_child_boolean (current_pid : Z) (l : list Psutil.proc) :
  find_child current_pid l <> Returns None.
Proof.
  induction l as [|child rest IH]; simpl; [discriminate|].
  destruct (Psutil.pid child =? current_pid); [|exact IH].
  destruct (Psutil.running_and_not_zombie child); discriminate.
Qed.

Lemma fallback_lookup_None (sys : system) (c : class_attrs) :
  pid_truthy (_main_process c) = true ->
  (fallback_lookup sys c = Returns None
   <-> exists e, Process sys (_parent_pid c) = Raises e /\ is_psutil_Error e = true).
Proof.
  unfold fallback_lookup, pid_truthy.
  destruct (_main_process c) as [p|]; [|discriminate].
  intros Hp. destruct (p =? 0); [discriminate|].
  destruct (Process sys (_parent_pid c)) as [parent|e].
  - split.
    + destruct (Psutil.children parent) as [l|e]; [|discriminate].
      intros H. by apply find_child_boolean in H.
    + intros (e & He & _). discriminate.
  - destruct (is_psutil_Error e) eqn:E; split; try discriminate; eauto.
    intros (e' & [= <-] & He'). congruence.
Qed.

(** The process that elects the subprocess, seen from the parent. *)
Definition electing_system : system :=
  mk_system 100
    (fun p => Returns (Psutil.mk_Process
                         (Psutil.mk_proc (default 100 p) true (Returns Psutil.STATUS_RUNNING))
                         (Returns [])))
    (Returns 200)
    (fun _ => true).

(** A later moment, in a process that inherited the class attributes:
    neither the subprocess nor the recorded parent can be found. *)
Definition orphaned_system : system :=
  mk_system 300 (fun _ => Raises PsutilError) (Returns 0) (fun _ => true).

(** In the parent, after the election of subprocess 200: the subprocess
    cannot be looked up, and listing the children of the parent fails. *)
Definition children_fail_system : system :=
  mk_system 100
    (fun p =>
       match p with
       | Some 100 =>
           Returns (Psutil.mk_Process
                      (Psutil.mk_proc 100 true (Returns Psutil.STATUS_RUNNING))
                      (Raises PsutilError))
       | _ => Raises PsutilError
       end)
    (Returns 0)
    (fun _ => true).

Definition elected_200 : class_attrs :=
  mk_class (Some 200) None (Some "task-1"%string) (Some 100) None false ∅.

(** Subprocess coordination is enabled and the subprocess is not
    confirmed alive, but [set()] is not a no-op: [is_subprocess_alive]
    falls back on [parent.children(recursive=True)], which it does not
    guard, and the [psutil.Error] leaves [set()]. *)
Lemma SafeEvent_set_raises_when_children_fail :
  is_subprocess_enabled elected_200 None = true
  /\ confirmed_alive children_fail_system elected_200 = false
  /\ SafeEvent_set children_fail_system elected_200 SafeEvent.__init__
     = (SafeEvent.__init__, Raises PsutilError).
Proof. by split_and!. Qed.

Definition main_task : Task := mk_task "task-1" 77 true true.

(** C8.  After [start_all] has recorded a subprocess there is a state of
    the process table in which [is_subprocess_alive] returns [None].  The
    function returns [None] exactly when a subprocess pid is recorded (for
    the task asked about), the direct lookup raises an [Exception] and the
    lookup of the recorded parent pid raises a [psutil.Error]; whatever
    else it returns is a boolean. *)
Theorem is_subprocess_alive_may_return_None :
  (exists h s,
      start_all electing_system main_task false ∅ shared_initial = ((h, s), Returns InParent)
      /\ is_subprocess_alive orphaned_system (cls s) None = Returns None)
  /\ (forall (sys : system) (c : class_attrs) (task : option Task),
        is_subprocess_alive sys c task = Returns None
        <-> (pid_truthy (_main_process c) = true
             /\ other_task c task = false
             /\ (exists e, direct_lookup sys c = Raises e /\ is_Exception e = true)
             /\ (exists e, Process sys (_parent_pid c) = Raises e
                           /\ is_psutil_Error e = true)))
  /\ (forall (sys : system) (c : class_attrs) (task : option Task) (e : exn),
        pid_truthy (_main_process c) = true ->
        other_task c task = false ->
        Process sys (_main_process c) = Raises e ->
        is_Exception e = true ->
        Process sys (_parent_pid c) = Raises PsutilError ->
        is_subprocess_alive sys c task = Returns None).
Proof.
  assert (Hiff : forall (sys : system) (c : class_attrs) (task : option Task),
        is_subprocess_alive sys c task = Returns None
        <-> (pid_truthy (_main_process c) = true
             /\ other_task c task = false
             /\ (exists e, direct_lookup sys c = Raises e /\ is_Exception e = true)
             /\ (exists e, Process sys (_parent_pid c) = Raises e
                           /\ is_psutil_Error e = true))).
  { intros sys c task. unfold is_subprocess_alive.
    destruct (pid_truthy (_main_process c)) eqn:Hp; simpl.
    2:{ split; [discriminate|]. intros (? & _). discriminate. }
    destruct (other_task c task) eqn:Ho; simpl.
    { split; [discriminate|]. intros (_ & ? & _). discriminate. }
    destruct (direct_lookup sys c) as [b|e] eqn:Hd.
    { split; [discriminate|]. intros (_ & _ & (e & ? & _) & _). discriminate. }
    destruct (is_Exception e) eqn:He.
    - rewrite (fallback_lookup_None sys c Hp). split.
      + intros Hpar. repeat split; eauto.
      + intros (_ & _ & _ & Hpar). exact Hpar.
    - split; [discriminate|].
      intros (_ & _ & (e' & [= <-] & He') & _). congruence. }
  split; [|split].
  - eexists _, _. split; reflexivity.
  - exact Hiff.
  - intros sys c task e Hp Ho Hl He Hpar. apply Hiff.
    repeat split; auto.
    + exists e. split; [|exact He]. unfold direct_lookup. by rewrite Hl.
    + exists PsutilError. split; [exact Hpar|reflexivity].
Qed.

Lemma is_subprocess_alive_None_when_orphaned :
  is_subprocess_alive orphaned_system
    (mk_class (Some 200) None (Some "task-1"%string) (Some 100) None false ∅) None
  = Returns None.
Proof.
  apply (proj2 (proj2 is_subprocess_alive_may_return_None)) with (e := PsutilError);
    reflexivity.
Defined.

End LivenessFacts.

(** ** The pending-write ledger *)

Section LedgerFacts.

Import Pipe ForkSafe SafeQueue.
Context {obj : Type}.
Variable pickle_dumps : obj -> outcome bytes.

Lemma pop_own_last (p : Z) (l : list Z) : pop_own p (l ++ [p]) = l.
Proof.
  unfold pop_own. rewrite rev_app_distr. simpl.
  rewrite Z.eqb_refl. apply rev_involutive.
Qed.

(** The ledger with the entry of the calling process appended. *)
Definition appended (w : process) : process :=
  set_queue (set_q_size (_q_size (queue w) ++ [pid w]) (queue w)) w.

Lemma put_unfold (env : put_env) (x : obj) (w : process) :
  put pickle_dumps env x w
  = match put_try pickle_dumps env x (appended w) with
    | (w', Returns a) => (w', Returns a)
    | (w', Raises _) =>
        (set_queue (set_q_size (pop_own (pid w') (_q_size (queue w'))) (queue w')) w',
         Returns tt)
    end.
Proof.
  unfold put, bind, modify, try_except, catch_all, appended.
  destruct (put_try _ _ _ _) as [w' [a|e]]; reflexivity.
Qed.

Lemma put_try_unfold (env : put_env) (x : obj) (w : process) :
  put_try pickle_dumps env x w
  = match pickle_dumps x with
    | Raises e => (w, Raises e)
    | Returns b =>
        if BackgroundMonitor.get_at_exit_state (monitor w)
        then _q_put (os_write env) b true w
        else dispatch env b w
    end.
Proof.
  unfold put_try, bind, gets. destruct (pickle_dumps x); [|reflexivity].
  by destruct (BackgroundMonitor.get_at_exit_state (monitor w)).
Qed.

(** The dispatch does not look at the queue object. *)
Lemma dispatch_frame (env : put_env) (b : bytes) (q : t) (w : process) :
  dispatch env b (set_queue q w)
  = (set_queue q (fst (dispatch env b w)), snd (dispatch env b w)).
Proof.
  unfold dispatch, bind, ret, SingletonThreadPool_get, apply_async, ThreadCalls_init.
  simpl. destruct (opt_pid_neq _ _); simpl.
  - destruct (spawn env); reflexivity.
  - destruct (__thread_pool (pool w)); reflexivity.
Qed.

Lemma dispatch_keeps_queue (env : put_env) (b : bytes) (w : process) :
  queue (fst (dispatch env b w)) = queue w /\ pid (fst (dispatch env b w)) = pid w.
Proof.
  unfold dispatch, bind, ret, SingletonThreadPool_get, apply_async, ThreadCalls_init.
  destruct (opt_pid_neq _ _); simpl.
  - destruct (spawn env); simpl; auto.
  - destruct (__thread_pool (pool w)); simpl; auto.
Qed.

(** C2.  [put] returns to its caller whatever happens inside; and when
    pickling the object raises, or when handing the write to the call pool
    raises, the ledger is afterwards what it was before the call, so the
    pending count of the calling process is unchanged. *)
Theorem put_never_raises_and_rolls_back (env : put_env) (x : obj) (w : process) :
  snd (put pickle_dumps env x w) = Returns tt
  /\ (forall e, pickle_dumps x = Raises e ->
        _q_size (queue (fst (put pickle_dumps env x w))) = _q_size (queue w)
        /\ _get_q_size_len None (fst (put pickle_dumps env x w)) = _get_q_size_len None w)
  /\ (forall b e,
        BackgroundMonitor.get_at_exit_state (monitor w) = false ->
        pickle_dumps x = Returns b ->
        snd (dispatch env b w) = Raises e ->
        _q_size (queue (fst (put pickle_dumps env x w))) = _q_size (queue w)
        /\ _get_q_size_len None (fst (put pickle_dumps env x w)) = _get_q_size_len None w).
Proof.
  rewrite put_unfold, put_try_unfold. split; [|split].
  - destruct (pickle_dumps x) as [b|e]; [|reflexivity].
    destruct (BackgroundMonitor.get_at_exit_state _).
    + destruct (_q_put _ _ _ _) as [w' [[]|e]]; reflexivity.
    + destruct (dispatch _ _ _) as [w' [[]|e]]; reflexivity.
  - intros e ->. unfold _get_q_size_len. simpl.
    rewrite pop_own_last. auto.
  - intros b e Hexit -> Hfail.
    change (monitor (appended w)) with (monitor w). rewrite Hexit.
    unfold appended. rewrite dispatch_frame, Hfail.
    destruct (dispatch_keeps_queue env b w) as [_ Hpid].
    unfold _get_q_size_len. simpl. rewrite Hpid, pop_own_last. auto.
Qed.

(** A fork-safe queue built by the running process keeps its items. *)
Lemma ForkQueue_get_owned {A : Type} (p : Z) (block : bool) (q : ForkQueue A)
      (x : A) (rest : list A) :
  _instance_pid q = Some p ->
  _sync q = Some (x :: rest) ->
  ForkQueue_get p block q = (with_sync q rest, Got x).
Proof.
  intros Hp Hs. unfold ForkQueue_get, _create, stale, opt_pid_neq, the_sync.
  rewrite Hp, Hs, Z.eqb_refl. simpl. rewrite Hs. reflexivity.
Qed.

(** C4.  When the write to the pipe raises inside [_q_put], the whole
    ledger is emptied, so the pending count is 0 (for the calling process
    and for any other pid), and nothing was written.  The exception leaves
    [_q_put] exactly when [allow_raise] is true.  That is the case for the
    call [put] makes itself in the at-exit state; the request [put] hands
    to the pool carries [allow_raise = False], and the worker goes on after
    the failure. *)
Theorem q_put_write_failure_clears_ledger
        (e : exn) (b : bytes) (allow_raise : bool) (w : process) :
  _q_size (queue (fst (_q_put (Raises e) b allow_raise w))) = []
  /\ (forall p, _get_q_size_len p (fst (_q_put (Raises e) b allow_raise w)) = 0)
  /\ is_pending (fst (_q_put (Raises e) b allow_raise w)) = false
  /\ messages (_q (queue (fst (_q_put (Raises e) b allow_raise w)))) = messages (_q (queue w))
  /\ snd (_q_put (Raises e) b allow_raise w) = (if allow_raise then Raises e else Returns tt)
  /\ (forall (x : obj) (env : put_env),
        BackgroundMonitor.get_at_exit_state (monitor w) = true ->
        pickle_dumps x = Returns b ->
        os_write env = Raises e ->
        put_try pickle_dumps env x w = _q_put (Raises e) b true w
        /\ snd (put_try pickle_dumps env x w) = Raises e)
  /\ (forall (tc : ThreadCalls) (rest : list (option call)),
        __thread_pool (pool w) = Some tc ->
        _thread tc = Some true ->
        _instance_pid (_queue tc) = Some (pid w) ->
        _sync (_queue tc) = Some (Some (q_put_call b false) :: rest) ->
        _q_size (queue (_worker (Raises e) w)) = []
        /\ exists tc', __thread_pool (pool (_worker (Raises e) w)) = Some tc'
                       /\ _thread tc' = Some true
                       /\ _sync (_queue tc') = Some rest).
Proof.
  split; [reflexivity|]. split; [reflexivity|]. split; [reflexivity|].
  split; [reflexivity|]. split; [by destruct allow_raise|]. split.
  - intros x env Hexit Hx Hw.
    rewrite put_try_unfold, Hx, Hexit, Hw. split; reflexivity.
  - intros tc rest Hpool Halive Hown Hitems.
    unfold _worker. rewrite Hpool, Halive.
    rewrite (ForkQueue_get_owned (pid w) true (_queue tc) _ rest Hown Hitems).
    split; [reflexivity|]. simpl. eexists. repeat split.
Qed.

Lemma count_app (p : Z) (l1 l2 : list Z) :
  length (filter (fun x => x = p) (l1 ++ l2))
  = (length (filter (fun x => x = p) l1) + length (filter (fun x => x = p) l2))%nat.
Proof.
  by rewrite filter_app, length_app.
Qed.

(** The pending count of [p] in a ledger. *)
Definition count (p : Z) (l : list Z) : Z :=
  Z.of_nat (length (filter (fun x => x = p) l)).

(** C3, as the code has it.  [put] appends the pid of the calling process
    before anything is dispatched: a put that hands its write to the pool
    leaves the ledger one entry longer.  When the write succeeds and the
    last entry of the ledger is the caller's, [_q_put] pops that one entry
    and no other: the caller's count goes down by one and every other count
    stays.  When the write fails the ledger is emptied.  No count is ever
    negative. *)
Theorem ledger_append_pop_clear (w : process) :
  (forall (env : put_env) (x : obj),
      put pickle_dumps env x w
      = try_except (put_try pickle_dumps env x) catch_all
          (fun _ => modify (fun w =>
             set_queue (set_q_size (pop_own (pid w) (_q_size (queue w))) (queue w)) w))
          (appended w))
  /\ (forall (env : put_env) (x : obj) (b : bytes),
        BackgroundMonitor.get_at_exit_state (monitor w) = false ->
        pickle_dumps x = Returns b ->
        snd (dispatch env b w) = Returns tt ->
        _q_size (queue (fst (put pickle_dumps env x w))) = _q_size (queue w) ++ [pid w])
  /\ (forall (b : bytes) (allow_raise : bool) (l : list Z),
        _q_size (queue w) = l ++ [pid w] ->
        let w' := fst (_q_put (Returns tt) b allow_raise w) in
        _q_size (queue w') = l
        /\ count (pid w) (_q_size (queue w')) = count (pid w) (_q_size (queue w)) - 1
        /\ forall p, p <> pid w ->
                     count p (_q_size (queue w')) = count p (_q_size (queue w)))
  /\ (forall (b : bytes) (allow_raise : bool) (e : exn),
        _q_size (queue (fst (_q_put (Raises e) b allow_raise w))) = [])
  /\ (forall p, 0 <= count p (_q_size (queue w)))
  /\ (forall p, 0 <= _get_q_size_len p w).
Proof.
  split; [|split; [|split; [|split; [|split]]]].
  - intros env x. reflexivity.
  - intros env x b Hexit Hx Hok.
    rewrite put_unfold, put_try_unfold, Hx.
    change (monitor (appended w)) with (monitor w). rewrite Hexit.
    unfold appended. rewrite dispatch_frame, Hok. reflexivity.
  - intros b allow_raise l Hl. simpl. rewrite Hl, pop_own_last.
    split; [reflexivity|]. unfold count. rewrite !count_app.
    split.
    + cbn. destruct (decide (pid w = pid w)); [|congruence].
      rewrite Nat2Z.inj_add. cbn [length]. lia.
    + intros p Hp. rewrite count_app. cbn. destruct (decide (pid w = p)); [congruence|].
      rewrite Nat2Z.inj_add. cbn [length]. lia.
  - intros b allow_raise e. reflexivity.
  - intros p. unfold count. lia.
  - intros p. unfold _get_q_size_len. lia.
Qed.

End LedgerFacts.

Section LedgerExamples.

Import Pipe SafeQueue Sample.

(** No thread can be started any more. *)
Definition exhausted : put_env := mk_put_env (Raises RuntimeError) (Returns tt).

(** A process with pid 5 that inherited an entry of its parent, pid 7,
    and has two writes of its own pending. *)
Definition child_with_two_pending : process :=
  mk_process 5 BackgroundMonitor.class_initial (mk_pool None None)
             (set_q_size [7; 5; 5] (__init__ "linux")).

Lemma put_rolls_back_lambda_and_refused_thread :
  (dumps Lambda = Raises PicklingError
   /\ _q_size (queue (fst (put dumps fine Lambda child_with_two_pending))) = [7; 5; 5])
  /\ (snd (dispatch exhausted [Byte.x42; Byte.x61] child_with_two_pending) = Raises RuntimeError
      /\ _get_q_size_len None (fst (put dumps exhausted a child_with_two_pending)) = 2).
Proof.
  destruct (put_never_raises_and_rolls_back dumps fine Lambda child_with_two_pending)
    as (_ & Hpickle & _).
  destruct (put_never_raises_and_rolls_back dumps exhausted a child_with_two_pending)
    as (_ & _ & Hpool).
  split; (split; [reflexivity|]).
  - apply (Hpickle PicklingError). reflexivity.
  - apply (Hpool [Byte.x42; Byte.x61] RuntimeError); reflexivity.
Defined.

Lemma q_put_write_failure_at_exit_and_in_worker :
  snd (put_try dumps (mk_put_env (Returns tt) (Raises OSError)) a (linux 5 true)) = Raises OSError
  /\ _q_size (queue (_worker (Raises OSError)
                       (fst (put dumps fine b (fst (put dumps fine a (linux 5 false))))))) = [].
Proof.
  split.
  - apply (q_put_write_failure_clears_ledger dumps OSError [Byte.x42; Byte.x61] true
             (linux 5 true)); reflexivity.
  - eapply (q_put_write_failure_clears_ledger dumps OSError [Byte.x42; Byte.x61] false
              (fst (put dumps fine b (fst (put dumps fine a (linux 5 false))))));
      reflexivity.
Defined.

Lemma ledger_pops_own_last_entry :
  _q_size (queue (fst (put dumps fine a child_with_two_pending))) = [7; 5; 5; 5]
  /\ _q_size (queue (fst (_q_put (Returns tt) [Byte.x42; Byte.x61] false
                            child_with_two_pending))) = [7; 5].
Proof.
  destruct (ledger_append_pop_clear dumps child_with_two_pending)
    as (_ & Happend & Hpop & _).
  split.
  - apply (Happend fine a [Byte.x42; Byte.x61]); reflexivity.
  - apply (Hpop [Byte.x42; Byte.x61] false [7; 5]). reflexivity.
Defined.

(** Two puts in the process with pid 5, then the first write fails for
    good: both entries of the process leave the ledger, not one.  And in a
    process that had inherited an entry of pid 7, that entry leaves too. *)
Lemma ledger_failed_write_pops_everything :
  let w := fst (run_events dumps loads [Put a fine; Put b fine] (linux 5 false)) in
  let w' := _worker (Raises OSError) w in
  let after := _q_size (queue (fst (_q_put (Raises OSError) [Byte.x42; Byte.x61] false
                                      child_with_two_pending))) in
  _q_size (queue w) = [5; 5]
  /\ _q_size (queue w') = []
  /\ count 5 (_q_size (queue w')) <> count 5 (_q_size (queue w)) - 1
  /\ _q_size (queue child_with_two_pending) = [7; 5; 5]
  /\ after = []
  /\ count 7 after <> count 7 (_q_size (queue child_with_two_pending)).
Proof. repeat split; discriminate. Qed.

End LedgerExamples.

(** ** Stopping and registering monitors *)

Section MonitorFacts.

Import BackgroundMonitor.

(** Whether an event is set, as the process that owns it sees it. *)
Definition event_flag (e : event) : bool :=
  match e with
  | Fork f => default false (ForkSafe._sync f)
  | Safe s => SafeEvent.is_set s
  end.


(** Every list of the registry is free of repetitions. *)
Definition registry_ok (c : class_attrs) : Prop :=
  forall k l, _instances c !! k = Some l -> NoDup l.



Lemma list_remove_spec (x : nat) (l : list nat) :
  match list_remove x l with
  | Returns l' => exists l1 l2, l = l1 ++ x :: l2 /\ l' = l1 ++ l2 /\ x ∉ l1
  | Raises _ => x ∉ l
  end.
Proof.
  induction l as [|y rest IH]; simpl.
  - apply not_elem_of_nil.
  - destruct (bool_decide (y = x)) eqn:E.
    + apply bool_decide_eq_true in E as ->.
      exists [], rest. repeat split. apply not_elem_of_nil.
    + apply bool_decide_eq_false in E.
      destruct (list_remove x rest) as [l'|e].
      * destruct IH as (l1 & l2 & -> & -> & Hn).
        exists (y :: l1), l2. repeat split.
        rewrite not_elem_of_cons. split; [congruence|exact Hn].
      * rewrite not_elem_of_cons. split; [congruence|exact IH].
Qed.

Lemma list_remove_NoDup (x : nat) (l l' : list nat) :
  NoDup l -> list_remove x l = Returns l' -> NoDup l' /\ x ∉ l'.
Proof.
  intros Hnd Hrem. pose proof (list_remove_spec x l) as Hspec.
  rewrite Hrem in Hspec. destruct Hspec as (l1 & l2 & -> & -> & Hn).
  apply NoDup_app in Hnd as (Hnd1 & Hdisj & Hnd2).
  apply NoDup_cons in Hnd2 as (Hx & Hnd2).
  split.
  - apply NoDup_app. repeat split; auto.
    intros y Hy1 Hy2. apply (Hdisj y Hy1). by apply elem_of_cons; right.
  - rewrite elem_of_app. intros [?|?]; auto.
Qed.

Lemma registered_get_instances (m : t) (c : class_attrs) :
  fst (_get_instances m c) = registered m c
  /\ registered m (snd (_get_instances m c)) = registered m c
  /\ (registry_ok c -> registry_ok (snd (_get_instances m c))).
Proof.
  unfold _get_instances, registered, registry_ok, set_instances.
  destruct (_instances c !! _task_obj_id m) as [l|] eqn:E; simpl.
  - rewrite E. auto.
  - rewrite lookup_insert_eq. repeat split; auto.
    intros Hok k l. destruct (decide (k = _task_obj_id m)) as [->|Hne].
    + rewrite lookup_insert_eq. intros [= <-]. apply NoDup_nil_2.
    + rewrite lookup_insert_ne by congruence. apply Hok.
Qed.

Lemma registered_store (m : t) (l : list nat) (c : class_attrs) :
  registered m (store_instances m l c) = l
  /\ (registry_ok c -> NoDup l -> registry_ok (store_instances m l c)).
Proof.
  unfold registered, store_instances, registry_ok, set_instances. simpl.
  rewrite lookup_insert_eq. split; [reflexivity|].
  intros Hok Hnd k l'. destruct (decide (k = _task_obj_id m)) as [->|Hne].
  - rewrite lookup_insert_eq. by intros [= <-].
  - rewrite lookup_insert_ne by congruence. apply Hok.
Qed.

Lemma join_and_unregister_spec (th : nat) (m : t) (s : shared) :
  let r := join_and_unregister th m s in
  thread_ops (snd r) = thread_ops s ++ [Joined th]
  /\ _thread (fst r) = Flag false
  /\ _event (fst r) = _event m
  /\ ((exists l1 l2, registered m (cls s) = l1 ++ self m :: l2
                     /\ (self m ∉ l1)
                     /\ registered m (cls (snd r)) = l1 ++ l2)
      \/ ((self m ∉ registered m (cls s))
          /\ registered m (cls (snd r)) = registered m (cls s)))
  /\ (NoDup (registered m (cls s)) -> self m ∉ registered m (cls (snd r))).
Proof.
  unfold join_and_unregister. simpl.
  destruct (registered_get_instances m (cls s)) as (Hl & Hreg & _).
  destruct (_get_instances m (cls s)) as [l c] eqn:E. simpl in Hl, Hreg. subst l.
  pose proof (list_remove_spec (self m) (registered m (cls s))) as Hspec.
  pose proof (list_remove_NoDup (self m) (registered m (cls s))) as Hnd.
  destruct (list_remove (self m) (registered m (cls s))) as [l'|e]; simpl.
  - destruct (registered_store m l' c) as [Hst _]. rewrite Hst.
    repeat split; auto.
    + left. destruct Hspec as (l1 & l2 & H1 & H2 & H3). exists l1, l2. auto.
    + intros H. by destruct (Hnd l' H eq_refl).
  - rewrite Hreg. repeat split; auto.
Qed.



Fixpoint start_each_time (syss : list system) (m : t) (s : shared) : t * shared :=
  match syss with
  | [] => (m, s)
  | sys :: rest => let (m', s') := start sys m s in start_each_time rest m' s'
  end.

Lemma start_keeps_identity (sys : system) (m : t) (s : shared) :
  self (fst (start sys m s)) = self m
  /\ _task_obj_id (fst (start sys m s)) = _task_obj_id m
  /\ _subprocess (fst (start sys m s)) = _subprocess m.
Proof.
  unfold start.
  set (m1 := set_done_ev _ _).
  assert (Hid : self m1 = self m /\ _task_obj_id m1 = _task_obj_id m
                /\ _subprocess m1 = _subprocess m).
  { unfold m1. destruct (thread_truthy (_thread m)); auto. }
  destruct (negb (is_not_False (_subprocess m1))).
  - unfold _start, spawn. destruct (_thread m1); simpl; auto.
    destruct (negb (opt_pid_neq _ _)); simpl; auto.
  - destruct (_get_instances m1 (cls s)) as [l c].
    destruct (bool_decide _); simpl; auto.
    destruct (_get_instances m1 c); simpl; auto.
Qed.

Lemma registered_NoDup (m : t) (c : class_attrs) :
  registry_ok c -> NoDup (registered m c).
Proof.
  intros Hok. unfold registered.
  destruct (_instances c !! _task_obj_id m) eqn:E; [by apply (Hok _ _ E)|apply NoDup_nil_2].
Qed.

Lemma start_registry_ok (sys : system) (m : t) (s : shared) :
  registry_ok (cls s) -> registry_ok (cls (snd (start sys m s))).
Proof.
  intros Hok. unfold start.
  set (m1 := set_done_ev _ _).
  destruct (negb (is_not_False (_subprocess m1))).
  - unfold _start, spawn. destruct (_thread m1); simpl; auto.
    destruct (negb (opt_pid_neq _ _)); simpl; auto.
  - destruct (registered_get_instances m1 (cls s)) as (Hl & Hreg & Hok1).
    destruct (_get_instances m1 (cls s)) as [l c] eqn:E. simpl in Hl, Hreg, Hok1.
    destruct (bool_decide (self m1 ∈ l)) eqn:Hin; cbn [fst snd cls set_cls].
    + by apply Hok1.
    + apply bool_decide_eq_false in Hin.
      destruct (registered_get_instances m1 c) as (Hl' & Hreg' & Hok2).
      destruct (_get_instances m1 c) as [l' c'] eqn:E'. simpl in Hl', Hreg', Hok2.
      cbn [fst snd cls set_cls].
      apply registered_store; [by apply Hok2, Hok1|].
      apply NoDup_app. repeat split.
      * subst l'. rewrite Hreg. by apply registered_NoDup.
      * intros y Hy [->|H0]%elem_of_cons; [|by apply not_elem_of_nil in H0].
        apply Hin. by rewrite Hl, <- Hreg, <- Hl'.
      * apply NoDup_singleton.
Qed.

Lemma start_registers (sys : system) (m : t) (s : shared) :
  is_not_False (_subprocess m) = true ->
  self m ∈ registered m (cls (snd (start sys m s))).
Proof.
  intros Hmode. unfold start.
  set (m1 := set_done_ev _ _).
  assert (Hid : self m1 = self m /\ _task_obj_id m1 = _task_obj_id m
                /\ _subprocess m1 = _subprocess m).
  { unfold m1. destruct (thread_truthy (_thread m)); auto. }
  destruct Hid as (Hself & Hkey & Hsub). rewrite Hsub, Hmode. cbn [negb].
  assert (Hregd : forall c, registered m1 c = registered m c).
  { intros c. unfold registered. by rewrite Hkey. }
  destruct (registered_get_instances m1 (cls s)) as (Hl & Hreg & _).
  destruct (_get_instances m1 (cls s)) as [l c] eqn:E. simpl in Hl, Hreg.
  destruct (bool_decide (self m1 ∈ l)) eqn:Hin; cbn [fst snd cls set_cls].
  - apply bool_decide_eq_true in Hin.
    rewrite <- Hregd, Hreg, <- Hl, <- Hself. exact Hin.
  - destruct (_get_instances m1 c) as [l' c'] eqn:E'.
    cbn [fst snd cls set_cls].
    destruct (registered_store m1 (l' ++ [self m1]) c') as [Hst _].
    rewrite <- Hregd, Hst, <- Hself. apply elem_of_app. right.
    apply list_elem_of_singleton. reflexivity.
Qed.

Lemma start_keeps_registered (sys : system) (m : t) (s : shared) :
  self m ∈ registered m (cls s) ->
  self m ∈ registered m (cls (snd (start sys m s))).
Proof.
  intros Hin. destruct (is_not_False (_subprocess m)) eqn:Hmode.
  - by apply start_registers.
  - unfold start.
    set (m1 := set_done_ev _ _).
    assert (Hsub : _subprocess m1 = _subprocess m).
    { unfold m1. by destruct (thread_truthy (_thread m)). }
    rewrite Hsub, Hmode. cbn [negb].
    unfold _start, spawn. destruct (_thread m1); simpl; auto.
    destruct (opt_pid_neq _ _); simpl; auto.
Qed.

Lemma filter_absent (x : nat) (l : list nat) :
  x ∉ l -> filter (fun i => i = x) l = [].
Proof.
  induction l as [|y l IH]; [reflexivity|].
  intros [Hne Hl]%not_elem_of_cons.
  rewrite filter_cons_False by congruence. by apply IH.
Qed.

Lemma NoDup_occurs_once (x : nat) (l : list nat) :
  NoDup l ->
  (length (filter (fun i => i = x) l) <= 1)%nat
  /\ (x ∈ l -> length (filter (fun i => i = x) l) = 1%nat).
Proof.
  induction 1 as [|y l Hy Hnd [IHle IHin]].
  - split; [simpl; lia|]. by intros ?%not_elem_of_nil.
  - destruct (decide (y = x)) as [->|Hne].
    + rewrite filter_cons_True by reflexivity.
      rewrite (filter_absent x l Hy). simpl. split; auto.
    + rewrite filter_cons_False by assumption. split; [exact IHle|].
      intros [?|Hin]%elem_of_cons; [congruence|]. by apply IHin.
Qed.

Lemma start_each_time_registry (syss : list system) (m : t) (s : shared) :
  registry_ok (cls s) ->
  registry_ok (cls (snd (start_each_time syss m s)))
  /\ (self m ∈ registered m (cls s) ->
      self m ∈ registered m (cls (snd (start_each_time syss m s))))
  /\ (is_not_False (_subprocess m) = true -> syss <> [] ->
      self m ∈ registered m (cls (snd (start_each_time syss m s)))).
Proof.
  revert m s. induction syss as [|sys rest IH]; intros m s Hok; simpl.
  - repeat split; auto. intros _ Hne. by destruct Hne.
  - pose proof (start_registry_ok sys m s Hok) as Hok'.
    pose proof (start_registers sys m s) as Hnew.
    pose proof (start_keeps_registered sys m s) as Hkeep.
    destruct (start_keeps_identity sys m s) as (Hself & Hkey & Hsub).
    destruct (start sys m s) as [m' s'] eqn:E. simpl in *.
    destruct (IH m' s' Hok') as (Hok'' & Hkeep' & _).
    assert (Hregd : forall c, registered m' c = registered m c).
    { intros c. unfold registered. by rewrite Hkey. }
    rewrite Hself, !Hregd in Hkeep'.
    repeat split; auto.
Qed.

(** C10.  Starting from a registry without repetitions (the empty one in
    particular), whatever number of [start()] calls is made on a monitor,
    in whatever process, the registry stays without repetitions: the
    instance is at most once in the list of its task, and exactly once
    after the first call in pending-subprocess mode. *)
Theorem start_never_registers_twice (syss : list system) (m : t) (s : shared) :
  registry_ok (cls s) ->
  let s' := snd (start_each_time syss m s) in
  registry_ok (cls s')
  /\ NoDup (registered m (cls s'))
  /\ (length (filter (fun i => i = self m) (registered m (cls s'))) <= 1)%nat
  /\ (is_not_False (_subprocess m) = true -> syss <> [] ->
      length (filter (fun i => i = self m) (registered m (cls s'))) = 1%nat).
Proof.
  intros Hok s'.
  destruct (start_each_time_registry syss m s Hok) as (Hok' & _ & Hin).
  pose proof (registered_NoDup m (cls s') Hok') as Hnd.
  destruct (NoDup_occurs_once (self m) _ Hnd) as [Hle Hone].
  repeat split; auto.
Qed.

End MonitorFacts.

Section MonitorExamples.

Import BackgroundMonitor.

(** The parent after [start_all] has forked the subprocess. *)
Definition elected : shared :=
  snd (fst (start_all electing_system main_task false ∅ shared_initial)).

(** A monitor of the main task created and started in the parent after
    the election: it is in subprocess mode and holds [ForkEvent]s. *)
Definition late_monitor : t :=
  fst (start electing_system (__init__ electing_system 1 main_task false) elected).

Definition elected_and_registered : shared :=
  snd (start electing_system (__init__ electing_system 1 main_task false) elected).

(** The parent, once the subprocess has become a zombie. *)
Definition widowed_system : system :=
  mk_system 100
    (fun p => Returns (Psutil.mk_Process
                         (Psutil.mk_proc (default 100 p) (bool_decide (p ≠ Some 200))
                                         (Returns Psutil.STATUS_ZOMBIE))
                         (Returns [])))
    (Returns 0)
    (fun _ => true).

(** A monitor in thread mode, started in a process without subprocess. *)
Definition model_monitor : t :=
  fst (start electing_system (__init__ electing_system 2 main_task true) shared_initial).

Definition model_monitor_started : shared :=
  snd (start electing_system (__init__ electing_system 2 main_task true) shared_initial).

Lemma registry_ok_initial : registry_ok (cls shared_initial).
Proof. intros k l H. simpl in H. rewrite lookup_empty in H. discriminate. Qed.




Lemma start_three_times_registers_once :
  registry_ok (cls shared_initial)
  /\ length (filter (fun i => i = 1%nat)
               (registered (__init__ electing_system 1 main_task false)
                  (cls (snd (start_each_time
                               [electing_system; electing_system; orphaned_system]
                               (__init__ electing_system 1 main_task false)
                               shared_initial))))) = 1%nat.
Proof.
  split; [exact registry_ok_initial|].
  apply (start_never_registers_twice
           [electing_system; electing_system; orphaned_system]
           (__init__ electing_system 1 main_task false) shared_initial
           registry_ok_initial).
  - reflexivity.
  - discriminate.
Defined.

Example start_three_times_registry :
  _instances (cls (snd (start_each_time
                          [electing_system; electing_system; orphaned_system]
                          (__init__ electing_system 1 main_task false)
                          shared_initial))) !! 77 = Some [1%nat].
Proof. reflexivity. Qed.

End MonitorExamples.

(** ** Objects come out in the order they went in *)

Section ForkQueueOwned.

Import ForkSafe.
Context {A : Type}.

(** The items a fork-safe queue holds. *)
Definition items (q : ForkQueue A) : list A := default [] (_sync q).

(** A queue that is not built yet, or was built by process [p]. *)
Definition owned (p : Z) (q : ForkQueue A) : Prop :=
  _functor q tt = [] /\ (_sync q = None \/ _instance_pid q = Some p).

Lemma owned_init (p : Z) : owned p ForkQueue_init /\ items (@ForkQueue_init A) = [].
Proof. repeat split. by left. Qed.

Lemma create_owned (p : Z) (q : ForkQueue A) :
  owned p q ->
  _sync (_create p q) = Some (items q)
  /\ _instance_pid (_create p q) = Some p
  /\ _functor (_create p q) = _functor q.
Proof.
  intros [Hf Ho]. unfold _create, stale, items.
  destruct (_sync q) as [l|] eqn:Hs.
  - destruct Ho as [?|Hp]; [discriminate|].
    rewrite Hp. simpl. rewrite Z.eqb_refl. simpl. auto.
  - rewrite orb_true_r. simpl. rewrite Hf. auto.
Qed.

Lemma put_owned (p : Z) (x : A) (q : ForkQueue A) :
  owned p q ->
  owned p (ForkQueue_put p x q) /\ items (ForkQueue_put p x q) = items q ++ [x].
Proof.
  intros Ho. destruct (create_owned p q Ho) as (Hs & Hp & Hf).
  unfold ForkQueue_put, with_sync, the_sync, owned, items. simpl.
  rewrite Hs, Hp, Hf. destruct Ho as [Hnil _]. auto.
Qed.

Lemma get_owned (p : Z) (block : bool) (q : ForkQueue A) :
  owned p q ->
  owned p (fst (ForkQueue_get p block q))
  /\ match items q with
     | x :: rest =>
         snd (ForkQueue_get p block q) = Got x
         /\ items (fst (ForkQueue_get p block q)) = rest
     | [] =>
         snd (ForkQueue_get p block q) = (if block then Blocked else Failed QueueEmpty)
         /\ items (fst (ForkQueue_get p block q)) = []
     end.
Proof.
  intros Ho. destruct (create_owned p q Ho) as (Hs & Hp & Hf).
  destruct Ho as [Hnil _].
  unfold ForkQueue_get, the_sync. rewrite Hs.
  destruct (items q) as [|x rest]; simpl.
  - unfold owned, items. rewrite Hs, Hp, Hf. auto.
  - unfold owned, items. simpl. rewrite Hp, Hf. auto.
Qed.

End ForkQueueOwned.

Section FifoFacts.

Import Pipe ForkSafe SafeQueue.
Context {obj : Type}.
Variable pickle_dumps : obj -> outcome bytes.
Variable pickle_loads : bytes -> outcome obj.

(** Unpickling gives back what was pickled. *)
Hypothesis loads_dumps :
  forall x b, pickle_dumps x = Returns b -> pickle_loads b = Returns x.

Definition payload (r : option call) : list bytes :=
  match r with
  | Some (q_put_call b _) => [b]
  | None => []
  end.

(** The pickles handed to the pool and not yet written. *)
Definition pending (w : process) : list bytes :=
  match __thread_pool (pool w) with
  | Some tc => flat_map payload (items (_queue tc))
  | None => []
  end.

(** The pickles the reader thread has moved to the inner queue. *)
Definition relayed (w : process) : list bytes :=
  match _internal_q (queue w) with
  | Some iq => items iq
  | None => []
  end.

(** Everything on its way from [put] to [get], oldest first. *)
Definition in_flight (w : process) : list bytes :=
  relayed w ++ messages (_q (queue w)) ++ pending w.

(** The pool and the inner queue were built by the running process, the
    worker is at work on real requests, and nothing is left with the pool
    when puts are made synchronously. *)
Definition sound (w : process) : Prop :=
  match __thread_pool (pool w) with
  | Some tc =>
      __thread_pool_pid (pool w) = Some (pid w)
      /\ owned (pid w) (_queue tc)
      /\ _thread tc = Some true
      /\ Forall (fun r => r <> None) (items (_queue tc))
  | None => __thread_pool_pid (pool w) = None
  end
  /\ match _internal_q (queue w) with
     | Some iq => owned (pid w) iq
     | None => True
     end
  /\ (BackgroundMonitor.get_at_exit_state (monitor w) = true -> pending w = []).

Lemma sound_initial (platform : string) (p : Z) (at_exit : bool) :
  sound (process_initial platform p at_exit)
  /\ in_flight (process_initial platform p at_exit) = [].
Proof.
  split.
  - split; [reflexivity|]. split; [exact I|]. reflexivity.
  - unfold in_flight, relayed, pending, install_send_bytes. simpl.
    unfold install_send_bytes. by destruct (negb _).
Qed.

Lemma flat_map_payload_snoc (l : list (option call)) (b : bytes) (r : bool) :
  flat_map payload (l ++ [Some (q_put_call b r)]) = flat_map payload l ++ [b].
Proof. rewrite flat_map_app. simpl. reflexivity. Qed.

(** *** One step at a time *)

Lemma put_step (env : put_env) (x : obj) (b : bytes) (w : process) :
  granted (spawn env) = true ->
  granted (os_write env) = true ->
  pickle_dumps x = Returns b ->
  sound w ->
  sound (fst (put pickle_dumps env x w))
  /\ in_flight (fst (put pickle_dumps env x w)) = in_flight w ++ [b]
  /\ relayed (fst (put pickle_dumps env x w)) = relayed w
  /\ _reader_thread (queue (fst (put pickle_dumps env x w))) = _reader_thread (queue w)
  /\ pid (fst (put pickle_dumps env x w)) = pid w
  /\ monitor (fst (put pickle_dumps env x w)) = monitor w.
Proof.
  intros Hspawn Hwrite Hx (Hpool & Hiq & Hexit).
  rewrite put_unfold, put_try_unfold, Hx.
  change (monitor (appended w)) with (monitor w).
  destruct (BackgroundMonitor.get_at_exit_state (monitor w)) eqn:Hstate.
  - destruct (os_write env) as [[]|]; [|discriminate]. simpl.
    unfold sound, in_flight, relayed, pending in *. simpl.
    rewrite Hstate. specialize (Hexit eq_refl).
    split_and!; auto. rewrite Hexit, !app_nil_r, app_assoc. reflexivity.
  - unfold dispatch, bind, ret, SingletonThreadPool_get, apply_async, ThreadCalls_init.
    destruct (spawn env) as [[]|]; [|discriminate].
    unfold sound, in_flight, relayed, pending in *. simpl.
    destruct (__thread_pool (pool w)) as [tc|] eqn:Htc.
    + destruct Hpool as (Hpid & Hown & Halive & Hreal).
      rewrite Hpid. simpl. rewrite Z.eqb_refl. simpl. rewrite Htc. simpl.
      destruct (put_owned (pid w) (Some (q_put_call b false)) (_queue tc) Hown)
        as [Hown' Hitems].
      rewrite Hstate, Hitems, flat_map_payload_snoc.
      split_and!; auto.
      * apply Forall_app. split; [exact Hreal|]. by repeat constructor.
      * discriminate.
      * by rewrite !app_assoc.
    + rewrite Hpool. simpl.
      destruct (put_owned (pid w) (Some (q_put_call b false)) ForkQueue_init
                  (proj1 (owned_init (pid w)))) as [Hown' Hitems].
      rewrite Hstate, Hitems. simpl.
      split_and!; auto.
      * discriminate.
      * by rewrite app_nil_r, !app_assoc.
Qed.

Lemma worker_step (w : process) :
  sound w ->
  sound (_worker (Returns tt) w)
  /\ in_flight (_worker (Returns tt) w) = in_flight w
  /\ length (pending (_worker (Returns tt) w)) = Nat.pred (length (pending w))
  /\ queue (_worker (Returns tt) w)
     = set_q_size (_q_size (queue (_worker (Returns tt) w)))
         (set_q (_q (queue (_worker (Returns tt) w))) (queue w))
  /\ pid (_worker (Returns tt) w) = pid w
  /\ monitor (_worker (Returns tt) w) = monitor w.
Proof.
  intros (Hpool & Hiq & Hexit). unfold _worker.
  destruct (__thread_pool (pool w)) as [tc|] eqn:Htc.
  2:{ unfold sound, in_flight, pending. rewrite Htc. split_and!; auto. by destruct (queue w). }
  destruct Hpool as (Hpid & Hown & Halive & Hreal). rewrite Halive.
  destruct (get_owned (pid w) true (_queue tc) Hown) as [Hown' Hget].
  destruct (ForkQueue_get (pid w) true (_queue tc)) as [rq r]. simpl in Hown', Hget.
  destruct (items (_queue tc)) as [|r0 rest] eqn:Hitems.
  - destruct Hget as [-> Hrq].
    unfold sound, in_flight, relayed, pending in *. simpl. rewrite Htc in *.
    rewrite Hitems in *. rewrite Hrq.
    split_and!; auto. by destruct (queue w).
  - destruct Hget as [-> Hrq].
    apply Forall_cons in Hreal as [Hr0 Hreal].
    destruct r0 as [[b allow_raise]|]; [|by destruct Hr0].
    unfold sound, in_flight, relayed, pending in *. simpl. rewrite Htc in *.
    rewrite Hitems in *. rewrite Hrq. simpl in *.
    split_and!; auto.
    + intros Hstate. specialize (Hexit Hstate). discriminate.
    + by rewrite <- !app_assoc.
Qed.

(** The reader thread runs and has an inner queue to fill. *)
Definition reading (w : process) : Prop :=
  _reader_thread (queue w) = Some true /\ is_Some (_internal_q (queue w)).

Lemma reader_step (w : process) :
  sound w ->
  sound (_reader_daemon (Returns tt) w)
  /\ in_flight (_reader_daemon (Returns tt) w) = in_flight w
  /\ pending (_reader_daemon (Returns tt) w) = pending w
  /\ (reading w ->
      reading (_reader_daemon (Returns tt) w)
      /\ length (messages (_q (queue (_reader_daemon (Returns tt) w))))
         = Nat.pred (length (messages (_q (queue w)))))
  /\ pid (_reader_daemon (Returns tt) w) = pid w
  /\ monitor (_reader_daemon (Returns tt) w) = monitor w.
Proof.
  intros (Hpool & Hiq & Hexit). unfold _reader_daemon.
  destruct (_reader_thread (queue w)) as [[|]|] eqn:Hth;
    try (split; [by split_and!|]; split; [reflexivity|]; split; [reflexivity|];
         split; [|by split]; intros [Hr _]; congruence).
  destruct (messages (_q (queue w))) as [|b rest] eqn:Hmsg.
  { split_and!; auto; [by split_and!|]. rewrite Hmsg. auto. }
  destruct (_internal_q (queue w)) as [iq|] eqn:Hq.
  - destruct (put_owned (pid w) b iq Hiq) as [Hown' Hitems].
    unfold sound, in_flight, relayed, pending, reading in *. simpl.
    rewrite Hq, Hitems, Hmsg. simpl.
    split_and!; auto.
    by rewrite <- !app_assoc.
  - unfold sound, in_flight, relayed, pending, reading in *. simpl.
    rewrite Hq, Hmsg. split_and!; auto. intros [_ [? ?]]. discriminate.
Qed.

Lemma get_step (block : bool) (w : process) :
  sound w ->
  let r := get pickle_loads (Returns tt) [] block w in
  sound (fst r)
  /\ reading (fst r)
  /\ pending (fst r) = pending w
  /\ messages (_q (queue (fst r))) = messages (_q (queue w))
  /\ pid (fst r) = pid w
  /\ monitor (fst r) = monitor w
  /\ match relayed w with
     | b :: rest =>
         relayed (fst r) = rest
         /\ snd r = match pickle_loads b with
                    | Returns x => Got x
                    | Raises e => Failed e
                    end
     | [] =>
         relayed (fst r) = []
         /\ snd r = (if block then Blocked else Failed QueueEmpty)
     end.
Proof.
  intros (Hpool & Hiq & Hexit).
  unfold get, _get_internal_queue, _init_reader_thread, inner_get, reader_turns.
  cbn [fold_left].
  set (q1 := match _internal_q (queue w) with
             | None => set_internal_q (Some ForkQueue_init) (queue w)
             | Some _ => queue w
             end).
  assert (Hq1 : exists iq, _internal_q q1 = Some iq /\ owned (pid w) iq
                           /\ items iq = relayed w
                           /\ _q q1 = _q (queue w)).
  { unfold q1, relayed. destruct (_internal_q (queue w)) as [iq|] eqn:E.
    - exists iq. rewrite E. auto.
    - exists ForkQueue_init. simpl. split_and!; auto. apply owned_init. }
  destruct Hq1 as (iq & Hiq1 & Hown & Hitems & Hsame).
  destruct (get_owned (pid w) block iq Hown) as [Hown' Hget].
  assert (Hmain : forall w1,
    pid w1 = pid w -> monitor w1 = monitor w -> pool w1 = pool w ->
    _internal_q (queue w1) = Some iq -> _q (queue w1) = _q (queue w) ->
    _reader_thread (queue w1) = Some true ->
    let r := (let (iq', r) := ForkQueue_get (pid w1) block iq in
              let w2 := set_queue (set_internal_q (Some iq') (queue w1)) w1 in
              match r with
              | Got b => match pickle_loads b with
                         | Returns x => (w2, Got x)
                         | Raises e => (w2, Failed e)
                         end
              | Blocked => (w2, Blocked)
              | Failed e => (w2, Failed e)
              end) in
    sound (fst r) /\ reading (fst r) /\ pending (fst r) = pending w
    /\ messages (_q (queue (fst r))) = messages (_q (queue w))
    /\ pid (fst r) = pid w /\ monitor (fst r) = monitor w
    /\ match relayed w with
       | b :: rest =>
           relayed (fst r) = rest
           /\ snd r = match pickle_loads b with
                      | Returns x => Got x
                      | Raises e => Failed e
                      end
       | [] => relayed (fst r) = []
               /\ snd r = (if block then Blocked else Failed QueueEmpty)
       end).
  { intros w1 Hp Hm Hpl Hi Hq Hr. rewrite Hp.
    destruct (ForkQueue_get (pid w) block iq) as [iq' r]. simpl in Hown', Hget.
    rewrite Hitems in Hget.
    assert (Hpend : forall w2, pool w2 = pool w -> pending w2 = pending w).
    { intros w2 E. unfold pending. by rewrite E. }
    assert (Hsound : forall w2, pool w2 = pool w -> pid w2 = pid w ->
                                monitor w2 = monitor w ->
                                _internal_q (queue w2) = Some iq' -> sound w2).
    { intros w2 E1 E2 E3 E4. unfold sound. rewrite E1, E2, E3, E4.
      split_and!; auto. rewrite (Hpend w2 E1). exact Hexit. }
    destruct (relayed w) as [|b rest].
    - destruct Hget as [-> Hrest].
      assert (Hres : forall e : exn,
        let w2 := set_queue (set_internal_q (Some iq') (queue w1)) w1 in
        sound w2 /\ reading w2 /\ pending w2 = pending w
        /\ messages (_q (queue w2)) = messages (_q (queue w))
        /\ pid w2 = pid w /\ monitor w2 = monitor w /\ relayed w2 = []).
      { intros _ w2. unfold w2, reading, relayed. simpl. rewrite Hq, Hr, Hrest.
        split_and!; eauto. }
      destruct block; simpl; specialize (Hres QueueEmpty); simpl in Hres;
        destruct Hres as (? & ? & ? & ? & ? & ? & ?); split_and!; auto.
    - destruct Hget as [-> Hrest].
      assert (Hres :
        let w2 := set_queue (set_internal_q (Some iq') (queue w1)) w1 in
        sound w2 /\ reading w2 /\ pending w2 = pending w
        /\ messages (_q (queue w2)) = messages (_q (queue w))
        /\ pid w2 = pid w /\ monitor w2 = monitor w /\ relayed w2 = rest).
      { intros w2. unfold w2, reading, relayed. simpl. rewrite Hq, Hr, Hrest.
        split_and!; eauto. }
      simpl in Hres. destruct Hres as (? & ? & ? & ? & ? & ? & ?).
      destruct (pickle_loads b); simpl; split_and!; auto. }
  destruct (_reader_thread q1) as [[|]|] eqn:Hth; simpl; rewrite Hiq1.
  - apply (Hmain (set_queue q1 w)); simpl; auto.
  - apply (Hmain (set_queue (set_reader (Some true) true q1) w)); simpl; auto.
  - apply (Hmain (set_queue (set_reader (Some true) true q1) w)); simpl; auto.
Qed.

(** *** Steps in a system that may refuse *)

(** The part of [sound] that failures cannot break. *)
Definition wired (w : process) : Prop :=
  match __thread_pool (pool w) with
  | Some tc => __thread_pool_pid (pool w) = Some (pid w) /\ owned (pid w) (_queue tc)
  | None => __thread_pool_pid (pool w) = None
  end
  /\ match _internal_q (queue w) with
     | Some iq => owned (pid w) iq
     | None => True
     end
  /\ (BackgroundMonitor.get_at_exit_state (monitor w) = true -> pending w = []).

Lemma wired_initial (platform : string) (p : Z) (at_exit : bool) :
  wired (process_initial platform p at_exit).
Proof. split; [reflexivity|]. split; [exact I|]. reflexivity. Qed.

(** [after] is [before] with at most one item gone. *)
Definition drops_one (before after : list bytes) : Prop :=
  after = before
  \/ exists pre b post, before = pre ++ b :: post /\ after = pre ++ post.

Lemma put_any (env : put_env) (x : obj) (w : process) :
  wired w ->
  wired (fst (put pickle_dumps env x w))
  /\ (in_flight (fst (put pickle_dumps env x w)) = in_flight w
      \/ exists b, pickle_dumps x = Returns b
                   /\ in_flight (fst (put pickle_dumps env x w)) = in_flight w ++ [b]).
Proof.
  intros (Hpool & Hiq & Hexit).
  rewrite put_unfold, put_try_unfold.
  destruct (pickle_dumps x) as [b|e] eqn:Hx.
  2:{ simpl. split; [by split_and!|]. by left. }
  change (monitor (appended w)) with (monitor w).
  destruct (BackgroundMonitor.get_at_exit_state (monitor w)) eqn:Hstate.
  - specialize (Hexit eq_refl).
    unfold _q_put, SimpleQueue_put.
    destruct (os_write env) as [[]|e]; simpl.
    + unfold wired, in_flight, relayed, pending in *. simpl. rewrite Hstate.
      split; [by split_and!|]. right. exists b. split; [reflexivity|].
      by rewrite Hexit, !app_nil_r, app_assoc.
    + unfold wired, in_flight, relayed, pending in *. simpl. rewrite Hstate.
      split; [by split_and!|]. by left.
  - unfold dispatch, bind, ret, SingletonThreadPool_get, apply_async, ThreadCalls_init.
    unfold wired, in_flight, relayed, pending in *. simpl.
    destruct (__thread_pool (pool w)) as [tc|] eqn:Htc.
    + destruct Hpool as (Hpid & Hown).
      rewrite Hpid. simpl. rewrite Z.eqb_refl. simpl. rewrite Htc. simpl.
      destruct (put_owned (pid w) (Some (q_put_call b false)) (_queue tc) Hown)
        as [Hown' Hitems].
      rewrite Hstate, Hitems, flat_map_payload_snoc.
      split; [split_and!; auto; discriminate|].
      right. exists b. split; [reflexivity|]. by rewrite !app_assoc.
    + rewrite Hpool. simpl.
      destruct (spawn env) as [[]|e]; simpl.
      * destruct (put_owned (pid w) (Some (q_put_call b false)) ForkQueue_init
                    (proj1 (owned_init (pid w)))) as [Hown' Hitems].
        rewrite ?Hstate, ?Hitems. simpl.
        split; [split_and!; auto; discriminate|].
        right. exists b. split; [reflexivity|]. by rewrite app_nil_r, !app_assoc.
      * rewrite Htc, Hstate. split; [split_and!; auto|]. by left.
Qed.

Lemma worker_any (o : outcome unit) (w : process) :
  wired w ->
  wired (_worker o w) /\ drops_one (in_flight w) (in_flight (_worker o w)).
Proof.
  intros (Hpool & Hiq & Hexit). unfold _worker.
  destruct (__thread_pool (pool w)) as [tc|] eqn:Htc.
  2:{ split; [|by left]. unfold wired. rewrite Htc. by split_and!. }
  destruct Hpool as (Hpid & Hown).
  destruct (_thread tc) as [[|]|] eqn:Halive;
    try (split; [|by left]; unfold wired; rewrite Htc; by split_and!).
  destruct (get_owned (pid w) true (_queue tc) Hown) as [Hown' Hget].
  destruct (ForkQueue_get (pid w) true (_queue tc)) as [rq r]. simpl in Hown', Hget.
  unfold drops_one.
  destruct (items (_queue tc)) as [|r0 rest] eqn:Hitems.
  - destruct Hget as [-> Hrq].
    unfold wired, in_flight, relayed, pending in *. simpl. rewrite Htc in *.
    rewrite Hitems in *. rewrite Hrq.
    split; [by split_and!|]. by left.
  - destruct Hget as [-> Hrq].
    destruct r0 as [[b allow_raise]|].
    + unfold _q_put, SimpleQueue_put.
      unfold wired, in_flight, relayed, pending in *. rewrite Htc in *.
      rewrite Hitems in *. simpl in Hexit.
      assert (Hrest : BackgroundMonitor.get_at_exit_state (monitor w) = true ->
                      flat_map payload rest = []).
      { intros Hstate. specialize (Hexit Hstate). discriminate. }
      destruct o as [[]|e]; simpl.
      * rewrite Hrq. split; [by split_and!|]. left. by rewrite <- !app_assoc.
      * destruct allow_raise; simpl; [destruct (is_Exception e); simpl|];
          rewrite Hrq; (split; [by split_and!|]); right;
          exists (match _internal_q (queue w) with
                  | Some iq => items iq
                  | None => []
                  end ++ messages (_q (queue w))), b, (flat_map payload rest);
          by rewrite <- !app_assoc.
    + unfold wired, in_flight, relayed, pending in *. simpl. rewrite Htc in *.
      rewrite Hitems in *. rewrite Hrq. simpl in *.
      split; [by split_and!|]. by left.
Qed.

Lemma reader_any (o : outcome unit) (w : process) :
  wired w ->
  wired (_reader_daemon o w) /\ in_flight (_reader_daemon o w) = in_flight w.
Proof.
  intros (Hpool & Hiq & Hexit). unfold _reader_daemon.
  destruct (_reader_thread (queue w)) as [[|]|] eqn:Hth;
    try (split; [by split_and!|reflexivity]).
  destruct o as [[]|e]; [|split; [by split_and!|reflexivity]].
  destruct (messages (_q (queue w))) as [|b rest] eqn:Hmsg;
    [split; [by split_and!|reflexivity]|].
  destruct (_internal_q (queue w)) as [iq|] eqn:Hq.
  - destruct (put_owned (pid w) b iq Hiq) as [Hown' Hitems].
    unfold wired, in_flight, relayed, pending in *. simpl.
    rewrite Hq, Hitems, Hmsg. simpl.
    split; [by split_and!|]. by rewrite <- !app_assoc.
  - unfold wired, in_flight, relayed, pending in *. simpl.
    rewrite Hq, Hmsg. split; [by split_and!|]. reflexivity.
Qed.

Lemma reader_turns_any (relays : list (outcome unit)) (w : process) :
  wired w ->
  wired (reader_turns relays w)
  /\ in_flight (reader_turns relays w) = in_flight w
  /\ (is_Some (_internal_q (queue w)) ->
      is_Some (_internal_q (queue (reader_turns relays w)))).
Proof.
  revert w. induction relays as [|o relays IH]; intros w Hw; [by split_and!|].
  unfold reader_turns. cbn [fold_left]. fold (reader_turns relays (_reader_daemon o w)).
  destruct (reader_any o w Hw) as [Hw1 Hf1].
  destruct (IH _ Hw1) as (Hw2 & Hf2 & Hq2).
  split_and!; [exact Hw2|by rewrite Hf2|].
  intros Hq. apply Hq2. clear -Hq. unfold _reader_daemon.
  destruct (_reader_thread (queue w)) as [[|]|]; try exact Hq.
  destruct o as [[]|e]; [|exact Hq].
  destruct (messages (_q (queue w))); [exact Hq|].
  destruct (_internal_q (queue w)) as [iq|]; [by eexists|by destruct Hq].
Qed.

Lemma inner_get_any (block : bool) (w : process) :
  wired w ->
  is_Some (_internal_q (queue w)) ->
  let r := inner_get pickle_loads block w in
  wired (fst r)
  /\ ((in_flight (fst r) = in_flight w /\ returned [snd r] = [])
      \/ exists b rest,
          in_flight w = b :: rest
          /\ in_flight (fst r) = rest
          /\ snd r = match pickle_loads b with
                     | Returns x => Got x
                     | Raises e => Failed e
                     end).
Proof.
  intros (Hpool & Hiq & Hexit) [iq Hq]. unfold inner_get. rewrite Hq. rewrite Hq in Hiq.
  destruct (get_owned (pid w) block iq Hiq) as [Hown' Hget].
  destruct (ForkQueue_get (pid w) block iq) as [iq' r]. simpl in Hown', Hget.
  assert (Hitems : items iq = relayed w) by (unfold relayed; by rewrite Hq).
  rewrite Hitems in Hget.
  set (w2 := set_queue (set_internal_q (Some iq') (queue w)) w).
  assert (Hw2 : wired w2).
  { unfold wired, pending, w2 in *. simpl. by split_and!. }
  assert (Hf2 : in_flight w2 = items iq' ++ messages (_q (queue w)) ++ pending w).
  { unfold in_flight, relayed, pending, w2. reflexivity. }
  unfold in_flight at 2 3.
  destruct (relayed w) as [|b rest].
  - destruct Hget as [-> Hrest]. rewrite Hrest in Hf2.
    destruct block; simpl; (split; [exact Hw2|]); left; auto.
  - destruct Hget as [-> Hrest]. rewrite Hrest in Hf2.
    destruct (pickle_loads b) eqn:Hl; simpl; (split; [exact Hw2|]); right;
      exists b, (rest ++ messages (_q (queue w)) ++ pending w);
      rewrite Hl; auto.
Qed.

Lemma get_any (sp : outcome unit) (relays : list (outcome unit)) (block : bool)
      (w : process) :
  wired w ->
  let r := get pickle_loads sp relays block w in
  wired (fst r)
  /\ ((in_flight (fst r) = in_flight w /\ returned [snd r] = [])
      \/ exists b rest,
          in_flight w = b :: rest
          /\ in_flight (fst r) = rest
          /\ snd r = match pickle_loads b with
                     | Returns x => Got x
                     | Raises e => Failed e
                     end).
Proof.
  intros Hw. pose proof Hw as (Hpool & Hiq & Hexit).
  unfold get, _get_internal_queue, _init_reader_thread.
  set (q1 := match _internal_q (queue w) with
             | None => set_internal_q (Some ForkQueue_init) (queue w)
             | Some _ => queue w
             end).
  assert (Hq1 : exists iq, _internal_q q1 = Some iq /\ owned (pid w) iq
                           /\ items iq = relayed w
                           /\ _q q1 = _q (queue w)).
  { unfold q1, relayed. destruct (_internal_q (queue w)) as [iq|] eqn:E.
    - exists iq. rewrite E. auto.
    - exists ForkQueue_init. simpl. split_and!; auto. apply owned_init. }
  destruct Hq1 as (iq & Hiq1 & Hown & Hitems & Hsame).
  assert (Hwired : forall w2, pool w2 = pool w -> pid w2 = pid w ->
                     monitor w2 = monitor w ->
                     _internal_q (queue w2) = Some iq -> wired w2).
  { intros w2 E1 E2 E3 E4. unfold wired, pending. rewrite E1, E2, E3, E4.
    split_and!; auto. }
  assert (Hflight : forall w2, pool w2 = pool w ->
                      _internal_q (queue w2) = Some iq -> _q (queue w2) = _q (queue w) ->
                      in_flight w2 = in_flight w).
  { intros w2 E1 E2 E3. unfold in_flight, relayed, pending. by rewrite E1, E2, E3, Hitems. }
  assert (Hmain : forall w1,
    wired w1 -> in_flight w1 = in_flight w -> is_Some (_internal_q (queue w1)) ->
    let r := inner_get pickle_loads block w1 in
    wired (fst r)
    /\ ((in_flight (fst r) = in_flight w /\ returned [snd r] = [])
        \/ exists b rest,
            in_flight w = b :: rest
            /\ in_flight (fst r) = rest
            /\ snd r = match pickle_loads b with
                       | Returns x => Got x
                       | Raises e => Failed e
                       end)).
  { intros w1 Hw1 Hf1 Hq. rewrite <- Hf1. by apply inner_get_any. }
  destruct (_reader_thread q1) as [[|]|] eqn:Hth; cbn [fst snd].
  - apply Hmain; [apply Hwired|apply Hflight|]; simpl; eauto.
  - destruct sp as [[]|e]; cbn [fst snd].
    + set (w1 := set_queue (set_reader (Some true) true q1) w).
      assert (Hw1 : wired w1) by (apply Hwired; reflexivity || exact Hiq1).
      destruct (reader_turns_any relays w1 Hw1) as (Hw2 & Hf2 & Hq2).
      apply Hmain; [exact Hw2| |apply Hq2; simpl; eauto].
      rewrite Hf2. apply Hflight; reflexivity || auto.
    + split; [apply Hwired; reflexivity || auto|]. left. split; [|reflexivity].
      apply Hflight; reflexivity || auto.
  - destruct sp as [[]|e]; cbn [fst snd].
    + set (w1 := set_queue (set_reader (Some true) true q1) w).
      assert (Hw1 : wired w1) by (apply Hwired; reflexivity || exact Hiq1).
      destruct (reader_turns_any relays w1 Hw1) as (Hw2 & Hf2 & Hq2).
      apply Hmain; [exact Hw2| |apply Hq2; simpl; eauto].
      rewrite Hf2. apply Hflight; reflexivity || auto.
    + split; [apply Hwired; reflexivity || auto|]. left. split; [|reflexivity].
      apply Hflight; reflexivity || auto.
Qed.

(** *** The read that starts the reader thread *)

Lemma granted_unit (o : outcome unit) : granted o = true -> o = Returns tt.
Proof. destruct o as [[]|]; [reflexivity|discriminate]. Qed.

(** What the read finds when the reader is running: the start is
    skipped. *)
Lemma get_reading (sp : outcome unit) (relays : list (outcome unit)) (block : bool)
      (w : process) :
  reading w -> get pickle_loads sp relays block w = inner_get pickle_loads block w.
Proof.
  intros [Hth [iq Hq]]. unfold get, _get_internal_queue, _init_reader_thread.
  rewrite Hq, Hth. by destruct w.
Qed.

(** The queue after a start that was granted, before the reader has
    taken a turn. *)
Definition started (w : process) : process :=
  set_queue
    (set_reader (Some true) true
       match _internal_q (queue w) with
       | None => set_internal_q (Some ForkQueue_init) (queue w)
       | Some _ => queue w
       end) w.

Lemma get_starting (relays : list (outcome unit)) (block : bool) (w : process) :
  _reader_thread (queue w) <> Some true ->
  get pickle_loads (Returns tt) relays block w
  = inner_get pickle_loads block (reader_turns relays (started w)).
Proof.
  intros Hth. unfold get, _get_internal_queue, _init_reader_thread, started.
  destruct (_internal_q (queue w)); simpl;
    by destruct (_reader_thread (queue w)) as [[|]|].
Qed.

Lemma started_sound (w : process) :
  sound w ->
  sound (started w) /\ reading (started w) /\ in_flight (started w) = in_flight w
  /\ pending (started w) = pending w.
Proof.
  intros (Hpool & Hiq & Hexit). unfold started, sound, reading, in_flight, relayed, pending.
  destruct (_internal_q (queue w)) as [iq|] eqn:Hq; simpl; rewrite ?Hq.
  - by split_and!.
  - split_and!; auto. apply owned_init.
Qed.

Lemma reader_turns_step (relays : list (outcome unit)) (w : process) :
  sound w -> reading w -> forallb granted relays = true ->
  sound (reader_turns relays w) /\ reading (reader_turns relays w)
  /\ in_flight (reader_turns relays w) = in_flight w
  /\ pending (reader_turns relays w) = pending w.
Proof.
  revert w. induction relays as [|o relays IH]; intros w Hs Hr Hok; [by split_and!|].
  simpl in Hok. apply andb_true_iff in Hok as [Ho Hok]. apply granted_unit in Ho as ->.
  unfold reader_turns. cbn [fold_left].
  fold (reader_turns relays (_reader_daemon (Returns tt) w)).
  destruct (reader_step w Hs) as (Hs1 & Hf1 & Hp1 & Hread & _).
  destruct (Hread Hr) as [Hr1 _].
  destruct (IH _ Hs1 Hr1 Hok) as (Hs2 & Hr2 & Hf2 & Hp2).
  split_and!; auto; congruence.
Qed.

(** A read in a system that refuses nothing: the oldest pickle of the
    inner queue is taken, or nothing is. *)
Lemma get_calm (relays : list (outcome unit)) (block : bool) (w : process) :
  sound w -> forallb granted relays = true ->
  let r := get pickle_loads (Returns tt) relays block w in
  sound (fst r) /\ reading (fst r) /\ pending (fst r) = pending w
  /\ ((in_flight (fst r) = in_flight w /\ returned [snd r] = [])
      \/ exists b rest,
          in_flight w = b :: rest
          /\ in_flight (fst r) = rest
          /\ snd r = match pickle_loads b with
                     | Returns x => Got x
                     | Raises e => Failed e
                     end).
Proof.
  intros Hs Hok.
  assert (Hmain : forall w2, sound w2 -> in_flight w2 = in_flight w ->
                             pending w2 = pending w ->
    let r := get pickle_loads (Returns tt) [] block w2 in
    sound (fst r) /\ reading (fst r) /\ pending (fst r) = pending w
    /\ ((in_flight (fst r) = in_flight w /\ returned [snd r] = [])
        \/ exists b rest,
            in_flight w = b :: rest
            /\ in_flight (fst r) = rest
            /\ snd r = match pickle_loads b with
                       | Returns x => Got x
                       | Raises e => Failed e
                       end)).
  { intros w2 Hs2 Hf2 Hp2. pose proof (get_step block w2 Hs2) as Hg. cbv zeta in Hg |- *.
    destruct (get pickle_loads (Returns tt) [] block w2) as [w3 r]. cbn [fst snd] in *.
    destruct Hg as (Hs3 & Hr3 & Hp3 & Hm3 & _ & _ & Hrel).
    split_and!; [exact Hs3|exact Hr3|congruence|].
    rewrite <- Hf2. unfold in_flight. rewrite Hp3, Hm3.
    destruct (relayed w2) as [|b rest].
    - destruct Hrel as [-> ->]. left. split; [reflexivity|]. by destruct block.
    - destruct Hrel as [-> ->]. right. by eexists _, _. }
  destruct (decide (_reader_thread (queue w) = Some true)) as [Hth|Hth].
  - assert (Hsame : get pickle_loads (Returns tt) relays block w
                    = get pickle_loads (Returns tt) [] block w).
    { unfold get, _get_internal_queue, _init_reader_thread.
      destruct (_internal_q (queue w)); simpl; by rewrite Hth. }
    rewrite Hsame. by apply Hmain.
  - rewrite (get_starting relays block w Hth).
    destruct (started_sound w Hs) as (Hs1 & Hr1 & Hf1 & Hp1).
    destruct (reader_turns_step relays (started w) Hs1 Hr1 Hok) as (Hs2 & Hr2 & Hf2 & Hp2).
    rewrite <- (get_reading (Returns tt) [] block _ Hr2).
    apply Hmain; congruence.
Qed.

(** *** Whole schedules *)

Definition pickles_to (x : obj) (b : bytes) : Prop := pickle_dumps x = Returns b.

Definition run (evs : list event) (w : process) : process * list (got obj) :=
  run_events pickle_dumps pickle_loads evs w.

Lemma run_cons (ev : event) (rest : list event) (w : process) :
  run (ev :: rest) w
  = (fst (run rest (fst (step pickle_dumps pickle_loads ev w))),
     snd (step pickle_dumps pickle_loads ev w)
     ++ snd (run rest (fst (step pickle_dumps pickle_loads ev w)))).
Proof.
  unfold run. simpl.
  destruct (step pickle_dumps pickle_loads ev w) as [w1 o1]. cbn [fst snd].
  destruct (run_events pickle_dumps pickle_loads rest w1) as [w2 o2]. reflexivity.
Qed.

Lemma run_app_state (evs1 evs2 : list event) (w : process) :
  fst (run (evs1 ++ evs2) w) = fst (run evs2 (fst (run evs1 w))).
Proof.
  revert w. induction evs1 as [|ev rest IH]; intros w; [reflexivity|].
  rewrite <- app_comm_cons, !run_cons. simpl. apply IH.
Qed.

(** What is in flight pickles the objects put and not yet returned, in
    the order of the puts. *)
Lemma run_keeps_order (evs : list event) (w : process) (waiting : list obj) :
  sound w ->
  Forall2 pickles_to waiting (in_flight w) ->
  Forall (fun ev => steady ev = true) evs ->
  Forall (fun ev => calm ev = true) evs ->
  Forall (fun x => picklable pickle_dumps x = true) (puts_of evs) ->
  sound (fst (run evs w))
  /\ exists waiting',
      Forall2 pickles_to waiting' (in_flight (fst (run evs w)))
      /\ waiting ++ puts_of evs = returned (snd (run evs w)) ++ waiting'.
Proof.
  revert w waiting.
  induction evs as [|ev rest IH]; intros w waiting Hsound Hfl Hsteady Hcalm Hpick.
  { simpl. split; [exact Hsound|]. exists waiting. by rewrite app_nil_r. }
  apply Forall_cons in Hcalm as [Hev Hcalm].
  apply Forall_cons in Hsteady as [Hst Hsteady]. rewrite run_cons.
  destruct ev as [x env|o|o|sp relays block|state]; [| | | |discriminate];
    simpl in Hev, Hpick |- *.
  - apply andb_true_iff in Hev as [Hsp Hwr].
    apply Forall_cons in Hpick as [Hx Hpick].
    unfold picklable in Hx. destruct (pickle_dumps x) as [b|] eqn:Hb; [|discriminate].
    destruct (put_step env x b w Hsp Hwr Hb Hsound) as (Hs1 & Hf1 & _).
    destruct (IH (fst (put pickle_dumps env x w)) (waiting ++ [x]) Hs1) as (Hs2 & w' & Hw' & Heq);
      auto.
    { rewrite Hf1. apply Forall2_app; [exact Hfl|]. by repeat constructor. }
    split; [exact Hs2|]. exists w'. split; [exact Hw'|].
    rewrite <- Heq, <- app_assoc. reflexivity.
  - apply granted_unit in Hev as ->.
    destruct (worker_step w Hsound) as (Hs1 & Hf1 & _).
    apply IH; auto. by rewrite Hf1.
  - apply granted_unit in Hev as ->.
    destruct (reader_step w Hsound) as (Hs1 & Hf1 & _).
    apply IH; auto. by rewrite Hf1.
  - apply andb_true_iff in Hev as [Hsp Hrelays]. apply granted_unit in Hsp as ->.
    pose proof (get_calm relays block w Hsound Hrelays) as Hg. cbv zeta in Hg.
    destruct (get pickle_loads (Returns ()) relays block w) as [w1 r].
    cbn [fst snd] in Hg |- *.
    destruct Hg as (Hs1 & _ & _ & [[Hsame Hr]|(b & flight & Hbefore & Hafter & Hr)]).
    + destruct (IH w1 waiting Hs1) as (Hs2 & w' & Hw' & Heq); auto.
      { by rewrite Hsame. }
      split; [exact Hs2|]. exists w'. split; [exact Hw'|].
      rewrite Heq. simpl in Hr |- *. by destruct r.
    + rewrite Hbefore in Hfl.
      apply Forall2_cons_inv_r in Hfl as (x & waiting0 & Hxb & Hfl & ->).
      rewrite (loads_dumps x b Hxb) in Hr. subst r.
      destruct (IH w1 waiting0 Hs1) as (Hs2 & w' & Hw' & Heq); auto.
      { by rewrite Hafter. }
      split; [exact Hs2|]. exists w'. split; [exact Hw'|].
      simpl. by rewrite <- Heq.
Qed.

(** Whatever the system refuses, objects are never returned out of
    order: what has been returned, followed by what is still on its way,
    is what was put with some objects left out. *)
Lemma run_never_reorders (evs : list event) (w : process) (waiting : list obj) :
  wired w ->
  Forall2 pickles_to waiting (in_flight w) ->
  Forall (fun ev => steady ev = true) evs ->
  exists waiting',
    Forall2 pickles_to waiting' (in_flight (fst (run evs w)))
    /\ (returned (snd (run evs w)) ++ waiting') `sublist_of` (waiting ++ puts_of evs).
Proof.
  revert w waiting.
  induction evs as [|ev rest IH]; intros w waiting Hwired Hfl Hsteady.
  { simpl. exists waiting. split; [exact Hfl|]. by rewrite app_nil_r. }
  apply Forall_cons in Hsteady as [Hst Hsteady]. rewrite run_cons.
  destruct ev as [x env|o|o|sp relays block|state]; [| | | |discriminate];
    cbn [step fst snd puts_of].
  - destruct (put_any env x w Hwired) as [Hw1 [Hsame|(b & Hb & Hmore)]].
    + destruct (IH (fst (put pickle_dumps env x w)) waiting Hw1) as (w' & Hw' & Hsub);
        [by rewrite Hsame|exact Hsteady|].
      exists w'. split; [exact Hw'|]. simpl. etrans; [exact Hsub|].
      apply sublist_app; [reflexivity|]. by apply sublist_cons.
    + destruct (IH (fst (put pickle_dumps env x w)) (waiting ++ [x]) Hw1)
        as (w' & Hw' & Hsub); [|exact Hsteady|].
      { rewrite Hmore. apply Forall2_app; [exact Hfl|]. by repeat constructor. }
      exists w'. split; [exact Hw'|]. simpl. by rewrite <- app_assoc in Hsub.
  - destruct (worker_any o w Hwired) as [Hw1 [Hsame|(pre & b & post & Hbefore & Hafter)]].
    + destruct (IH (_worker o w) waiting Hw1) as (w' & Hw' & Hsub);
        [by rewrite Hsame|exact Hsteady|].
      exists w'. auto.
    + rewrite Hbefore in Hfl.
      apply Forall2_app_inv_r in Hfl as (wpre & wrest & Hpre & Hrest & ->).
      apply Forall2_cons_inv_r in Hrest as (x & wpost & _ & Hpost & ->).
      destruct (IH (_worker o w) (wpre ++ wpost) Hw1) as (w' & Hw' & Hsub);
        [|exact Hsteady|].
      { rewrite Hafter. by apply Forall2_app. }
      exists w'. split; [exact Hw'|]. simpl. etrans; [exact Hsub|].
      apply sublist_app; [|reflexivity].
      apply sublist_app; [reflexivity|]. by apply sublist_cons.
  - destruct (reader_any o w Hwired) as [Hw1 Hsame].
    destruct (IH (_reader_daemon o w) waiting Hw1) as (w' & Hw' & Hsub);
      [by rewrite Hsame|exact Hsteady|].
    exists w'. auto.
  - pose proof (get_any sp relays block w Hwired) as Hg. cbv zeta in Hg.
    destruct (get pickle_loads sp relays block w) as [w1 r]. cbn [fst snd] in Hg |- *.
    destruct Hg as [Hw1 [[Hsame Hr]|(b & flight & Hbefore & Hafter & Hr)]].
    + destruct (IH w1 waiting Hw1) as (w' & Hw' & Hsub);
        [by rewrite Hsame|exact Hsteady|].
      exists w'. split; [exact Hw'|].
      replace (returned ([r] ++ snd (run rest w1))) with (returned (snd (run rest w1)));
        [exact Hsub|].
      simpl in Hr |- *. by destruct r.
    + rewrite Hbefore in Hfl.
      apply Forall2_cons_inv_r in Hfl as (x & waiting0 & Hxb & Hfl & ->).
      rewrite (loads_dumps x b Hxb) in Hr. subst r.
      destruct (IH w1 waiting0 Hw1) as (w' & Hw' & Hsub);
        [by rewrite Hafter|exact Hsteady|].
      exists w'. split; [exact Hw'|]. simpl. by apply sublist_skip.
Qed.

(** *** A schedule that lets everything through *)

Local Abbreviation ok := (Returns tt).

(** After the puts: the worker writes [n] times; the first [get] starts
    the reader and waits while it relays up to [n] messages; the reader
    relays what is left (when it was running before, it relays only
    now); and [n] more reads are made. *)
Definition settle (n : nat) : list (@event obj) :=
  repeat (Worker ok) n ++ [Get ok (repeat ok n) true] ++ repeat (Reader ok) n
  ++ repeat (Get ok [] true) n.

Definition put_all (xs : list obj) : list (@event obj) :=
  map (fun x => Put x (mk_put_env ok ok)) xs.

Lemma put_all_puts (xs : list obj) : puts_of (put_all xs) = xs.
Proof. induction xs as [|x xs IH]; simpl; congruence. Qed.

Lemma put_all_calm (xs : list obj) : Forall (fun ev => calm ev = true) (put_all xs).
Proof. induction xs; by constructor. Qed.

Lemma settle_calm (n : nat) : Forall (fun ev => calm ev = true) (settle n).
Proof.
  assert (Hrep : forall (ev : @event obj) k, calm ev = true ->
                         Forall (fun ev => calm ev = true) (repeat ev k)).
  { intros ev k Hev. induction k; by constructor. }
  unfold settle. apply Forall_app. split; [by apply Hrep|].
  apply Forall_app. split.
  { constructor; [|constructor]. simpl. induction n; simpl; auto. }
  apply Forall_app. split; by apply Hrep.
Qed.

Lemma puts_of_quiet (evs : list (@event obj)) :
  Forall (fun ev => match ev with Put _ _ => False | _ => True end) evs ->
  puts_of evs = [].
Proof.
  induction 1 as [|ev evs Hev _ IH]; [reflexivity|].
  destruct ev; simpl; auto. contradiction.
Qed.

Lemma settle_puts (n : nat) : puts_of (settle n) = [].
Proof.
  assert (Hrep : forall (ev : @event obj) k,
             match ev with Put _ _ => False | _ => True end ->
             Forall (fun ev => match ev with Put _ _ => False | _ => True end)
                    (repeat ev k)).
  { intros ev k Hev. induction k; by constructor. }
  apply puts_of_quiet. unfold settle. apply Forall_app. split; [by apply Hrep|].
  apply Forall_app. split; [by repeat constructor|].
  apply Forall_app. split; by apply Hrep.
Qed.

Lemma puts_of_app (evs1 evs2 : list (@event obj)) :
  puts_of (evs1 ++ evs2) = puts_of evs1 ++ puts_of evs2.
Proof.
  induction evs1 as [|ev evs1 IH]; [reflexivity|].
  destruct ev; simpl; by rewrite ?IH.
Qed.

Lemma workers_drain (k : nat) (w : process) :
  sound w ->
  sound (fst (run (repeat (Worker ok) k) w))
  /\ length (pending (fst (run (repeat (Worker ok) k) w))) = (length (pending w) - k)%nat
  /\ length (in_flight (fst (run (repeat (Worker ok) k) w))) = length (in_flight w).
Proof.
  revert w. induction k as [|k IH]; intros w Hs.
  { simpl. split_and!; auto. lia. }
  cbn [repeat]. rewrite run_cons. cbn [step fst].
  destruct (worker_step w Hs) as (Hs1 & Hf1 & Hp1 & _).
  destruct (IH _ Hs1) as (Hs2 & Hp2 & Hf2).
  split_and!; auto; [rewrite Hp2, Hp1; lia|by rewrite Hf2, Hf1].
Qed.

Lemma readers_drain (k : nat) (w : process) :
  sound w -> reading w ->
  let w' := fst (run (repeat (Reader ok) k) w) in
  sound w' /\ reading w'
  /\ pending w' = pending w
  /\ length (messages (_q (queue w'))) = (length (messages (_q (queue w))) - k)%nat
  /\ length (in_flight w') = length (in_flight w).
Proof.
  revert w. induction k as [|k IH]; intros w Hs Hr.
  { simpl. split_and!; auto. lia. }
  cbn [repeat]. rewrite run_cons. cbn [step fst].
  destruct (reader_step w Hs) as (Hs1 & Hf1 & Hp1 & Hread & _).
  destruct (Hread Hr) as [Hr1 Hm1].
  destruct (IH _ Hs1 Hr1) as (Hs2 & Hr2 & Hp2 & Hm2 & Hf2).
  split_and!; auto; [by rewrite Hp2|rewrite Hm2, Hm1; lia|by rewrite Hf2, Hf1].
Qed.

Lemma gets_drain (k : nat) (w : process) :
  sound w ->
  let w' := fst (run (repeat (Get ok [] true) k) w) in
  sound w'
  /\ pending w' = pending w
  /\ messages (_q (queue w')) = messages (_q (queue w))
  /\ length (relayed w') = (length (relayed w) - k)%nat.
Proof.
  revert w. induction k as [|k IH]; intros w Hs.
  { simpl. split_and!; auto. lia. }
  cbn [repeat]. rewrite run_cons. cbn [step].
  pose proof (get_step true w Hs) as Hg. cbv zeta in Hg.
  destruct (get pickle_loads ok [] true w) as [w1 r].
  cbn [fst snd] in Hg |- *.
  destruct Hg as (Hs1 & _ & Hp1 & Hm1 & _ & _ & Hrel).
  destruct (IH _ Hs1) as (Hs2 & Hp2 & Hm2 & Hr2).
  split_and!; auto; [by rewrite Hp2|by rewrite Hm2|].
  rewrite Hr2. destruct (relayed w) as [|b rest]; destruct Hrel as [-> _]; simpl; lia.
Qed.

Lemma settle_empties (n : nat) (w : process) :
  sound w ->
  (length (in_flight w) <= n)%nat ->
  in_flight (fst (run (settle n) w)) = [].
Proof.
  intros Hs Hn. unfold settle. rewrite !run_app_state.
  destruct (workers_drain n w Hs) as (Hs1 & Hp1 & Hf1).
  set (w1 := fst (run (repeat (Worker ok) n) w)) in *.
  rewrite (run_cons (Get ok (repeat ok n) true) [] w1). cbn [step run run_events fst].
  assert (Hok : forallb granted (repeat ok n) = true) by (clear; induction n; simpl; auto).
  pose proof (get_calm (repeat ok n) true w1 Hs1 Hok) as Hg. cbv zeta in Hg.
  destruct (get pickle_loads ok (repeat ok n) true w1) as [w2 r].
  cbn [fst snd] in Hg |- *.
  destruct Hg as (Hs2 & Hread2 & Hp2 & Hflight).
  assert (Hf2 : (length (in_flight w2) <= n)%nat).
  { destruct Hflight as [[-> _]|(b & rest & Hb & -> & _)]; [lia|].
    rewrite Hb in Hf1. simpl in Hf1. lia. }
  destruct (readers_drain n w2 Hs2 Hread2) as (Hs3 & _ & Hp3 & Hm3 & Hf3).
  set (w3 := fst (run (repeat (Reader ok) n) w2)) in *.
  destruct (gets_drain n w3 Hs3) as (Hs4 & Hp4 & Hm4 & Hr4).
  set (w4 := fst (run (repeat (Get ok [] true) n) w3)) in *.
  assert (Hlen2 : (length (messages (_q (queue w2))) <= n)%nat).
  { unfold in_flight in Hf2. repeat rewrite length_app in Hf2. lia. }
  assert (Hlen3 : (length (relayed w3) <= n)%nat).
  { unfold in_flight in Hf3, Hf2. rewrite !length_app in Hf3. rewrite !length_app in Hf2. lia. }
  unfold in_flight.
  assert (H4r : relayed w4 = []) by (apply length_zero_iff_nil; lia).
  assert (H4m : messages (_q (queue w4)) = []).
  { apply length_zero_iff_nil. rewrite Hm4, Hm3. lia. }
  assert (H4p : pending w4 = []).
  { apply length_zero_iff_nil. rewrite Hp4, Hp3, Hp2.
    unfold in_flight in Hn. repeat rewrite length_app in Hn. lia. }
  by rewrite H4r, H4m, H4p.
Qed.

Lemma put_all_steady (xs : list obj) : Forall (fun ev => steady ev = true) (put_all xs).
Proof. induction xs; by constructor. Qed.

Lemma settle_steady (n : nat) : Forall (fun ev => steady ev = true) (settle n).
Proof.
  assert (Hrep : forall (ev : @event obj) k, steady ev = true ->
                         Forall (fun ev => steady ev = true) (repeat ev k)).
  { intros ev k Hev. induction k; by constructor. }
  unfold settle. apply Forall_app. split; [by apply Hrep|].
  apply Forall_app. split; [by repeat constructor|].
  apply Forall_app. split; by apply Hrep.
Qed.

(** C1, as the code has it.  In one process, with a pickle that [loads]
    reads back, and as long as the at-exit state is not changed between
    the calls: however the turns of the worker thread and of the reader
    thread fall, the objects returned by [get] are objects that were put,
    in the order in which they were put, whatever the system refuses on
    the way.  When the objects pickle and the system refuses nothing, none
    is lost: the i-th object returned is equal to the i-th object put; and
    when the puts are followed by the turns needed to let them through,
    the [get] calls return all of them, in the order of the puts. *)
Theorem put_then_get_is_fifo (platform : string) (p : Z) (at_exit : bool) (xs : list obj) :
  (forall evs : list event,
      Forall (fun ev => steady ev = true) evs ->
      returned (snd (run_events pickle_dumps pickle_loads evs
                       (process_initial platform p at_exit)))
        `sublist_of` puts_of evs)
  /\ (Forall (fun x => picklable pickle_dumps x = true) xs ->
      (forall evs : list event,
          Forall (fun ev => steady ev = true) evs ->
          Forall (fun ev => calm ev = true) evs ->
          puts_of evs = xs ->
          returned (snd (run_events pickle_dumps pickle_loads evs
                           (process_initial platform p at_exit)))
            `prefix_of` xs)
      /\ returned (snd (run_events pickle_dumps pickle_loads
                          (put_all xs ++ settle (length xs))
                          (process_initial platform p at_exit))) = xs).
Proof.
  destruct (sound_initial platform p at_exit) as [Hs0 Hf0].
  pose proof (wired_initial platform p at_exit) as Hw0.
  set (w0 := process_initial platform p at_exit) in *.
  assert (Hnone : Forall2 pickles_to [] (in_flight w0)) by (rewrite Hf0; constructor).
  split; [|intros Hpick; split].
  - intros evs Hsteady.
    destruct (run_never_reorders evs w0 [] Hw0 Hnone Hsteady) as (waiting & _ & Hsub).
    etrans; [|exact Hsub]. by apply sublist_inserts_r.
  - intros evs Hsteady Hcalm Hputs.
    destruct (run_keeps_order evs w0 [] Hs0 Hnone Hsteady Hcalm)
      as (_ & waiting & _ & Heq).
    { by rewrite Hputs. }
    exists waiting. rewrite <- Hputs. exact Heq.
  - destruct (run_keeps_order (put_all xs) w0 [] Hs0 Hnone
                (put_all_steady xs) (put_all_calm xs))
      as (Hs1 & waiting1 & Hw1 & Heq1).
    { by rewrite put_all_puts. }
    assert (Hcalm : Forall (fun ev => calm ev = true) (put_all xs ++ settle (length xs))).
    { apply Forall_app. split; [apply put_all_calm|apply settle_calm]. }
    assert (Hsteady : Forall (fun ev => steady ev = true)
                             (put_all xs ++ settle (length xs))).
    { apply Forall_app. split; [apply put_all_steady|apply settle_steady]. }
    destruct (run_keeps_order _ w0 [] Hs0 Hnone Hsteady Hcalm)
      as (_ & waiting & Hw & Heq).
    { by rewrite puts_of_app, put_all_puts, settle_puts, app_nil_r. }
    rewrite puts_of_app, put_all_puts, settle_puts, app_nil_r in Heq. simpl in Heq.
    fold (run (put_all xs ++ settle (length xs)) w0).
    rewrite run_app_state, settle_empties in Hw; [| exact Hs1 |].
    + apply Forall2_nil_inv_r in Hw. subst waiting. by rewrite app_nil_r in Heq.
    + rewrite <- (Forall2_length _ _ _ Hw1).
      rewrite put_all_puts in Heq1. simpl in Heq1.
      rewrite Heq1, length_app. lia.
Qed.

End FifoFacts.

Lemma sample_loads_dumps (x : Sample.object) (b : Pipe.bytes) :
  Sample.dumps x = Returns b -> Sample.loads b = Returns x.
Proof. destruct x; simpl; [|discriminate]. by intros [= <-]. Qed.

Lemma put_abc_then_get_abc :
  Forall (fun x => SafeQueue.picklable Sample.dumps x = true) [Sample.a; Sample.b; Sample.c]
  /\ SafeQueue.returned
       (snd (SafeQueue.run_events Sample.dumps Sample.loads
               (put_all [Sample.a; Sample.b; Sample.c] ++ settle 3)
               (Sample.linux 4242 false)))
     = [Sample.a; Sample.b; Sample.c].
Proof.
  assert (Hpick : Forall (fun x => SafeQueue.picklable Sample.dumps x = true)
                         [Sample.a; Sample.b; Sample.c]) by (by repeat constructor).
  split; [exact Hpick|].
  apply (proj2 (put_then_get_is_fifo Sample.dumps Sample.loads sample_loads_dumps
                  "linux" 4242 false [Sample.a; Sample.b; Sample.c]) Hpick).
Defined.

(** The at-exit state is set while the write of [a] is still with the
    pool: the put of [b] writes to the pipe at once, the worker writes [a]
    after it, and the two [get] calls return [b] before [a]. *)
Lemma put_at_exit_overtakes_pending_write :
  let evs := [SafeQueue.Put Sample.a Sample.fine; SafeQueue.AtExit true;
              SafeQueue.Put Sample.b Sample.fine; SafeQueue.Worker (Returns tt);
              SafeQueue.Get (Returns tt) [Returns tt; Returns tt] true;
              SafeQueue.Get (Returns tt) [] true] in
  SafeQueue.puts_of evs = [Sample.a; Sample.b]
  /\ SafeQueue.returned
       (snd (SafeQueue.run_events Sample.dumps Sample.loads evs (Sample.linux 4242 false)))
     = [Sample.b; Sample.a].
Proof. split; reflexivity. Qed.

(** A write that fails loses its object: the next [get] returns the
    object put after it. *)
Example failed_write_loses_object :
  SafeQueue.returned
    (snd (SafeQueue.run_events Sample.dumps Sample.loads
            [SafeQueue.Put Sample.a Sample.fine; SafeQueue.Worker (Raises OSError);
             SafeQueue.Put Sample.b Sample.fine; SafeQueue.Worker (Returns tt);
             SafeQueue.Get (Returns tt) [Returns tt] true]
            (Sample.linux 4242 false)))
  = [Sample.b].
Proof. reflexivity. Qed.

(** * Further properties of the process utilities *)

(** ** The fork-safe wrappers across calls and processes *)

Section ForkSafeMore.

Import ForkSafe.

Lemma create_stamps {T : Type} (pid : Z) (s : sync_object T) :
  _instance_pid (_create pid s) = Some pid /\ _functor (_create pid s) = _functor s.
Proof.
  unfold _create. destruct (stale pid s) eqn:Hst; simpl; [by split|].
  split; [|reflexivity].
  unfold stale in Hst. apply orb_false_iff in Hst as [Hp _].
  destruct (_instance_pid s) as [n|]; [|discriminate]. simpl in Hp.
  apply negb_false_iff, Z.eqb_eq in Hp. by subst n.
Qed.

Lemma ForkEvent_seen_after_set (pid : Z) (e : ForkEvent) :
  snd (ForkEvent_is_set pid (ForkEvent_set pid e)) = true.
Proof.
  destruct (create_stamps pid e) as [Hp _].
  unfold ForkEvent_is_set, _create, stale, ForkEvent_set, with_sync. simpl.
  rewrite Hp. simpl. by rewrite Z.eqb_refl.
Qed.

(** After [_create] the primitive exists and belongs to the calling
    process; a primitive the process already owns is kept as it is, one
    left by another process (or none) is replaced by a new one from the
    factory; and a second [_create] in the same process changes nothing. *)
Theorem create_builds_once_per_process {T : Type} (pid : Z) (s : sync_object T) :
  _instance_pid (_create pid s) = Some pid
  /\ is_Some (_sync (_create pid s))
  /\ _create pid (_create pid s) = _create pid s
  /\ (forall t, _instance_pid s = Some pid -> _sync s = Some t -> _create pid s = s)
  /\ (_instance_pid s <> Some pid \/ _sync s = None ->
      _sync (_create pid s) = Some (_functor s tt)).
Proof.
  assert (Hfresh : forall t, stale pid (mk_sync (Some t) (Some pid) (_functor s)) = false).
  { intros t. unfold stale. simpl. by rewrite Z.eqb_refl. }
  unfold _create.
  destruct (stale pid s) eqn:Hst; simpl.
  - rewrite Hfresh. split_and!; eauto.
    + intros t Hp Hs. unfold stale in Hst. rewrite Hp, Hs in Hst. simpl in Hst.
      rewrite Z.eqb_refl in Hst. discriminate.
  - rewrite Hst. unfold stale in Hst. apply orb_false_iff in Hst as [Hp Hs].
    destruct (_instance_pid s) as [n|] eqn:En; [|discriminate]. simpl in Hp.
    apply negb_false_iff, Z.eqb_eq in Hp. subst n.
    destruct (_sync s) as [t|] eqn:Es; [|discriminate].
    split_and!; eauto. intros [Hne|Hnone]; [congruence|discriminate].
Qed.

(** Putting the items one after the other. *)
Fixpoint put_each {A : Type} (pid : Z) (xs : list A) (q : ForkQueue A) : ForkQueue A :=
  match xs with
  | [] => q
  | x :: rest => put_each pid rest (ForkQueue_put pid x q)
  end.

(** [n] calls of [get], with what each one gave. *)
Fixpoint get_each {A : Type} (pid : Z) (block : bool) (n : nat) (q : ForkQueue A)
  : ForkQueue A * list (got A) :=
  match n with
  | O => (q, [])
  | S k =>
      let (q1, r) := ForkQueue_get pid block q in
      let (q2, rs) := get_each pid block k q1 in
      (q2, r :: rs)
  end.

Lemma put_each_owned {A : Type} (pid : Z) (xs : list A) (q : ForkQueue A) :
  owned pid q ->
  owned pid (put_each pid xs q) /\ items (put_each pid xs q) = items q ++ xs.
Proof.
  revert q. induction xs as [|x rest IH]; intros q Ho; simpl.
  - by rewrite app_nil_r.
  - destruct (put_owned pid x q Ho) as [Ho1 Hi1].
    destruct (IH _ Ho1) as [Ho2 Hi2]. split; [exact Ho2|].
    by rewrite Hi2, Hi1, <- app_assoc.
Qed.

Lemma get_each_owned {A : Type} (pid : Z) (block : bool) (q : ForkQueue A) :
  owned pid q ->
  owned pid (fst (get_each pid block (length (items q)) q))
  /\ items (fst (get_each pid block (length (items q)) q)) = []
  /\ snd (get_each pid block (length (items q)) q) = map Got (items q).
Proof.
  remember (length (items q)) as n eqn:Hn. revert q Hn.
  induction n as [|n IH]; intros q Hn Ho; simpl.
  - split; [exact Ho|]. symmetry in Hn. apply length_zero_iff_nil in Hn.
    rewrite Hn. auto.
  - destruct (get_owned pid block q Ho) as [Ho1 Hget].
    destruct (ForkQueue_get pid block q) as [q1 r]. simpl in Ho1, Hget.
    destruct (items q) as [|x rest]; [discriminate|]. destruct Hget as [-> Hrest].
    assert (Hlen : n = length (items q1)) by (rewrite Hrest; simpl in Hn; lia).
    destruct (IH q1 Hlen Ho1) as (Ho2 & Hi2 & Hr2).
    destruct (get_each pid block n q1) as [q2 rs]. simpl in *.
    split_and!; auto. by rewrite Hr2, Hrest.
Qed.

(** A [ForkQueue] used by one process is a FIFO queue: what is put comes
    out of [get] in the order of the puts, after the items that were there
    before; once everything is taken, [get(block=False)] raises [Empty] and
    a blocking [get] waits. *)
Theorem ForkQueue_is_fifo_in_one_process
        {A : Type} (pid : Z) (block : bool) (xs : list A) (q : ForkQueue A) :
  owned pid q ->
  let filled := put_each pid xs q in
  let taken := get_each pid block (length (items q ++ xs)) filled in
  snd taken = map Got (items q ++ xs)
  /\ snd (ForkQueue_get pid false (fst taken)) = Failed QueueEmpty
  /\ snd (ForkQueue_get pid true (fst taken)) = Blocked
  /\ snd (ForkQueue_empty pid filled) = Returns (bool_decide (items q ++ xs = [])).
Proof.
  intros Ho filled taken.
  destruct (put_each_owned pid xs q Ho) as [Ho1 Hi1]. fold filled in Ho1, Hi1.
  destruct (get_each_owned pid block filled Ho1) as (Ho2 & Hi2 & Hr2).
  rewrite Hi1 in Ho2, Hi2, Hr2. fold taken in Ho2, Hi2, Hr2.
  split; [exact Hr2|].
  destruct (get_owned pid false (fst taken) Ho2) as [_ Hf].
  destruct (get_owned pid true (fst taken) Ho2) as [_ Hb].
  rewrite Hi2 in Hf, Hb. split; [apply Hf|]. split; [apply Hb|].
  destruct (create_owned pid filled Ho1) as (Hs & _).
  assert (Hthe : the_sync (_create pid filled) = items q ++ xs).
  { unfold the_sync. by rewrite Hs, Hi1. }
  unfold ForkQueue_empty.
  destruct (_sync filled) as [l|] eqn:El; cbn [snd].
  - by rewrite Hthe.
  - unfold items in Hi1 at 1. rewrite El in Hi1. simpl in Hi1. by rewrite <- Hi1.
Qed.

Lemma ForkQueue_is_fifo_abc :
  owned 7 (@ForkQueue_init nat)
  /\ snd (get_each 7 false 3 (put_each 7 [1; 2; 3]%nat ForkQueue_init))
     = [Got 1%nat; Got 2%nat; Got 3%nat].
Proof.
  split; [apply owned_init|].
  apply (ForkQueue_is_fifo_in_one_process 7 false [1; 2; 3]%nat ForkQueue_init).
  apply owned_init.
Defined.

(** In a process other than the one that built it, the first call on a
    [ForkQueue] replaces the inner queue: [get(block=False)] raises [Empty]
    and [empty()] returns [True] whatever the queue held, and what is put
    afterwards is alone in the queue. *)
Theorem ForkQueue_items_do_not_cross_fork
        {A : Type} (parent child : Z) (l : list A) (x : A) (q : ForkQueue A) :
  parent <> child ->
  _functor q tt = [] ->
  _instance_pid q = Some parent ->
  _sync q = Some l ->
  snd (ForkQueue_get child false q) = Failed QueueEmpty
  /\ snd (ForkQueue_empty child q) = Returns true
  /\ items (ForkQueue_put child x q) = [x]
  /\ owned child (fst (ForkQueue_get child false q))
  /\ snd (ForkQueue_get parent false q)
     = match l with [] => Failed QueueEmpty | y :: _ => Got y end.
Proof.
  intros Hne Hf Hp Hs.
  assert (Hstale : stale child q = true).
  { unfold stale. rewrite Hp. simpl.
    destruct (Z.eqb_spec parent child); [contradiction|reflexivity]. }
  assert (Hfresh : stale parent q = false).
  { unfold stale. rewrite Hp, Hs. simpl. by rewrite Z.eqb_refl. }
  unfold ForkQueue_get, ForkQueue_empty, ForkQueue_put, _create, the_sync, items, owned.
  rewrite Hs, Hstale, Hfresh. simpl. rewrite Hf, Hs. simpl.
  split_and!; auto. by destruct l.
Qed.

Lemma ForkQueue_items_do_not_cross_fork_example :
  snd (ForkQueue_get 8 false (put_each 7 [1; 2]%nat ForkQueue_init)) = Failed QueueEmpty
  /\ snd (ForkQueue_get 7 false (put_each 7 [1; 2]%nat ForkQueue_init)) = Got 1%nat.
Proof.
  destruct (ForkQueue_items_do_not_cross_fork 7 8 [1; 2]%nat 0%nat
              (put_each 7 [1; 2]%nat ForkQueue_init))
    as (Hchild & _ & _ & _ & Hparent); try reflexivity; [lia|].
  split; [exact Hchild|exact Hparent].
Defined.

(** A [ForkEvent] in one process behaves as an event: set after [set],
    not set after [clear]; [clear] on an event that was never used leaves
    it unbuilt; and a process other than the one that set the event sees
    it not set. *)
Theorem ForkEvent_set_clear_is_set (pid other : Z) (e : ForkEvent) :
  _functor e tt = false ->
  snd (ForkEvent_is_set pid (ForkEvent_set pid e)) = true
  /\ snd (ForkEvent_is_set pid (ForkEvent_clear pid (ForkEvent_set pid e))) = false
  /\ (_sync e = None ->
      ForkEvent_clear pid e = e /\ snd (ForkEvent_is_set pid (ForkEvent_clear pid e)) = false)
  /\ (other <> pid -> snd (ForkEvent_is_set other (ForkEvent_set pid e)) = false).
Proof.
  intros Hf.
  destruct (create_stamps pid e) as (Hp & _).
  assert (Hset : forall p, stale p (ForkEvent_set pid e) = negb (pid =? p)).
  { intros p. unfold stale, ForkEvent_set, with_sync. simpl. rewrite Hp. simpl.
    by rewrite orb_false_r. }
  assert (Hfun : _functor (_create pid e) = _functor e).
  { unfold _create. destruct (stale pid e); reflexivity. }
  split_and!.
  - unfold ForkEvent_is_set, _create. rewrite Hset, Z.eqb_refl. reflexivity.
  - unfold ForkEvent_is_set, ForkEvent_clear. simpl.
    unfold _create at 2. rewrite Hset, Z.eqb_refl. simpl.
    unfold _create at 1. unfold stale. simpl. rewrite Hp. simpl.
    rewrite Z.eqb_refl. reflexivity.
  - intros Hnone. unfold ForkEvent_clear. rewrite Hnone. split; [reflexivity|].
    unfold ForkEvent_is_set, _create, stale, the_sync. rewrite Hnone.
    rewrite orb_true_r. simpl. exact Hf.
  - intros Hne. unfold ForkEvent_is_set, _create. rewrite Hset.
    destruct (Z.eqb_spec pid other); [congruence|]. simpl.
    unfold ForkEvent_set, with_sync. simpl. rewrite Hfun. exact Hf.
Qed.

Lemma ForkEvent_set_is_not_seen_by_child :
  snd (ForkEvent_is_set 7 (ForkEvent_set 7 ForkEvent_init)) = true
  /\ snd (ForkEvent_is_set 8 (ForkEvent_set 7 ForkEvent_init)) = false.
Proof.
  destruct (ForkEvent_set_clear_is_set 7 8 ForkEvent_init eq_refl) as (Hset & _ & _ & Hchild).
  split; [exact Hset|]. apply Hchild. lia.
Defined.

Lemma create_builds_fresh_queue :
  _sync (_create 7 (@ForkQueue_init Pipe.bytes)) = Some [].
Proof.
  apply (create_builds_once_per_process 7 (@ForkQueue_init Pipe.bytes)).
  right. reflexivity.
Defined.

End ForkSafeMore.

Section LockFacts.

Import ForkSafe ForkSafeRLock.

Lemma rlock_create_own (pid : Z) (inner : RLock) (f : unit -> RLock) :
  _create pid (mk_sync (Some inner) (Some pid) f) = mk_sync (Some inner) (Some pid) f.
Proof. unfold _create, stale. simpl. by rewrite Z.eqb_refl. Qed.

Lemma rlock_create_foreign (pid other : Z) (inner : RLock) (f : unit -> RLock) :
  other <> pid ->
  _create pid (mk_sync (Some inner) (Some other) f) = mk_sync (Some (f tt)) (Some pid) f.
Proof.
  intros Hne. unfold _create, stale. simpl.
  destruct (Z.eqb_spec other pid); [contradiction|reflexivity].
Qed.

(** A [with lock:] block, in the process that built the lock and for a
    thread that finds the lock free or already holds it: entering
    succeeds, inside the block [_is_owned()] is true for that thread and
    false for any other, who can neither acquire nor release the lock, and
    leaving the block puts the lock back exactly as it was. *)
Theorem ForkSafeRLock_with_block
        (pid : Z) (me other : nat) (inner : RLock) (f : unit -> RLock) :
  (owner inner = None /\ depth inner = 0%nat)
  \/ (owner inner = Some me /\ (0 < depth inner)%nat) ->
  other <> me ->
  let l := mk_sync (Some inner) (Some pid) f in
  let inside := fst (__enter__ pid me l) in
  snd (__enter__ pid me l) = Got true
  /\ snd (_is_owned pid me inside) = true
  /\ snd (_is_owned pid other inside) = false
  /\ snd (acquire pid other false inside) = Got false
  /\ snd (acquire pid other true inside) = Blocked
  /\ snd (release pid other inside) = Raises RuntimeError
  /\ __exit__ pid me inside = (l, Returns tt).
Proof.
  intros Hstate Hother l inside.
  assert (Hin : exists d, inside = mk_sync (Some (mk_rlock (Some me) (S d))) (Some pid) f
                          /\ (d = depth inner)).
  { unfold inside, l, __enter__, acquire. rewrite rlock_create_own.
    unfold the_sync, RLock_acquire, with_sync. simpl.
    destruct Hstate as [[Ho Hd]|[Ho Hd]]; rewrite Ho.
    - exists 0%nat. by rewrite Hd.
    - rewrite bool_decide_eq_true_2 by reflexivity. eauto. }
  destruct Hin as (d & Hin & Hd).
  assert (Hne : bool_decide (me = other) = false) by (apply bool_decide_eq_false; congruence).
  split_and!.
  - unfold l, __enter__, acquire. rewrite rlock_create_own.
    unfold the_sync, RLock_acquire. simpl.
    destruct Hstate as [[Ho _]|[Ho _]]; rewrite Ho; [reflexivity|].
    by rewrite bool_decide_eq_true_2.
  - rewrite Hin. unfold _is_owned. rewrite rlock_create_own. unfold the_sync. simpl.
    by apply bool_decide_eq_true.
  - rewrite Hin. unfold _is_owned. rewrite rlock_create_own. unfold the_sync. simpl.
    apply bool_decide_eq_false. intros [= Heq]. by apply Hother.
  - rewrite Hin. unfold acquire. rewrite rlock_create_own.
    unfold the_sync, RLock_acquire. simpl. by rewrite Hne.
  - rewrite Hin. unfold acquire. rewrite rlock_create_own.
    unfold the_sync, RLock_acquire. simpl. by rewrite Hne.
  - rewrite Hin. unfold release. simpl _sync. cbv iota. rewrite rlock_create_own.
    unfold the_sync, RLock_release. simpl. by rewrite Hne.
  - rewrite Hin. unfold __exit__, release. simpl _sync. cbv iota.
    rewrite rlock_create_own. unfold the_sync, RLock_release, with_sync. simpl.
    rewrite bool_decide_eq_true_2 by reflexivity. unfold l.
    destruct Hstate as [[Ho Hd']|[Ho Hd']].
    + rewrite Hd, Hd'. destruct inner as [o n]. simpl in *. by subst.
    + rewrite Hd. destruct inner as [o [|n]]; simpl in *; [lia|]. by subst.
Qed.

Lemma ForkSafeRLock_with_block_reentrant :
  snd (_is_owned 7 1 (fst (__enter__ 7 1
         (mk_sync (Some (mk_rlock (Some 1%nat) 1)) (Some 7) ThreadRLock)))) = true
  /\ __exit__ 7 1 (fst (__enter__ 7 1
         (mk_sync (Some (mk_rlock (Some 1%nat) 1)) (Some 7) ThreadRLock)))
     = (mk_sync (Some (mk_rlock (Some 1%nat) 1)) (Some 7) ThreadRLock, Returns tt).
Proof.
  assert (Hheld : (owner (mk_rlock (Some 1%nat) 1) = None
                   /\ depth (mk_rlock (Some 1%nat) 1) = 0%nat)
                  \/ (owner (mk_rlock (Some 1%nat) 1) = Some 1%nat
                      /\ (0 < depth (mk_rlock (Some 1%nat) 1))%nat))
    by (right; simpl; split; [reflexivity|lia]).
  assert (Hother : 2%nat <> 1%nat) by lia.
  destruct (ForkSafeRLock_with_block 7 1 2 (mk_rlock (Some 1%nat) 1) ThreadRLock Hheld Hother)
    as (_ & Howned & _ & _ & _ & _ & Hexit).
  split; [exact Howned|exact Hexit].
Defined.

(** [release] without a matching [acquire]: on a lock that was never
    used it returns quietly and builds nothing; on a lock the process has
    built and nobody holds it raises [RuntimeError]; and in a process
    other than the one where the lock was acquired it raises
    [RuntimeError] too, the lock of that process being a new, free one. *)
Theorem ForkSafeRLock_release_unheld
        (pid child : Z) (me : nat) (held : RLock) (l : t) :
  (_sync l = None -> release pid me l = (l, Returns tt))
  /\ snd (release pid me (mk_sync (Some (ThreadRLock tt)) (Some pid) ThreadRLock))
     = Raises RuntimeError
  /\ (child <> pid ->
      let inherited := mk_sync (Some held) (Some pid) ThreadRLock in
      snd (__exit__ child me inherited) = Raises RuntimeError
      /\ _sync (fst (__exit__ child me inherited)) = Some (ThreadRLock tt)
      /\ snd (acquire child me true (fst (__exit__ child me inherited))) = Got true).
Proof.
  split_and!.
  - intros Hnone. unfold release. by rewrite Hnone.
  - unfold release. simpl _sync. cbv iota. rewrite rlock_create_own. reflexivity.
  - intros Hne inherited. unfold inherited, __exit__, release. simpl _sync. cbv iota.
    rewrite rlock_create_foreign by congruence.
    unfold the_sync, RLock_release, with_sync. simpl.
    split_and!; try reflexivity.
    unfold acquire. rewrite rlock_create_own. reflexivity.
Qed.

Lemma ForkSafeRLock_exit_in_child_raises :
  snd (__exit__ 8 1 (fst (__enter__ 7 1 __init__))) = Raises RuntimeError
  /\ release 7 1 __init__ = (__init__, Returns tt).
Proof.
  destruct (ForkSafeRLock_release_unheld 7 8 1 (mk_rlock (Some 1%nat) 1) __init__)
    as (Hfresh & _ & Hchild).
  split.
  - apply Hchild. lia.
  - apply Hfresh. reflexivity.
Defined.

End LockFacts.

Section SemaphoreFacts.

Import ForkSemaphore.

Lemma create_own (sem_open : outcome unit) (pid n v : Z) :
  _create sem_open pid (mk (Some n) (Some pid) v) = (mk (Some n) (Some pid) v, Returns tt).
Proof. unfold _create, stale. simpl. by rewrite Z.eqb_refl. Qed.

Lemma Semaphore_in_range (v : Z) :
  0 <= v <= SEM_VALUE_MAX -> Semaphore (Returns tt) v = Returns v.
Proof.
  intros [Hlo Hhi]. unfold Semaphore.
  replace (SEM_VALUE_MAX <? v) with false by (symmetry; apply Z.ltb_ge; lia).
  by replace (v <? 0) with false by (symmetry; apply Z.ltb_ge; lia).
Qed.

(** A [ForkSemaphore] in the process that built it counts: [acquire]
    takes one when the count is positive and [release] gives one back
    below [SEM_VALUE_MAX], so an [acquire] followed by a [release] leaves
    the count as it was; at count 0 a non-blocking [acquire] returns
    [False] and a blocking one waits, the count unchanged; and at
    [SEM_VALUE_MAX] [release] raises [ValueError], the count unchanged. *)
Theorem ForkSemaphore_counts (sem_open : outcome unit) (pid c v : Z) :
  let s := mk (Some c) (Some pid) v in
  snd (get_value sem_open pid s) = Returns c
  /\ (c < SEM_VALUE_MAX ->
      snd (release sem_open pid s) = Returns tt
      /\ snd (get_value sem_open pid (fst (release sem_open pid s))) = Returns (c + 1))
  /\ (SEM_VALUE_MAX <= c -> release sem_open pid s = (s, Raises ValueError))
  /\ (0 < c -> c <= SEM_VALUE_MAX ->
      snd (acquire sem_open (Returns tt) pid true s) = ForkSafe.Got (Some true)
      /\ snd (get_value sem_open pid (fst (acquire sem_open (Returns tt) pid true s)))
         = Returns (c - 1)
      /\ fst (release sem_open pid (fst (acquire sem_open (Returns tt) pid true s))) = s)
  /\ (c <= 0 ->
      acquire sem_open (Returns tt) pid false s = (s, ForkSafe.Got (Some false))
      /\ acquire sem_open (Returns tt) pid true s = (s, ForkSafe.Blocked)).
Proof.
  intros s. unfold s, get_value, release, acquire. simpl _sync. cbv iota.
  rewrite !create_own. cbn [_sync _instance_pid value fst snd].
  unfold Semaphore_release, Semaphore_acquire.
  split_and!.
  - reflexivity.
  - intros Hc. replace (SEM_VALUE_MAX <=? c) with false by (symmetry; apply Z.leb_gt; lia).
    cbn [fst snd]. by rewrite create_own.
  - intros Hc. by replace (SEM_VALUE_MAX <=? c) with true by (symmetry; apply Z.leb_le; lia).
  - intros Hc Hmax. replace (0 <? c) with true by (symmetry; apply Z.ltb_lt; lia).
    cbn [fst snd _sync]. rewrite !create_own. cbn [fst snd _sync _instance_pid value].
    replace (SEM_VALUE_MAX <=? c - 1) with false by (symmetry; apply Z.leb_gt; lia).
    split_and!; try reflexivity.
    by replace (c - 1 + 1) with c by lia.
  - intros Hc. replace (0 <? c) with false by (symmetry; apply Z.ltb_ge; lia).
    split; reflexivity.
Qed.

Lemma ForkSemaphore_counts_from_two :
  snd (get_value (Returns tt) 7
         (fst (acquire (Returns tt) (Returns tt) 7 true (mk (Some 2) (Some 7) 2))))
  = Returns 1
  /\ acquire (Returns tt) (Returns tt) 7 false (mk (Some 0) (Some 7) 2)
     = (mk (Some 0) (Some 7) 2, ForkSafe.Got (Some false))
  /\ release (Returns tt) 7 (mk (Some SEM_VALUE_MAX) (Some 7) 2)
     = (mk (Some SEM_VALUE_MAX) (Some 7) 2, Raises ValueError).
Proof.
  split_and!.
  - apply (ForkSemaphore_counts (Returns tt) 7 2 2); unfold SEM_VALUE_MAX; lia.
  - apply (ForkSemaphore_counts (Returns tt) 7 0 2). lia.
  - apply (ForkSemaphore_counts (Returns tt) 7 SEM_VALUE_MAX 2). lia.
Defined.

(** [acquire] lets no failure of building the semaphore out: when the
    semaphore has to be built and cannot be, it returns [None] and leaves
    the wrapper as it was, where [get_value] lets the failure through.
    The only exception that leaves [acquire] is the one the inner
    [acquire] raises, once the semaphore is there.  [release] on a
    semaphore that was never used is dropped: nothing is built and the
    next [get_value] reads the initial value.  And a process other than
    the one that built the semaphore starts again from the initial value. *)
Theorem ForkSemaphore_swallows_build_failures_and_restarts
        (sem_open wait : outcome unit) (pid child : Z) (block : bool) (s : t) :
  (forall e, snd (acquire sem_open wait pid block s) = ForkSafe.Failed e
             <-> wait = Raises e
                 /\ (stale pid s = false
                     \/ exists c, Semaphore sem_open (value s) = Returns c))
  /\ (forall e, Semaphore sem_open (value s) = Raises e -> stale pid s = true ->
        acquire sem_open wait pid block s = (s, ForkSafe.Got None)
        /\ get_value sem_open pid s = (s, Raises e))
  /\ (_sync s = None ->
      release sem_open pid s = (s, Returns tt)
      /\ (0 <= value s <= SEM_VALUE_MAX ->
          snd (get_value (Returns tt) pid (fst (release sem_open pid s)))
          = Returns (value s)))
  /\ (_instance_pid s = Some pid -> child <> pid -> 0 <= value s <= SEM_VALUE_MAX ->
      snd (get_value (Returns tt) child s) = Returns (value s)
      /\ snd (get_value (Returns tt) child (fst (release (Returns tt) pid s)))
         = Returns (value s)).
Proof.
  split_and!.
  - intros e. unfold acquire, _create.
    destruct (stale pid s) eqn:Hst.
    + destruct (Semaphore sem_open (value s)) as [c|x]; cbn [_sync].
      * unfold Semaphore_acquire. destruct wait as [[]|x]; cbn [snd].
        -- split; [|by intros [? _]].
           destruct (0 <? c); [discriminate|]. destruct block; discriminate.
        -- split; [intros [= ->]; split; eauto|by intros [[= ->] _]].
      * cbn [snd]. split; [discriminate|].
        intros [_ [?|[c ?]]]; discriminate.
    + unfold stale in Hst. apply orb_false_iff in Hst as [_ Hs].
      destruct (_sync s) as [c|]; [|discriminate].
      unfold Semaphore_acquire. destruct wait as [[]|x]; cbn [snd].
      * split; [|by intros [? _]].
        destruct (0 <? c); [discriminate|]. destruct block; discriminate.
      * split; [intros [= ->]; split; eauto|by intros [[= ->] _]].
  - intros e He Hst. unfold acquire, get_value, _create. by rewrite Hst, He.
  - intros Hnone. unfold release. rewrite Hnone. split; [reflexivity|].
    intros Hrange. cbn [fst].
    assert (Hst : stale pid s = true) by (unfold stale; rewrite Hnone; apply orb_true_r).
    unfold get_value, _create. by rewrite Hst, (Semaphore_in_range _ Hrange).
  - intros Hp Hne Hrange.
    destruct s as [sy ip v]. simpl in Hp, Hrange. subst ip.
    assert (Hst : forall c, stale child (mk c (Some pid) v) = true).
    { intros c. unfold stale. simpl.
      destruct (Z.eqb_spec pid child); [congruence|reflexivity]. }
    assert (Hnew : forall c, snd (get_value (Returns tt) child (mk c (Some pid) v))
                             = Returns v).
    { intros c. unfold get_value, _create. cbn [value].
      by rewrite (Hst c), (Semaphore_in_range _ Hrange). }
    cbn [value]. split; [apply Hnew|].
    unfold release. cbn [_sync].
    destruct sy as [c|]; [|apply Hnew].
    rewrite create_own. cbn [_sync _instance_pid value].
    destruct (Semaphore_release c) as [c' r]. apply Hnew.
Qed.

Lemma ForkSemaphore_release_before_use_is_dropped :
  snd (get_value (Returns tt) 7 (fst (release (Returns tt) 7 (__init__ 1)))) = Returns 1
  /\ acquire (Raises OSError) (Returns tt) 7 true (__init__ 1)
     = (__init__ 1, ForkSafe.Got None)
  /\ acquire (Returns tt) (Returns tt) 7 true (__init__ (-1))
     = (__init__ (-1), ForkSafe.Got None)
  /\ snd (acquire (Returns tt) (Raises KeyboardInterrupt) 7 true (__init__ 1))
     = ForkSafe.Failed KeyboardInterrupt
  /\ snd (get_value (Returns tt) 8 (mk (Some 0) (Some 7) 1)) = Returns 1.
Proof.
  destruct (ForkSemaphore_swallows_build_failures_and_restarts
              (Returns tt) (Returns tt) 7 8 true (__init__ 1)) as (_ & _ & Hdrop & _).
  destruct (ForkSemaphore_swallows_build_failures_and_restarts
              (Raises OSError) (Returns tt) 7 8 true (__init__ 1)) as (_ & Hfail & _ & _).
  destruct (ForkSemaphore_swallows_build_failures_and_restarts
              (Returns tt) (Returns tt) 7 8 true (__init__ (-1))) as (_ & Hneg & _ & _).
  destruct (ForkSemaphore_swallows_build_failures_and_restarts
              (Returns tt) (Raises KeyboardInterrupt) 7 8 true (__init__ 1))
    as (Hout & _ & _ & _).
  destruct (ForkSemaphore_swallows_build_failures_and_restarts
              (Returns tt) (Returns tt) 7 8 true (mk (Some 0) (Some 7) 1))
    as (_ & _ & _ & Hfork).
  split_and!.
  - apply Hdrop; [reflexivity|]. unfold SEM_VALUE_MAX. simpl. lia.
  - apply (Hfail OSError); reflexivity.
  - apply (Hneg OSError); reflexivity.
  - apply Hout. split; [reflexivity|]. right. by exists 1.
  - apply Hfork; [reflexivity|lia|]. unfold SEM_VALUE_MAX. simpl. lia.
Defined.

End SemaphoreFacts.

(** ** The call pool and the ledger along a run *)

Section PoolFacts.

Import Pipe ForkSafe SafeQueue.

(** The call pool belongs to one process.  In the process that built it
    [SingletonThreadPool.get] changes nothing and starts no thread.  In
    another process (a child that inherited the pool through a fork) the
    first [put] builds a new pool: the calls the parent had queued are not
    taken over, only the child's own write is with the new pool, and the
    queue object is untouched.  When the worker thread cannot be started
    the pool is left as it was and the error goes to the caller. *)
Theorem thread_pool_is_per_process (w : process) :
  (forall sp, __thread_pool_pid (pool w) = Some (pid w) ->
     SingletonThreadPool_get sp w = (w, Returns tt))
  /\ (forall env b, opt_pid_neq (__thread_pool_pid (pool w)) (pid w) = true ->
        granted (spawn env) = true ->
        let w' := fst (dispatch env b w) in
        snd (dispatch env b w) = Returns tt
        /\ pending w' = [b]
        /\ __thread_pool_pid (pool w') = Some (pid w)
        /\ queue w' = queue w
        /\ SingletonThreadPool_get (spawn env) w' = (w', Returns tt))
  /\ (forall e, opt_pid_neq (__thread_pool_pid (pool w)) (pid w) = true ->
        SingletonThreadPool_get (Raises e) w = (w, Raises e)).
Proof.
  split_and!.
  - intros sp Hpid. unfold SingletonThreadPool_get, opt_pid_neq.
    by rewrite Hpid, Z.eqb_refl.
  - intros env b Hneq Hsp w'. unfold w', dispatch, bind, ret, SingletonThreadPool_get.
    rewrite Hneq. destruct (spawn env) as [[]|]; [|discriminate]. simpl.
    unfold pending, SingletonThreadPool_get, opt_pid_neq. simpl.
    rewrite Z.eqb_refl. simpl. by destruct w.
  - intros e Hneq. unfold SingletonThreadPool_get. by rewrite Hneq.
Qed.

(** A child, pid 8, that inherited the pool of its parent, pid 7, with
    one write queued there. *)
Definition forked_with_parent_pool : process :=
  mk_process 8 BackgroundMonitor.class_initial
    (mk_pool (Some (mk_calls (mk_sync (Some [Some (q_put_call [Byte.x61] false)])
                                      (Some 7) TrQueue) (Some true)))
             (Some 7))
    (__init__ "linux").

Lemma child_put_uses_a_pool_of_its_own :
  pending forked_with_parent_pool = [[Byte.x61]]
  /\ pending (fst (dispatch Sample.fine [Byte.x62] forked_with_parent_pool)) = [[Byte.x62]].
Proof.
  split; [reflexivity|].
  apply (thread_pool_is_per_process forked_with_parent_pool); reflexivity.
Defined.

Lemma pop_until_absent (p : Z) (l : list Z) : p ∉ l -> pop_until p l = [].
Proof.
  induction l as [|x l IH]; [reflexivity|].
  intros Hnot. apply not_elem_of_cons in Hnot as [Hne Hnot]. simpl.
  destruct (Z.eqb_spec x p); [congruence|]. by apply IH.
Qed.

Lemma pop_until_found (p : Z) (l1 l2 : list Z) :
  p ∉ l1 -> pop_until p (l1 ++ p :: l2) = l2.
Proof.
  induction l1 as [|x l1 IH]; simpl.
  - by rewrite Z.eqb_refl.
  - intros Hnot. apply not_elem_of_cons in Hnot as [Hne Hnot].
    destruct (Z.eqb_spec x p); [congruence|]. by apply IH.
Qed.

Lemma filter_pid_absent (p : Z) (l : list Z) : p ∉ l -> filter (fun x => x = p) l = [].
Proof.
  induction l as [|x l IH]; [reflexivity|].
  intros Hnot. apply not_elem_of_cons in Hnot as [Hne Hnot].
  rewrite filter_cons. destruct (decide (x = p)); [congruence|]. by apply IH.
Qed.

(** The loop [p = None; while p != pid and l: p = l.pop()] removes the
    last entry of the process and everything that follows it; when the
    process has no entry it empties the ledger.  So what is left is always
    the beginning of the ledger, the process loses exactly one of its
    entries if it has any, and another process can lose entries but never
    gains one. *)
Theorem pop_own_removes_from_last_own_entry (p : Z) (l : list Z) :
  (forall l1 l2, l = l1 ++ p :: l2 -> p ∉ l2 -> pop_own p l = l1)
  /\ (p ∉ l -> pop_own p l = [])
  /\ pop_own p l `prefix_of` l
  /\ count p (pop_own p l) = Z.max 0 (count p l - 1)
  /\ (forall p', count p' (pop_own p l) <= count p' l).
Proof.
  assert (Hfound : forall l1 l2, l = l1 ++ p :: l2 -> p ∉ l2 -> pop_own p l = l1).
  { intros l1 l2 -> Hnot. unfold pop_own.
    rewrite rev_app_distr. simpl. rewrite <- app_assoc. simpl.
    rewrite pop_until_found; [apply rev_involutive|].
    intros Hin. apply Hnot. apply list_elem_of_In. apply in_rev.
    by apply list_elem_of_In. }
  assert (Habsent : p ∉ l -> pop_own p l = []).
  { intros Hnot. unfold pop_own. rewrite pop_until_absent; [reflexivity|].
    intros Hin. apply Hnot. apply list_elem_of_In. apply in_rev.
    by apply list_elem_of_In. }
  assert (Hcases : p ∉ l \/ exists l1 l2, l = l1 ++ p :: l2 /\ p ∉ l2).
  { clear Hfound Habsent. induction l as [|x l IH]; [left; apply not_elem_of_nil|].
    destruct IH as [Hnot|(l1 & l2 & -> & Hnot)].
    - destruct (decide (x = p)) as [->|Hne].
      + right. exists [], l. by split.
      + left. by apply not_elem_of_cons.
    - right. exists (x :: l1), l2. by split. }
  split_and!; [exact Hfound|exact Habsent|..].
  - destruct Hcases as [Hnot|(l1 & l2 & Hl & Hnot)].
    + rewrite (Habsent Hnot). apply prefix_nil.
    + rewrite (Hfound l1 l2 Hl Hnot), Hl. by apply prefix_app_r.
  - destruct Hcases as [Hnot|(l1 & l2 & Hl & Hnot)].
    + rewrite (Habsent Hnot). unfold count. rewrite (filter_pid_absent p l Hnot). reflexivity.
    + rewrite (Hfound l1 l2 Hl Hnot), Hl. unfold count.
      rewrite filter_app, filter_cons, length_app.
      destruct (decide (p = p)); [|congruence].
      rewrite (filter_pid_absent p l2 Hnot). simpl. lia.
  - intros p'. destruct Hcases as [Hnot|(l1 & l2 & Hl & Hnot)].
    + rewrite (Habsent Hnot). unfold count. simpl. lia.
    + rewrite (Hfound l1 l2 Hl Hnot), Hl. unfold count.
      rewrite filter_app, length_app. lia.
Qed.

Lemma pop_own_drops_what_follows_the_own_entry :
  pop_own 5 [7; 5; 5; 7] = [7; 5] /\ pop_own 5 [7; 7] = [].
Proof.
  destruct (pop_own_removes_from_last_own_entry 5 [7; 5; 5; 7]) as (Hfound & _).
  destruct (pop_own_removes_from_last_own_entry 5 [7; 7]) as (_ & Habsent & _).
  split.
  - apply (Hfound [7; 5] [7]); [reflexivity|].
    intros Hin. apply list_elem_of_singleton in Hin. discriminate.
  - apply Habsent. intros Hin. apply elem_of_cons in Hin as [?|Hin]; [discriminate|].
    apply list_elem_of_singleton in Hin. discriminate.
Defined.

End PoolFacts.

(** ** The ledger along a run *)


Section LedgerAlongARun.

Import Pipe ForkSafe SafeQueue SafeQueueBatch.
Context {obj : Type}.
Variable pickle_dumps : obj -> outcome bytes.
Variable pickle_loads : bytes -> outcome obj.

(** A step in which the system refuses no write to the pipe. *)
Definition write_granted (ev : event (obj := obj)) : bool :=
  match ev with
  | Put _ env => granted (os_write env)
  | Worker o => granted o
  | _ => true
  end.

(** The inner queue, if there is one, was built by the running process. *)
Definition inner_here (w : process) : Prop :=
  match _internal_q (queue w) with
  | Some iq => owned (pid w) iq
  | None => True
  end.

(** The pool, if there is one, and the inner queue, if there is one, were
    built by the running process. *)
Definition built_here (w : process) : Prop :=
  match __thread_pool (pool w) with
  | Some tc => __thread_pool_pid (pool w) = Some (pid w) /\ owned (pid w) (_queue tc)
  | None => __thread_pool_pid (pool w) = None
  end
  /\ inner_here w.

(** The ledger holds one entry of the process for each write that is
    with the pool. *)
Definition tallied (w : process) : Prop :=
  _q_size (queue w) = repeat (pid w) (length (pending w)).

Lemma pop_own_repeat (p : Z) (n : nat) : pop_own p (p :: repeat p n) = repeat p n.
Proof.
  rewrite repeat_cons. apply pop_own_last.
Qed.

Lemma repeat_snoc_length {A} (p : Z) (l : list A) (x : A) :
  repeat p (length l) ++ [p] = repeat p (length (l ++ [x])).
Proof.
  rewrite length_app. simpl. rewrite Nat.add_1_r. simpl. by rewrite repeat_cons.
Qed.

Lemma dispatch_built_here (env : put_env) (b : bytes) (w : process) :
  built_here w ->
  match snd (dispatch env b w) with
  | Returns _ =>
      built_here (fst (dispatch env b w))
      /\ pending (fst (dispatch env b w)) = pending w ++ [b]
  | Raises _ => fst (dispatch env b w) = w
  end.
Proof.
  intros [Hpool Hiq].
  unfold dispatch, bind, ret, SingletonThreadPool_get, apply_async, ThreadCalls_init.
  unfold built_here, inner_here, pending in *.
  destruct (__thread_pool (pool w)) as [tc|] eqn:Htc.
  - destruct Hpool as [Hpid Hown]. rewrite Hpid. simpl. rewrite Z.eqb_refl. simpl.
    rewrite Htc. simpl.
    destruct (put_owned (pid w) (Some (q_put_call b false)) (_queue tc) Hown)
      as [Hown' Hitems].
    rewrite Hitems, flat_map_payload_snoc. auto.
  - rewrite Hpool. simpl. destruct (spawn env) as [[]|e]; [|reflexivity]. simpl.
    destruct (put_owned (pid w) (Some (q_put_call b false)) ForkQueue_init
                (proj1 (owned_init (pid w)))) as [Hown' Hitems].
    auto.
Qed.

Lemma reader_keeps_tally (o : outcome unit) (w : process) :
  built_here w -> tallied w ->
  built_here (_reader_daemon o w) /\ tallied (_reader_daemon o w)
  /\ pid (_reader_daemon o w) = pid w.
Proof.
  intros Hbuilt Htally. unfold _reader_daemon.
  destruct (_reader_thread (queue w)) as [[|]|]; [|by split_and!..].
  destruct o as [[]|]; [|by split_and!].
  destruct (messages (_q (queue w))) as [|b rest]; [by split_and!|].
  destruct (_internal_q (queue w)) as [iq|] eqn:Hq.
  - destruct Hbuilt as [Hpool Hiq]. unfold inner_here in Hiq. rewrite Hq in Hiq.
    destruct (put_owned (pid w) b iq Hiq) as [Hown' _].
    split_and!; [split; [exact Hpool|]|exact Htally|reflexivity].
    unfold inner_here. simpl. exact Hown'.
  - destruct Hbuilt as [Hpool Hiq].
    split_and!; [split; [exact Hpool|]|exact Htally|reflexivity].
    unfold inner_here. simpl. by rewrite Hq.
Qed.

Lemma reader_turns_keep_tally (relays : list (outcome unit)) (w : process) :
  built_here w -> tallied w ->
  built_here (reader_turns relays w) /\ tallied (reader_turns relays w)
  /\ pid (reader_turns relays w) = pid w.
Proof.
  revert w. induction relays as [|o relays IH]; intros w Hb Ht; [by split_and!|].
  unfold reader_turns. cbn [fold_left]. fold (reader_turns relays (_reader_daemon o w)).
  destruct (reader_keeps_tally o w Hb Ht) as (Hb1 & Ht1 & Hp1).
  destruct (IH _ Hb1 Ht1) as (Hb2 & Ht2 & Hp2).
  split_and!; [exact Hb2|exact Ht2|congruence].
Qed.

Lemma inner_get_keeps_tally (block : bool) (w : process) :
  built_here w -> tallied w ->
  built_here (fst (inner_get pickle_loads block w))
  /\ tallied (fst (inner_get pickle_loads block w))
  /\ pid (fst (inner_get pickle_loads block w)) = pid w.
Proof.
  intros Hbuilt Htally. unfold inner_get.
  destruct (_internal_q (queue w)) as [iq|] eqn:Hq; [|by split_and!].
  destruct Hbuilt as [Hpool Hiq]. unfold inner_here in Hiq. rewrite Hq in Hiq.
  destruct (get_owned (pid w) block iq Hiq) as [Hown' _].
  destruct (ForkQueue_get (pid w) block iq) as [iq' g]. simpl in Hown'.
  assert (Hres : let r := set_queue (set_internal_q (Some iq') (queue w)) w in
                 built_here r /\ tallied r /\ pid r = pid w).
  { unfold built_here, inner_here, tallied, pending in *. simpl. auto. }
  destruct g as [bb| |e]; [destruct (pickle_loads bb)|..]; exact Hres.
Qed.

Lemma step_keeps_tally (ev : event) (w : process) :
  write_granted ev = true ->
  built_here w -> tallied w ->
  built_here (fst (step pickle_dumps pickle_loads ev w))
  /\ tallied (fst (step pickle_dumps pickle_loads ev w))
  /\ pid (fst (step pickle_dumps pickle_loads ev w)) = pid w.
Proof.
  intros Hok Hbuilt Htally. destruct ev as [x env|o|o|sp relays block|state]; simpl in *.
  - rewrite put_unfold, put_try_unfold.
    destruct (pickle_dumps x) as [b|e].
    + change (monitor (appended w)) with (monitor w).
      destruct (BackgroundMonitor.get_at_exit_state (monitor w)).
      * destruct (os_write env) as [[]|]; [|discriminate].
        unfold built_here, inner_here, tallied, pending in *. simpl.
        rewrite pop_own_last. auto.
      * unfold appended. rewrite dispatch_frame.
        pose proof (dispatch_built_here env b w Hbuilt) as Hd.
        destruct (dispatch_keeps_queue env b w) as [Hq Hp].
        destruct (snd (dispatch env b w)) as [[]|e].
        -- destruct Hd as [Hb' Hpend]. cbn [fst].
           unfold built_here, inner_here, tallied, pending in *. simpl.
           rewrite Hq in Hb'. split; [exact Hb'|]. split; [|exact Hp].
           rewrite Hpend, Htally, Hp. apply repeat_snoc_length.
        -- rewrite Hd. cbn [fst].
           unfold built_here, inner_here, tallied, pending in *. simpl.
           rewrite pop_own_last. auto.
    + cbn [fst]. unfold built_here, inner_here, tallied, pending in *. simpl.
      rewrite pop_own_last. auto.
  - destruct o as [[]|]; [|discriminate].
    destruct Hbuilt as [Hpool Hiq]. unfold _worker.
    destruct (__thread_pool (pool w)) as [tc|] eqn:Htc.
    2:{ unfold built_here, inner_here, tallied. rewrite Htc. auto. }
    destruct Hpool as [Hpid Hown].
    destruct (_thread tc) as [[|]|] eqn:Hth;
      try (unfold built_here, inner_here, tallied; rewrite Htc; by auto).
    destruct (get_owned (pid w) true (_queue tc) Hown) as [Hown' Hget].
    destruct (ForkQueue_get (pid w) true (_queue tc)) as [rq r]. simpl in Hown', Hget.
    unfold tallied, pending in Htally. rewrite Htc in Htally.
    destruct (items (_queue tc)) as [|r0 rest] eqn:Hitems.
    + destruct Hget as [-> Hrq].
      unfold built_here, inner_here, tallied, pending. simpl. rewrite Hrq. auto.
    + destruct Hget as [-> Hrq].
      destruct r0 as [[b allow_raise]|].
      * unfold built_here, inner_here, tallied, pending. simpl. rewrite Hrq.
        simpl in Htally. rewrite Htally, pop_own_repeat. auto.
      * unfold built_here, inner_here, tallied, pending. simpl. rewrite Hrq. auto.
  - by apply reader_keeps_tally.
  - assert (Hfst : forall X : process * got obj,
               fst (let (w', r) := X in (w', [r])) = fst X) by (by intros []).
    rewrite Hfst. unfold get, _get_internal_queue, _init_reader_thread.
    set (q1 := match _internal_q (queue w) with
               | None => set_internal_q (Some ForkQueue_init) (queue w)
               | Some _ => queue w
               end).
    assert (Hready : forall th started,
               let w1 := set_queue (set_reader th started q1) w in
               built_here w1 /\ tallied w1 /\ pid w1 = pid w).
    { intros th started. destruct Hbuilt as [Hpool Hiq].
      unfold built_here, inner_here, tallied, pending, q1 in *. simpl.
      destruct (_internal_q (queue w)) as [iq|] eqn:Hq; simpl; rewrite ?Hq.
      - by split_and!.
      - split_and!; auto. apply owned_init. }
    assert (Hsame : set_queue q1 w = set_queue (set_reader (_reader_thread q1)
                                        (_reader_thread_started q1) q1) w).
    { by destruct q1. }
    assert (Hgo : forall w1, built_here w1 /\ tallied w1 /\ pid w1 = pid w ->
               built_here (fst (inner_get pickle_loads block w1))
               /\ tallied (fst (inner_get pickle_loads block w1))
               /\ pid (fst (inner_get pickle_loads block w1)) = pid w).
    { intros w1 (Hb1 & Ht1 & Hp1).
      destruct (inner_get_keeps_tally block w1 Hb1 Ht1) as (Hb2 & Ht2 & Hp2).
      split_and!; [exact Hb2|exact Ht2|congruence]. }
    assert (Hturns : forall w1, built_here w1 /\ tallied w1 /\ pid w1 = pid w ->
               built_here (reader_turns relays w1) /\ tallied (reader_turns relays w1)
               /\ pid (reader_turns relays w1) = pid w).
    { intros w1 (Hb1 & Ht1 & Hp1).
      destruct (reader_turns_keep_tally relays w1 Hb1 Ht1) as (Hb2 & Ht2 & Hp2).
      split_and!; [exact Hb2|exact Ht2|congruence]. }
    destruct (_reader_thread q1) as [[|]|] eqn:Hth.
    + cbv beta iota. apply Hgo. rewrite Hsame. apply Hready.
    + destruct sp as [[]|e]; cbv beta iota.
      * apply Hgo, Hturns, Hready.
      * cbn [fst]. apply Hready.
    + destruct sp as [[]|e]; cbv beta iota.
      * apply Hgo, Hturns, Hready.
      * cbn [fst]. apply Hready.
  - split_and!; [exact Hbuilt|exact Htally|reflexivity].
Qed.

Lemma run_keeps_tally (evs : list event) (w : process) :
  forallb write_granted evs = true ->
  built_here w -> tallied w ->
  built_here (fst (run_events pickle_dumps pickle_loads evs w))
  /\ tallied (fst (run_events pickle_dumps pickle_loads evs w))
  /\ pid (fst (run_events pickle_dumps pickle_loads evs w)) = pid w.
Proof.
  revert w. induction evs as [|ev evs IH]; intros w Hok Hbuilt Htally; [by split_and!|].
  simpl in Hok. apply andb_true_iff in Hok as [Hev Hok].
  destruct (step_keeps_tally ev w Hev Hbuilt Htally) as (Hb1 & Ht1 & Hp1).
  simpl. destruct (step pickle_dumps pickle_loads ev w) as [w1 out1]. simpl in *.
  destruct (IH w1 Hok Hb1 Ht1) as (Hb2 & Ht2 & Hp2).
  destruct (run_events pickle_dumps pickle_loads evs w1) as [w2 out2]. simpl in *.
  split_and!; [exact Hb2|exact Ht2|congruence].
Qed.

Lemma initial_tally (platform : string) (p : Z) (at_exit : bool) :
  built_here (process_initial platform p at_exit)
  /\ tallied (process_initial platform p at_exit).
Proof. by split_and!. Qed.

Lemma filter_repeat (p : Z) (n : nat) : filter (fun x => x = p) (repeat p n) = repeat p n.
Proof.
  induction n as [|n IH]; [reflexivity|]. simpl.
  rewrite filter_cons. destruct (decide (p = p)); [|congruence]. by rewrite IH.
Qed.

(** Along any run of one process in which no write to the pipe is
    refused (puts that fail to pickle, threads that cannot be started and
    changes of the at-exit state included), the ledger holds exactly one
    entry of the process for each write that is with the pool and not yet
    made: [_get_q_size_len()] is their number, and [is_pending()] says
    whether there is one. *)
Theorem ledger_counts_writes_with_the_pool
        (platform : string) (p : Z) (at_exit : bool) (evs : list event) :
  forallb write_granted evs = true ->
  let w := fst (run_events pickle_dumps pickle_loads evs
                  (process_initial platform p at_exit)) in
  _q_size (queue w) = repeat p (length (pending w))
  /\ _get_q_size_len None w = Z.of_nat (length (pending w))
  /\ is_pending w = negb (bool_decide (pending w = [])).
Proof.
  intros Hok w.
  destruct (initial_tally platform p at_exit) as [Hb0 Ht0].
  destruct (run_keeps_tally evs _ Hok Hb0 Ht0) as (Hb & Ht & Hp).
  fold w in Hb, Ht, Hp. simpl in Hp. unfold tallied in Ht. rewrite Hp in Ht.
  assert (Hlen : _get_q_size_len None w = Z.of_nat (length (pending w))).
  { unfold _get_q_size_len. simpl. rewrite Hp, Ht, filter_repeat, repeat_length.
    reflexivity. }
  split_and!; [exact Ht|exact Hlen|].
  unfold is_pending. rewrite Hlen.
  destruct (pending w) as [|b rest]; reflexivity.
Qed.

Lemma empty_keeps_pool (w : process) : pool (fst (empty w)) = pool w.
Proof.
  unfold empty. destruct (bool_decide _); [|reflexivity].
  destruct (_internal_q (queue w)) as [iq|]; [|reflexivity].
  by destruct (ForkQueue_empty (pid w) iq).
Qed.

Lemma empty_inner (w : process) :
  inner_here w ->
  snd (empty w) = Returns (bool_decide (relayed w ++ messages (_q (queue w)) = []))
  /\ inner_here (fst (empty w))
  /\ relayed (fst (empty w)) = relayed w
  /\ messages (_q (queue (fst (empty w)))) = messages (_q (queue w))
  /\ pid (fst (empty w)) = pid w.
Proof.
  unfold inner_here, empty, relayed. intros Hiq.
  destruct (messages (_q (queue w))) as [|m rest] eqn:Hm.
  - rewrite bool_decide_eq_true_2 by reflexivity.
    destruct (_internal_q (queue w)) as [iq|] eqn:Hq.
    + destruct (create_owned (pid w) iq Hiq) as (Hs & Hpid & Hf).
      unfold ForkQueue_empty.
      destruct (_sync iq) as [l|] eqn:Hsync; simpl.
      * unfold the_sync. rewrite Hs. unfold items. rewrite Hsync. simpl.
        split_and!; [|destruct Hiq as [Hnil _]; unfold owned; rewrite Hs, Hpid, Hf; auto
                     |rewrite Hs; unfold items; by rewrite Hsync|by rewrite ?Hm..].
        f_equal. apply bool_decide_ext. by rewrite app_nil_r.
      * unfold items. rewrite Hsync. simpl. split_and!; auto.
    + simpl. rewrite Hq, Hm. by split_and!.
  - rewrite bool_decide_eq_false_2 by discriminate. simpl. rewrite Hm.
    split_and!; auto. f_equal. symmetry. apply bool_decide_eq_false.
    intros Heq. apply app_eq_nil in Heq as [_ ?]. discriminate.
Qed.

(** [empty()] looks at the pipe and at the inner queue, not at the pool:
    it answers whether nothing is waiting to be read.  Along a run in
    which no write is refused, the queue holds nothing at all, read or
    unread, written or not, exactly when [empty()] is true and
    [is_pending()] is false; and [empty()] takes nothing out. *)
Theorem drained_iff_empty_and_not_pending
        (platform : string) (p : Z) (at_exit : bool) (evs : list event) :
  forallb write_granted evs = true ->
  let w := fst (run_events pickle_dumps pickle_loads evs
                  (process_initial platform p at_exit)) in
  snd (empty w) = Returns (bool_decide (relayed w ++ messages (_q (queue w)) = []))
  /\ in_flight (fst (empty w)) = in_flight w
  /\ (in_flight w = [] <-> snd (empty w) = Returns true /\ is_pending w = false).
Proof.
  intros Hok w.
  destruct (initial_tally platform p at_exit) as [Hb0 Ht0].
  destruct (run_keeps_tally evs _ Hok Hb0 Ht0) as (Hb & Ht & Hp).
  fold w in Hb, Ht, Hp.
  assert (Hpend : is_pending w = negb (bool_decide (pending w = []))).
  { unfold is_pending, _get_q_size_len. simpl. unfold tallied in Ht.
    rewrite Ht, filter_repeat, repeat_length.
    destruct (pending w) as [|b rest]; reflexivity. }
  destruct (empty_inner w (proj2 Hb)) as (He & _ & Hrel & Hmsg & _).
  assert (Hfl : in_flight (fst (empty w)) = in_flight w).
  { unfold in_flight. rewrite Hrel, Hmsg. f_equal. f_equal.
    unfold pending. by rewrite (empty_keeps_pool w). }
  split_and!; [exact He|exact Hfl|].
  rewrite He, Hpend. unfold in_flight. split.
  - intros Hnil. rewrite app_assoc in Hnil. apply app_eq_nil in Hnil as [Hrm Hpe].
    rewrite Hrm, Hpe. split; reflexivity.
  - intros [Hrm Hpe]. injection Hrm as Hrm. apply bool_decide_eq_true in Hrm.
    apply negb_false_iff, bool_decide_eq_true in Hpe.
    rewrite app_assoc, Hrm, Hpe. reflexivity.
Qed.

End LedgerAlongARun.

Section LedgerRunExamples.

Import Pipe SafeQueue SafeQueueBatch Sample.

(** Two puts, one write made, and the reader not started: one write is
    with the pool, one message is in the pipe. *)
Definition one_written_one_pending : list (event (obj := object)) :=
  [Put a fine; Put b fine; Worker (Returns tt)].

Lemma ledger_counts_one_pending_write :
  _get_q_size_len None
    (fst (run_events dumps loads one_written_one_pending (linux 5 false))) = 1.
Proof.
  apply (ledger_counts_writes_with_the_pool dumps loads "linux" 5 false
           one_written_one_pending).
  reflexivity.
Defined.

Lemma empty_does_not_see_the_pending_write :
  let w := fst (run_events dumps loads
                  (one_written_one_pending ++ [Get (Returns tt) [Returns tt] false])
                  (linux 5 false)) in
  snd (empty w) = Returns true /\ is_pending w = true /\ in_flight w <> [].
Proof.
  intros w.
  destruct (drained_iff_empty_and_not_pending dumps loads "linux" 5 false
              (one_written_one_pending ++ [Get (Returns tt) [Returns tt] false]) eq_refl)
    as (Hempty & _ & Hiff).
  fold w in Hempty, Hiff.
  split_and!; [exact Hempty|reflexivity|].
  intros Hnil. apply Hiff in Hnil as [_ Hpend]. discriminate.
Defined.

End LedgerRunExamples.

Section BatchGetFacts.

Import Pipe ForkSafe SafeQueue SafeQueueBatch.
Context {obj : Type}.
Variable pickle_dumps : obj -> outcome bytes.
Variable pickle_loads : bytes -> outcome obj.

Lemma empty_returns (w : process) : exists b, snd (empty w) = Returns b.
Proof.
  unfold empty. destruct (bool_decide _); [|by eexists].
  destruct (_internal_q (queue w)) as [iq|]; [|by eexists].
  unfold ForkQueue_empty. destruct (_sync iq); by eexists.
Qed.

Lemma get_never_blocks (sp : outcome unit) (relays : list (outcome unit)) (w : process) :
  snd (_get_internal_queue pickle_loads sp relays false w) <> Blocked.
Proof.
  unfold _get_internal_queue, inner_get.
  destruct (_init_reader_thread sp relays w) as [w1 [[]|e]]; [|discriminate].
  destruct (_internal_q (queue w1)) as [iq|]; [|discriminate].
  unfold ForkQueue_get. destruct (the_sync (_create (pid w1) iq)) as [|b rest].
  - discriminate.
  - simpl. destruct (pickle_loads b); discriminate.
Qed.

Local Abbreviation len l := (Z.of_nat (length l)).

Lemma take_ready_returns (sp : outcome unit) (relays : list (outcome unit))
      (max_items : Z) (fuel : nat) :
  forall (buffer : list obj) (ec : Z) (w : process),
    Z.max 0 (max_items - len buffer) < Z.of_nat fuel ->
    exists w' r,
      take_ready pickle_loads fuel sp relays max_items buffer ec w = Some (w', r)
      /\ forall buf' ec', r = Returns (buf', ec') ->
           len buf' <= Z.max (len buffer) max_items
           /\ ((len buf' = len buffer /\ ec' = ec) \/ (len buffer < len buf' /\ ec' = 0)).
Proof.
  induction fuel as [|fuel IH]; intros buffer ec w Hfuel; [lia|].
  simpl. destruct (empty_returns w) as [b Hb].
  destruct (empty w) as [w1 r1]. simpl in Hb. subst r1.
  destruct (negb b && (len buffer <? max_items)) eqn:Hgo.
  2:{ eexists _, _. split; [reflexivity|]. intros buf' ec' [= <- <-]. lia. }
  apply andb_true_iff in Hgo as [_ Hlt]. apply Z.ltb_lt in Hlt.
  pose proof (get_never_blocks sp relays w1) as Hnb.
  destruct (_get_internal_queue pickle_loads sp relays false w1) as [w2 [x| |e]].
  - destruct (IH (buffer ++ [x]) 0 w2) as (w' & r & Hrun & Hres).
    { rewrite length_app. simpl. lia. }
    exists w', r. split; [exact Hrun|].
    intros buf' ec' Hr. specialize (Hres buf' ec' Hr).
    rewrite length_app in Hres. simpl in Hres. lia.
  - by destruct Hnb.
  - destruct e; eexists _, _; (split; [reflexivity|]); intros buf' ec' [=]; subst; lia.
Qed.

Lemma batch_loop_returns (sp : outcome unit) (relays : list (outcome unit))
      (max_items timeout_count : Z) (fuel : nat) :
  forall (naps : list (list event)) (buffer : list obj) (ec : Z) (w : process),
    Z.max 0 (max_items - len buffer) * (Z.max 0 timeout_count + 2)
    + Z.max 0 (timeout_count + 1 - ec) < Z.of_nat fuel ->
    exists w' r,
      batch_loop pickle_dumps pickle_loads fuel sp relays naps max_items timeout_count
                 buffer ec w
      = Some (w', r)
      /\ forall buf, r = Returns buf -> len buf <= Z.max (len buffer) max_items.
Proof.
  induction fuel as [|fuel IH]; intros naps buffer ec w Hfuel.
  { pose proof (Z.mul_nonneg_nonneg (Z.max 0 (max_items - len buffer))
                  (Z.max 0 timeout_count + 2)). lia. }
  cbn [batch_loop].
  destruct (len buffer <? max_items) eqn:Hlt.
  2:{ eexists _, _. split; [reflexivity|]. intros buf [= <-]. lia. }
  apply Z.ltb_lt in Hlt.
  destruct (take_ready_returns sp relays max_items (S fuel) buffer ec w)
    as (w1 & r1 & Hrun & Hres).
  { assert (Hmul : Z.max 0 (max_items - len buffer) * 1
                   <= Z.max 0 (max_items - len buffer) * (Z.max 0 timeout_count + 2))
      by (apply Z.mul_le_mono_nonneg_l; lia).
    lia. }
  rewrite Hrun. destruct r1 as [[buf1 ec1]|e].
  2:{ eexists _, _. split; [reflexivity|]. discriminate. }
  destruct (Hres buf1 ec1 eq_refl) as [Hmax Hgain].
  destruct ((timeout_count <? ec1 + 1) || (max_items <=? len buf1)) eqn:Hstop.
  { eexists _, _. split; [reflexivity|]. intros buf [= <-]. exact Hmax. }
  apply orb_false_iff in Hstop as [Htc Hfull].
  apply Z.ltb_ge in Htc. apply Z.leb_gt in Hfull.
  destruct (IH (tl naps) buf1 (ec1 + 1)
              (fst (run_events pickle_dumps pickle_loads (hd [] naps) w1)))
    as (w' & r & Hrun' & Hres').
  { rewrite Nat2Z.inj_succ in Hfuel.
    rewrite (Z.max_r 0 (max_items - len buffer)) in Hfuel by lia.
    rewrite (Z.max_r 0 (max_items - len buf1)) by lia.
    destruct Hgain as [[Hsame ->]|[Hmore ->]].
    - rewrite Hsame. lia.
    - assert (Hmul : (max_items - len buf1) * (Z.max 0 timeout_count + 2)
                     <= (max_items - len buffer - 1) * (Z.max 0 timeout_count + 2))
        by (apply Z.mul_le_mono_nonneg_r; lia).
      rewrite Z.mul_sub_distr_r in Hmul. lia. }
  exists w', r. split; [exact Hrun'|].
  intros buf Hr. specialize (Hres' buf Hr). lia.
Qed.

(** [batch_get] returns, whatever the other threads do while it sleeps
    or waits for the reader thread and whatever the system answers:
    [max_items * (timeout_count + 2) + 2] rounds are enough.  When it
    returns a list, the list has at most [max_items] objects (none when
    [max_items] is not positive). *)
Theorem batch_get_returns_at_most_max_items
        (sp : outcome unit) (relays : list (outcome unit)) (naps : list (list event))
        (max_items timeout_count : Z) (w : process) (fuel : nat) :
  Z.max 0 max_items * (Z.max 0 timeout_count + 2) + 1 < Z.of_nat fuel ->
  exists w' r,
    batch_get pickle_dumps pickle_loads fuel sp relays naps max_items timeout_count w
    = Some (w', r)
    /\ forall buffer, r = Returns buffer -> len buffer <= Z.max 0 max_items.
Proof.
  intros Hfuel. unfold batch_get.
  destruct (batch_loop_returns sp relays max_items timeout_count fuel naps [] timeout_count w)
    as (w' & r & Hrun & Hres).
  { simpl. rewrite Z.sub_0_r. lia. }
  exists w', r. split; [exact Hrun|]. intros buffer Hr. apply (Hres buffer Hr).
Qed.



(** *** What [batch_get] takes *)

(** [empty()] leaves the queue as it is. *)
Lemma empty_same (w : process) : inner_here w -> fst (empty w) = w.
Proof.
  unfold inner_here, empty. intros Hiq.
  destruct (bool_decide _); [|reflexivity].
  destruct (_internal_q (queue w)) as [iq|] eqn:Hq; [|reflexivity].
  unfold ForkQueue_empty. destruct (_sync iq) as [l|] eqn:Hsync; cbn [fst].
  - destruct Hiq as [_ [Hnone|Hpid]]; [congruence|].
    unfold _create, stale. rewrite Hpid, Hsync. simpl. rewrite Z.eqb_refl. simpl.
    destruct w as [p c pl q]. destruct q. simpl in *. by rewrite Hq.
  - destruct w as [p c pl q]. destruct q. simpl in *. by rewrite Hq.
Qed.

(** The read of the inner queue. *)
Lemma inner_get_now (w : process) :
  inner_here w ->
  is_Some (_internal_q (queue w)) ->
  let r := inner_get pickle_loads false w in
  inner_here (fst r)
  /\ pid (fst r) = pid w
  /\ messages (_q (queue (fst r))) = messages (_q (queue w))
  /\ _reader_thread (queue (fst r)) = _reader_thread (queue w)
  /\ match relayed w with
     | b :: rest =>
         relayed (fst r) = rest
         /\ snd r = match pickle_loads b with
                    | Returns x => Got x
                    | Raises e => Failed e
                    end
     | [] => relayed (fst r) = [] /\ snd r = Failed QueueEmpty
     end.
Proof.
  unfold inner_here, inner_get, relayed. intros Hiq [iq Hq]. rewrite Hq in *.
  destruct (get_owned (pid w) false iq Hiq) as [Hown' Hget].
  destruct (ForkQueue_get (pid w) false iq) as [iq' g]. simpl in Hown', Hget.
  destruct (items iq) as [|b rest].
  - destruct Hget as [-> Hrest]. simpl. rewrite Hrest. split; [exact Hown'|by split_and!].
  - destruct Hget as [-> Hrest]. destruct (pickle_loads b); simpl; rewrite Hrest;
      (split; [exact Hown'|by split_and!]).
Qed.

Lemma take_succ {A : Type} (n : nat) (l : list A) :
  take (S n) l = take 1 l ++ take n (drop 1 l).
Proof. destruct l as [|x l]; [by destruct n|]. simpl. by rewrite ?take_0, ?drop_0. Qed.

(** One turn of the reader moves at most one message, the oldest of
    the pipe, to the end of the inner queue. *)
Lemma reader_moves (o : outcome unit) (w : process) :
  inner_here w ->
  is_Some (_internal_q (queue w)) ->
  inner_here (_reader_daemon o w)
  /\ is_Some (_internal_q (queue (_reader_daemon o w)))
  /\ pid (_reader_daemon o w) = pid w
  /\ exists moved,
       relayed (_reader_daemon o w) = relayed w ++ moved
       /\ moved ++ messages (_q (queue (_reader_daemon o w))) = messages (_q (queue w))
       /\ (_reader_thread (queue w) <> Some true -> _reader_daemon o w = w)
       /\ (o = Returns tt -> _reader_thread (queue w) = Some true ->
           _reader_thread (queue (_reader_daemon o w)) = Some true
           /\ moved = take 1 (messages (_q (queue w)))).
Proof.
  unfold inner_here, relayed. intros Hiq [iq Hq]. rewrite Hq in Hiq.
  assert (Hstay : forall w', w' = w \/ w' = set_queue (set_reader (Some false)
                     (_reader_thread_started (queue w)) (queue w)) w ->
            (o = Returns tt -> _reader_thread (queue w) = Some true ->
             w' = w /\ messages (_q (queue w)) = []) ->
            (_reader_thread (queue w) <> Some true -> w' = w) ->
            match _internal_q (queue w') with
            | Some iq0 => owned (pid w') iq0
            | None => True
            end
            /\ is_Some (_internal_q (queue w'))
            /\ pid w' = pid w
            /\ exists moved,
                 match _internal_q (queue w') with Some iq0 => items iq0 | None => [] end
                 = match _internal_q (queue w) with Some iq0 => items iq0 | None => [] end
                   ++ moved
                 /\ moved ++ messages (_q (queue w')) = messages (_q (queue w))
                 /\ (_reader_thread (queue w) <> Some true -> w' = w)
                 /\ (o = Returns tt -> _reader_thread (queue w) = Some true ->
                     _reader_thread (queue w') = Some true
                     /\ moved = take 1 (messages (_q (queue w))))).
  { intros w' Hw' Hgood Hidle.
    assert (Hfields : _internal_q (queue w') = Some iq /\ pid w' = pid w
                      /\ _q (queue w') = _q (queue w)).
    { destruct Hw' as [->| ->]; simpl; auto. }
    destruct Hfields as (Hq' & Hp' & Hm'). rewrite Hq', Hp', Hq, Hm'.
    split_and!; [exact Hiq|by eexists|reflexivity|].
    exists []. rewrite app_nil_r. split_and!; [reflexivity|reflexivity|exact Hidle|].
    intros Ho Hth. destruct (Hgood Ho Hth) as [-> Hnil]. by rewrite Hnil. }
  unfold _reader_daemon.
  destruct (_reader_thread (queue w)) as [[|]|] eqn:Hth.
  - destruct o as [[]|e].
    + destruct (messages (_q (queue w))) as [|b rest] eqn:Hmsg.
      * apply Hstay; [by left|by intros|done].
      * rewrite Hq. destruct (put_owned (pid w) b iq Hiq) as [Hown' Hitems].
        simpl. split_and!; [exact Hown'|by eexists|reflexivity|].
        exists [b]. rewrite Hitems. by split_and!.
    + apply Hstay; [by right|discriminate|done].
  - apply Hstay; [by left|discriminate|done].
  - apply Hstay; [by left|discriminate|done].
Qed.

(** The turns of the reader while a caller waits for it. *)
Lemma reader_turns_move (relays : list (outcome unit)) (w : process) :
  inner_here w ->
  is_Some (_internal_q (queue w)) ->
  inner_here (reader_turns relays w)
  /\ is_Some (_internal_q (queue (reader_turns relays w)))
  /\ pid (reader_turns relays w) = pid w
  /\ exists moved,
       relayed (reader_turns relays w) = relayed w ++ moved
       /\ moved ++ messages (_q (queue (reader_turns relays w))) = messages (_q (queue w))
       /\ (relays = [] -> moved = [])
       /\ (forallb granted relays = true -> _reader_thread (queue w) = Some true ->
           _reader_thread (queue (reader_turns relays w)) = Some true
           /\ moved = take (length relays) (messages (_q (queue w)))).
Proof.
  revert w. induction relays as [|o relays IH]; intros w Hin Hq.
  { split_and!; auto. exists []. rewrite app_nil_r. by split_and!. }
  unfold reader_turns. cbn [fold_left]. fold (reader_turns relays (_reader_daemon o w)).
  destruct (reader_moves o w Hin Hq) as (Hin1 & Hq1 & Hp1 & m1 & Hr1 & Hm1 & _ & Hgood1).
  destruct (IH _ Hin1 Hq1) as (Hin2 & Hq2 & Hp2 & m2 & Hr2 & Hm2 & _ & Hgood2).
  split_and!; [exact Hin2|exact Hq2|congruence|].
  exists (m1 ++ m2). split_and!.
  - by rewrite Hr2, Hr1, app_assoc.
  - by rewrite <- app_assoc, Hm2, Hm1.
  - discriminate.
  - intros Hok Hth. simpl in Hok. apply andb_true_iff in Hok as [Ho Hok].
    apply granted_unit in Ho. destruct (Hgood1 Ho Hth) as [Hth1 ->].
    destruct (Hgood2 Hok Hth1) as [Hth2 ->]. split; [exact Hth2|].
    cbn [length]. rewrite (take_succ (length relays) (messages (_q (queue w)))).
    f_equal. f_equal.
    destruct (messages (_q (queue w))) as [|b rest]; simpl in Hm1 |- *.
    + exact Hm1.
    + rewrite ?take_0 in Hm1. simpl in Hm1. rewrite ?drop_0. congruence.
Qed.

(** A read that is granted its reader thread.  When it has to start the
    thread, what the reader relays during the wait is behind what the
    inner queue held. *)
Lemma get_moves (relays : list (outcome unit)) (w : process) :
  inner_here w ->
  let r := _get_internal_queue pickle_loads (Returns tt) relays false w in
  inner_here (fst r)
  /\ pid (fst r) = pid w
  /\ exists moved,
       moved ++ messages (_q (queue (fst r))) = messages (_q (queue w))
       /\ (_reader_thread (queue w) = Some true ->
           moved = [] /\ _reader_thread (queue (fst r)) = Some true)
       /\ (relays = [] -> moved = [])
       /\ (_reader_thread (queue w) <> Some true -> forallb granted relays = true ->
           moved = take (length relays) (messages (_q (queue w)))
           /\ _reader_thread (queue (fst r)) = Some true)
       /\ match relayed w ++ moved with
          | b :: rest =>
              relayed (fst r) = rest
              /\ snd r = match pickle_loads b with
                         | Returns x => Got x
                         | Raises e => Failed e
                         end
          | [] => relayed (fst r) = [] /\ snd r = Failed QueueEmpty
          end.
Proof.
  intros Hin. unfold _get_internal_queue, _init_reader_thread.
  set (q1 := match _internal_q (queue w) with
             | None => set_internal_q (Some ForkQueue_init) (queue w)
             | Some _ => queue w
             end).
  assert (Hready : forall th started,
             let w1 := set_queue (set_reader th started q1) w in
             inner_here w1 /\ is_Some (_internal_q (queue w1)) /\ pid w1 = pid w
             /\ relayed w1 = relayed w /\ _q (queue w1) = _q (queue w)
             /\ _reader_thread (queue w1) = th).
  { intros th started. unfold inner_here, relayed, q1 in *. simpl.
    destruct (_internal_q (queue w)) as [iq|] eqn:Hq; simpl; rewrite ?Hq.
    - split_and!; eauto.
    - split_and!; eauto. apply owned_init. }
  assert (Hsame : set_queue q1 w = set_queue (set_reader (_reader_thread q1)
                                      (_reader_thread_started q1) q1) w).
  { by destruct q1. }
  assert (Hth1 : _reader_thread q1 = _reader_thread (queue w)).
  { unfold q1. by destruct (_internal_q (queue w)). }
  destruct (_reader_thread q1) as [[|]|] eqn:Hth; cbv beta iota.
  - rewrite Hsame.
    destruct (Hready (Some true) (_reader_thread_started q1))
      as (Hin1 & Hq1 & Hp1 & Hr1 & Hm1 & Ht1).
    destruct (inner_get_now _ Hin1 Hq1) as (Hin2 & Hp2 & Hm2 & Ht2 & Hget).
    split_and!; [exact Hin2|congruence|].
    exists []. rewrite app_nil_r, <- Hr1. split_and!.
    + simpl. by rewrite Hm2, Hm1.
    + intros _. split; [reflexivity|congruence].
    + done.
    + intros Hne. congruence.
    + exact Hget.
  - destruct (Hready (Some true) true) as (Hin1 & Hq1 & Hp1 & Hr1 & Hm1 & Ht1).
    destruct (reader_turns_move relays _ Hin1 Hq1)
      as (Hin2 & Hq2 & Hp2 & moved & Hr2 & Hm2 & Hnil & Hgood).
    destruct (inner_get_now _ Hin2 Hq2) as (Hin3 & Hp3 & Hm3 & Ht3 & Hget).
    split_and!; [exact Hin3|congruence|].
    exists moved. rewrite <- Hr1, <- Hr2. split_and!.
    + by rewrite Hm3, Hm2, Hm1.
    + intros Hne. congruence.
    + exact Hnil.
    + intros _ Hok. destruct (Hgood Hok Ht1) as [Ht2 ->]. rewrite Hm1.
      split; [reflexivity|congruence].
    + exact Hget.
  - destruct (Hready (Some true) true) as (Hin1 & Hq1 & Hp1 & Hr1 & Hm1 & Ht1).
    destruct (reader_turns_move relays _ Hin1 Hq1)
      as (Hin2 & Hq2 & Hp2 & moved & Hr2 & Hm2 & Hnil & Hgood).
    destruct (inner_get_now _ Hin2 Hq2) as (Hin3 & Hp3 & Hm3 & Ht3 & Hget).
    split_and!; [exact Hin3|congruence|].
    exists moved. rewrite <- Hr1, <- Hr2. split_and!.
    + by rewrite Hm3, Hm2, Hm1.
    + intros Hne. congruence.
    + exact Hnil.
    + intros _ Hok. destruct (Hgood Hok Ht1) as [Ht2 ->]. rewrite Hm1.
      split; [reflexivity|congruence].
    + exact Hget.
Qed.

(** [empty()], on a queue whose inner queue is of this process. *)
Lemma empty_now (w : process) :
  inner_here w ->
  empty w = (w, Returns (bool_decide (relayed w ++ messages (_q (queue w)) = []))).
Proof.
  intros Hin. destruct (empty_inner w Hin) as (He & _).
  pose proof (empty_same w Hin) as Hsame.
  destruct (empty w) as [w1 r]. simpl in *. congruence.
Qed.

(** The inner loop while the reader runs: it takes what the reader has
    relayed, oldest first, until the buffer is full or there is none
    left. *)
Lemma take_ready_relayed (relays : list (outcome unit)) (max_items : Z) (bs : list bytes) :
  forall (xs : list obj) (fuel : nat) (buffer : list obj) (ec : Z) (w : process),
    inner_here w ->
    _reader_thread (queue w) = Some true ->
    relayed w = bs ->
    Forall2 (fun b x => pickle_loads b = Returns x) bs xs ->
    Z.max 0 (max_items - len buffer) < Z.of_nat fuel ->
    let k := Z.to_nat (max_items - len buffer) in
    exists w',
      take_ready pickle_loads fuel (Returns tt) relays max_items buffer ec w
      = Some (w', Returns (buffer ++ take k xs,
                           match take k xs with [] => ec | _ => 0 end))
      /\ inner_here w'
      /\ _reader_thread (queue w') = Some true
      /\ relayed w' = drop k bs
      /\ messages (_q (queue w')) = messages (_q (queue w))
      /\ pid w' = pid w.
Proof.
  induction bs as [|b bs IH]; intros xs fuel buffer ec w Hin Hth Hrel Hload Hfuel k.
  - apply Forall2_nil_inv_l in Hload. subst xs.
    destruct fuel as [|fuel]; [lia|]. cbn [take_ready].
    rewrite (empty_now w Hin), Hrel.
    rewrite take_nil, drop_nil, app_nil_r.
    destruct (negb _ && _).
    + destruct (get_moves relays w Hin) as (Hin2 & Hp2 & moved & Hm2 & Hrun & _ & _ & Hget).
      destruct (Hrun Hth) as [-> Hth2]. rewrite app_nil_r, Hrel in Hget. simpl in Hget, Hm2.
      destruct Hget as [Hrel2 Hres].
      destruct (_get_internal_queue pickle_loads (Returns tt) relays false w) as [w2 g].
      simpl in *. subst g. exists w2. by split_and!.
    + exists w. by split_and!.
  - apply Forall2_cons_inv_l in Hload as (x & xs' & Hx & Hload & ->).
    destruct fuel as [|fuel]; [lia|]. cbn [take_ready].
    rewrite (empty_now w Hin), Hrel.
    rewrite bool_decide_eq_false_2 by discriminate. cbn [negb andb].
    destruct (len buffer <? max_items) eqn:Hlt.
    + apply Z.ltb_lt in Hlt.
      destruct (get_moves relays w Hin) as (Hin2 & Hp2 & moved & Hm2 & Hrun & _ & _ & Hget).
      destruct (Hrun Hth) as [-> Hth2]. rewrite app_nil_r, Hrel in Hget. simpl in Hget, Hm2.
      rewrite Hx in Hget. destruct Hget as [Hrel2 Hres].
      destruct (_get_internal_queue pickle_loads (Returns tt) relays false w) as [w2 g].
      simpl in Hin2, Hp2, Hrel2, Hres, Hth2, Hm2. subst g.
      destruct (IH xs' fuel (buffer ++ [x]) 0 w2 Hin2 Hth2 Hrel2 Hload)
        as (w' & Hrun' & Hin' & Hth' & Hrel' & Hm' & Hp').
      { rewrite length_app. simpl. lia. }
      assert (Hk : k = S (Z.to_nat (max_items - len (buffer ++ [x])))).
      { unfold k. rewrite length_app. simpl. lia. }
      rewrite Hk. cbn [take drop]. exists w'.
      split_and!; [|exact Hin'|exact Hth'|exact Hrel'|congruence|congruence].
      rewrite Hrun'. rewrite <- app_assoc. simpl.
      by destruct (take _ xs').
    + apply Z.ltb_ge in Hlt.
      assert (Hk : k = 0%nat) by (unfold k; lia).
      rewrite Hk. cbn [take drop]. rewrite app_nil_r.
      exists w. by split_and!.
Qed.

(** When nothing can arrive, because the inner queue is empty and the
    reader runs without taking a turn, or the pipe is empty too, the inner
    loop takes nothing. *)
Definition settled (w : process) : Prop :=
  relayed w = []
  /\ (_reader_thread (queue w) = Some true \/ messages (_q (queue w)) = []).

Lemma take_ready_quiet (relays : list (outcome unit)) (max_items : Z) (fuel : nat)
      (buffer : list obj) (ec : Z) (w w' : process) (r : outcome (list obj * Z)) :
  inner_here w ->
  settled w ->
  take_ready pickle_loads fuel (Returns tt) relays max_items buffer ec w = Some (w', r) ->
  r = Returns (buffer, ec) /\ inner_here w' /\ settled w'
  /\ messages (_q (queue w')) = messages (_q (queue w)).
Proof.
  intros Hin [Hrel Hidle]. destruct fuel as [|fuel]; [discriminate|]. cbn [take_ready].
  rewrite (empty_now w Hin), Hrel. cbn [app].
  destruct (negb _ && _) eqn:Hgo.
  - apply andb_true_iff in Hgo as [Hne _].
    apply negb_true_iff, bool_decide_eq_false in Hne.
    destruct Hidle as [Hth|Hnil]; [|done].
    destruct (get_moves relays w Hin) as (Hin2 & _ & moved & Hm2 & Hrun & _ & _ & Hget).
    destruct (Hrun Hth) as [-> Hth2]. rewrite app_nil_r, Hrel in Hget. simpl in Hget, Hm2.
    destruct Hget as [Hrel2 Hres].
    destruct (_get_internal_queue pickle_loads (Returns tt) relays false w) as [w2 g].
    simpl in *. subst g. intros [= <- <-]. split_and!; auto. split; auto.
  - intros [= <- <-]. by split_and!.
Qed.

Lemma batch_loop_quiet (relays : list (outcome unit)) (max_items timeout_count : Z)
      (fuel : nat) :
  forall (buffer : list obj) (ec : Z) (w w' : process) (r : outcome (list obj)),
    inner_here w ->
    settled w ->
    batch_loop pickle_dumps pickle_loads fuel (Returns tt) relays [] max_items
               timeout_count buffer ec w = Some (w', r) ->
    r = Returns buffer /\ relayed w' = []
    /\ messages (_q (queue w')) = messages (_q (queue w)).
Proof.
  induction fuel as [|fuel IH]; intros buffer ec w w' r Hin Hset; [discriminate|].
  cbn [batch_loop].
  destruct (len buffer <? max_items); [|intros [= <- <-]; split_and!; auto; apply Hset].
  destruct (take_ready pickle_loads (S fuel) (Returns tt) relays max_items buffer ec w)
    as [[w1 r1]|] eqn:Hrun; [|discriminate].
  destruct (take_ready_quiet _ _ _ _ _ _ _ _ Hin Hset Hrun) as (-> & Hin1 & Hset1 & Hm1).
  destruct (_ || _).
  - intros [= <- <-]. split_and!; auto. apply Hset1.
  - cbn [hd tl run_events fst]. intros Hloop.
    destruct (IH _ _ _ _ _ Hin1 Hset1 Hloop) as (-> & Hrel' & Hm').
    split_and!; auto. congruence.
Qed.

(** What the reader relays while [batch_get] waits for it to start:
    as many messages of the pipe as it makes reads, and nothing when it
    runs already, since [batch_get] does not wait then. *)
Definition arrives (relays : list (outcome unit)) (w : process) : list bytes :=
  if bool_decide (_reader_thread (queue w) = Some true) then []
  else take (length relays) (messages (_q (queue w))).

(** The first pass of the inner loop, which may start the reader. *)
Lemma take_ready_first (relays : list (outcome unit)) (max_items : Z)
      (xs : list obj) (fuel : nat) (buffer : list obj) (ec : Z) (w : process) :
  inner_here w ->
  forallb granted relays = true ->
  Forall2 (fun b x => pickle_loads b = Returns x) (relayed w ++ arrives relays w) xs ->
  Z.max 0 (max_items - len buffer) < Z.of_nat fuel ->
  let k := Z.to_nat (max_items - len buffer) in
  exists w',
    take_ready pickle_loads fuel (Returns tt) relays max_items buffer ec w
    = Some (w', Returns (buffer ++ take k xs,
                         match take k xs with [] => ec | _ => 0 end))
    /\ inner_here w'
    /\ ((0 < k)%nat ->
        relayed w' = drop k (relayed w ++ arrives relays w)
        /\ messages (_q (queue w'))
           = drop (length (arrives relays w)) (messages (_q (queue w)))
        /\ (_reader_thread (queue w') = Some true \/ messages (_q (queue w')) = [])).
Proof.
  intros Hin Hok Hload Hfuel k.
  destruct fuel as [|fuel]; [lia|]. cbn [take_ready].
  rewrite (empty_now w Hin).
  destruct (len buffer <? max_items) eqn:Hlt.
  2:{ apply Z.ltb_ge in Hlt. rewrite andb_false_r.
      assert (Hk : k = 0%nat) by (unfold k; lia).
      rewrite Hk. cbn [take]. rewrite app_nil_r. exists w. split_and!; auto. lia. }
  apply Z.ltb_lt in Hlt. rewrite andb_true_r.
  destruct (bool_decide (relayed w ++ messages (_q (queue w)) = [])) eqn:Hempty.
  { apply bool_decide_eq_true in Hempty. apply app_eq_nil in Hempty as [Hr Hm].
    assert (Harr : arrives relays w = []).
    { unfold arrives. rewrite Hm, take_nil. by destruct (bool_decide _). }
    rewrite Hr, Harr in Hload |- *. apply Forall2_nil_inv_l in Hload. subst xs.
    rewrite take_nil, app_nil_r. cbn [negb].
    exists w. split_and!; auto. intros _. cbn [app]. rewrite ?Hr, ?Hm, ?drop_nil.
    split_and!; [reflexivity|reflexivity|by right]. }
  cbn [negb].
  destruct (get_moves relays w Hin)
    as (Hin2 & Hp2 & moved & Hm2 & Hrun & _ & Hstart & Hget).
  assert (Hmoved : moved = arrives relays w
                   /\ _reader_thread
                        (queue (fst (_get_internal_queue pickle_loads (Returns tt) relays
                                       false w))) = Some true).
  { unfold arrives. destruct (decide (_reader_thread (queue w) = Some true)) as [Hth|Hth].
    - rewrite bool_decide_eq_true_2 by done. apply (Hrun Hth).
    - rewrite bool_decide_eq_false_2 by done. apply (Hstart Hth Hok). }
  destruct Hmoved as [-> Hth2].
  assert (Hmsg : messages (_q (queue (fst (_get_internal_queue pickle_loads (Returns tt)
                                             relays false w))))
                 = drop (length (arrives relays w)) (messages (_q (queue w)))).
  { rewrite <- Hm2. by rewrite drop_app_length. }
  destruct (_get_internal_queue pickle_loads (Returns tt) relays false w) as [w2 g].
  cbn [fst snd] in *.
  destruct (relayed w ++ arrives relays w) as [|b rest] eqn:Hbs.
  - apply Forall2_nil_inv_l in Hload. subst xs. destruct Hget as [Hrel2 ->].
    rewrite take_nil, app_nil_r. exists w2. split_and!; auto.
    intros _. rewrite drop_nil. split_and!; auto.
  - apply Forall2_cons_inv_l in Hload as (x & xs' & Hx & Hload & ->).
    rewrite Hx in Hget. destruct Hget as [Hrel2 ->].
    destruct (take_ready_relayed relays max_items rest xs' fuel (buffer ++ [x]) 0 w2
                Hin2 Hth2 Hrel2 Hload)
      as (w' & Hrun' & Hin' & Hth' & Hrel' & Hm' & Hp').
    { rewrite length_app. simpl. lia. }
    assert (Hk : k = S (Z.to_nat (max_items - len (buffer ++ [x])))).
    { unfold k. rewrite length_app. simpl. lia. }
    rewrite Hk. cbn [take drop]. exists w'. split_and!; auto.
    + rewrite Hrun'. rewrite <- app_assoc. simpl. by destruct (take _ xs').
    + intros _. split_and!; auto. congruence.
Qed.

(** With the messages all unpickling and no other thread at work while
    [batch_get] sleeps: [batch_get] returns the first [max_items] objects
    of what the inner queue holds followed by what the reader relays while
    [batch_get] waits for it to start, oldest first, and leaves the others
    in the inner queue.  So the messages that were still on the pipe are
    returned when the call has to start the reader, and are not when the
    reader is running and does not take a turn during the call. *)
Theorem batch_get_takes_oldest_first
        (relays : list (outcome unit)) (max_items timeout_count : Z) (xs : list obj)
        (w : process) (fuel : nat) :
  inner_here w ->
  forallb granted relays = true ->
  Forall2 (fun b x => pickle_loads b = Returns x) (relayed w ++ arrives relays w) xs ->
  Z.max 0 max_items * (Z.max 0 timeout_count + 2) + 1 < Z.of_nat fuel ->
  exists w',
    batch_get pickle_dumps pickle_loads fuel (Returns tt) relays [] max_items
              timeout_count w
    = Some (w', Returns (take (Z.to_nat max_items) xs))
    /\ (0 < max_items ->
        relayed w' = drop (Z.to_nat max_items) (relayed w ++ arrives relays w)
        /\ messages (_q (queue w'))
           = drop (length (arrives relays w)) (messages (_q (queue w)))).
Proof.
  intros Hin Hok Hload Hfuel.
  unfold batch_get.
  destruct (batch_loop_returns (Returns tt) relays max_items timeout_count fuel [] []
              timeout_count w) as (w' & r & Hrun & _).
  { simpl. rewrite Z.sub_0_r. lia. }
  rewrite Hrun.
  destruct fuel as [|fuel]; [discriminate|]. cbn [batch_loop] in Hrun.
  change (len (@nil obj)) with 0 in Hrun.
  destruct (0 <? max_items) eqn:Hpos.
  2:{ apply Z.ltb_ge in Hpos. injection Hrun as <- <-.
      replace (Z.to_nat max_items) with 0%nat by lia.
      exists w. rewrite take_0. split; [reflexivity|lia]. }
  apply Z.ltb_lt in Hpos.
  destruct (take_ready_first relays max_items xs (S fuel) [] timeout_count w Hin Hok Hload)
    as (w1 & Hfirst & Hin1 & Hafter).
  { assert (Hmul : Z.max 0 max_items * 1 <= Z.max 0 max_items * (Z.max 0 timeout_count + 2))
      by (apply Z.mul_le_mono_nonneg_l; lia).
    simpl. lia. }
  change (len (@nil obj)) with 0 in Hfirst, Hafter.
  rewrite Z.sub_0_r in Hfirst, Hafter. cbn [app] in Hfirst.
  rewrite Hfirst in Hrun.
  set (k := Z.to_nat max_items) in *.
  destruct Hafter as (Hrel1 & Hm1 & Hidle1); [unfold k; lia|].
  destruct (_ || (max_items <=? len (take k xs))) eqn:Hstop.
  - injection Hrun as <- <-. exists w1. auto.
  - cbn [hd tl run_events fst] in Hrun.
    apply orb_false_iff in Hstop as [_ Hfull]. apply Z.leb_gt in Hfull.
    rewrite length_take in Hfull.
    assert (Hall : (length xs <= k)%nat) by (unfold k in *; lia).
    assert (Hlen : length (relayed w ++ arrives relays w) = length xs)
      by (eapply Forall2_length; eauto).
    rewrite drop_ge in Hrel1 by lia.
    destruct (batch_loop_quiet _ _ _ _ _ _ _ _ _ Hin1 (conj Hrel1 Hidle1) Hrun)
      as (-> & Hrel' & Hm').
    exists w'. split; [reflexivity|]. intros _. rewrite drop_ge by lia.
    split; [exact Hrel'|congruence].
Qed.

(** A relayed message that does not unpickle makes [batch_get] raise, and
    what it had taken before is lost: the objects are neither returned
    nor in the queue any more.  The inner queue is left with the messages
    that followed, and behind them what the reader relayed while
    [batch_get] waited for it: nothing when the reader was running, or
    made no read. *)
Theorem batch_get_loses_the_batch_when_unpickling_fails
        (relays : list (outcome unit)) (naps : list (list event))
        (max_items timeout_count : Z)
        (b1 b2 : bytes) (rest : list bytes) (x : obj) (e : exn)
        (w : process) (fuel : nat) :
  inner_here w ->
  relayed w = b1 :: b2 :: rest ->
  pickle_loads b1 = Returns x ->
  pickle_loads b2 = Raises e ->
  e <> QueueEmpty ->
  2 <= max_items ->
  exists w' moved,
    batch_get pickle_dumps pickle_loads (S (S fuel)) (Returns tt) relays naps max_items
              timeout_count w = Some (w', Raises e)
    /\ relayed w' = rest ++ moved
    /\ moved ++ messages (_q (queue w')) = messages (_q (queue w))
    /\ (_reader_thread (queue w) = Some true \/ relays = [] -> moved = []).
Proof.
  intros Hin Hrel Hx Hbad Hne Hmax. unfold batch_get. cbn [batch_loop].
  change (len (@nil obj)) with 0.
  replace (0 <? max_items) with true by (symmetry; apply Z.ltb_lt; lia).
  cbn [take_ready].
  rewrite (empty_now w Hin), Hrel.
  rewrite bool_decide_eq_false_2 by discriminate.
  change (len (@nil obj)) with 0.
  replace (0 <? max_items) with true by (symmetry; apply Z.ltb_lt; lia).
  cbn [negb andb].
  destruct (get_moves relays w Hin)
    as (Hin2 & _ & moved1 & Hm2 & Hrun2 & Hnil2 & _ & Hget).
  rewrite Hrel in Hget. cbn [app] in Hget. rewrite Hx in Hget.
  destruct Hget as [Hrel2 Hres].
  assert (Hth2 : _reader_thread (queue w) = Some true ->
                 _reader_thread
                   (queue (fst (_get_internal_queue pickle_loads (Returns tt) relays
                                  false w))) = Some true).
  { intros Hth. apply (Hrun2 Hth). }
  destruct (_get_internal_queue pickle_loads (Returns tt) relays false w) as [w2 g].
  cbn [fst snd] in Hin2, Hrel2, Hres, Hm2, Hth2. subst g.
  rewrite (empty_now w2 Hin2), Hrel2.
  rewrite bool_decide_eq_false_2 by discriminate.
  replace (len ([] ++ [x]) <? max_items) with true
    by (symmetry; apply Z.ltb_lt; simpl; lia).
  cbn [negb andb].
  destruct (get_moves relays w2 Hin2)
    as (_ & _ & moved2 & Hm4 & Hrun4 & Hnil4 & _ & Hget).
  rewrite Hrel2 in Hget. cbn [app] in Hget. rewrite Hbad in Hget.
  destruct Hget as [Hrel4 Hres].
  destruct (_get_internal_queue pickle_loads (Returns tt) relays false w2) as [w4 g].
  cbn [fst snd] in Hrel4, Hres, Hm4, Hrun4. subst g.
  exists w4, (moved1 ++ moved2). split_and!.
  - by destruct e.
  - by rewrite Hrel4, app_assoc.
  - by rewrite <- app_assoc, Hm4, Hm2.
  - intros [Hth| ->].
    + destruct (Hrun2 Hth) as [-> _]. destruct (Hrun4 (Hth2 Hth)) as [-> _]. reflexivity.
    + by rewrite Hnil2, Hnil4.
Qed.

End BatchGetFacts.

(** ** Waiting, running and starting monitors *)


Section MonitorRunFacts.

Import BackgroundMonitor MonitorRun.

(** A monitor in subprocess mode is on exactly one side of the fork:
    the two tests [_is_subprocess_mode_and_not_parent_process] and
    [is_subprocess_mode_and_parent_process] never hold together and one of
    them holds exactly in subprocess mode.  [wait] looks at the done event
    everywhere but in the subprocess, where it returns at once; elsewhere,
    without a timeout, it returns only once the event is set. *)
Theorem wait_returns_at_once_in_the_subprocess
        (sys : system) (c : class_attrs) (timeout : bool) (m : t) :
  (_is_subprocess_mode_and_not_parent_process sys c m
   || is_subprocess_mode_and_parent_process sys c m = is_subprocess_mode c m)
  /\ (_is_subprocess_mode_and_not_parent_process sys c m
      && is_subprocess_mode_and_parent_process sys c m = false)
  /\ (_is_subprocess_mode_and_not_parent_process sys c m = true ->
      wait sys c timeout m = (m, ForkSafe.Got tt))
  /\ (_is_subprocess_mode_and_not_parent_process sys c m = false ->
      snd (wait sys c timeout m)
      = if snd (event_is_set sys (_done_ev m)) || timeout
        then ForkSafe.Got tt else ForkSafe.Blocked).
Proof.
  unfold wait, _is_subprocess_mode_and_not_parent_process,
    is_subprocess_mode_and_parent_process.
  destruct (is_subprocess_mode c m), (opt_pid_neq (_parent_pid c) (getpid sys)); simpl;
    split_and!; try reflexivity; try discriminate;
    intros _; by destruct (event_is_set sys (_done_ev m)).
Qed.


(** Whatever [self.daemon()] does, return or raise, a monitor whose
    events are [ForkEvent]s ends its thread with the start and done events
    set, [_thread] put to [False], and the outcome of [daemon()] as its
    own.  In every mode, [_thread] is put to [False] unless setting one of
    the two events raises, in which case it is left as it was. *)
Theorem daemon_thread_always_signals_done
        (sys : system) (c : class_attrs) (r : outcome unit) (m : t) :
  (forall f d, _start_ev m = Fork f -> _done_ev m = Fork d ->
     let m' := fst (_daemon sys c r m) in
     snd (_daemon sys c r m) = r
     /\ _thread m' = Flag false
     /\ snd (event_is_set sys (_start_ev m')) = true
     /\ snd (event_is_set sys (_done_ev m')) = true
     /\ _event m' = _event m)
  /\ (_thread (fst (_daemon sys c r m)) = Flag false /\ snd (_daemon sys c r m) = r
      \/ _thread (fst (_daemon sys c r m)) = _thread m
         /\ exists x, snd (_daemon sys c r m) = Raises x).
Proof.
  split.
  - intros f d Hs Hd m'. unfold m', _daemon, post_execution, event_set.
    rewrite Hs. cbn [fst snd set_start_ev _done_ev]. rewrite Hd.
    cbn [fst snd set_thread set_done_ev _thread _start_ev _done_ev _event].
    split_and!; try reflexivity.
    + unfold event_is_set. cbn [_start_ev set_start_ev].
      pose proof (ForkEvent_seen_after_set (getpid sys) f) as Hseen.
      by destruct (ForkSafe.ForkEvent_is_set _ _).
    + unfold event_is_set. cbn [_done_ev set_done_ev].
      pose proof (ForkEvent_seen_after_set (getpid sys) d) as Hseen.
      by destruct (ForkSafe.ForkEvent_is_set _ _).
  - unfold _daemon, post_execution.
    destruct (event_set sys c (_start_ev m)) as [e [[]|x]].
    + cbn [set_start_ev _done_ev].
      destruct (event_set sys c (_done_ev m)) as [e' [[]|x]]; cbn [fst snd].
      * left. by split.
      * right. split; [reflexivity|]. by exists x.
    + right. split; [reflexivity|]. by exists x.
Qed.

(** [_start] starts the thread of a monitor once per process: a second
    call in the same process changes nothing and starts nothing, while a
    call in another process (a child that inherited the monitor) starts a
    new thread although [_thread] already holds one.  It touches neither
    the class attributes nor the events. *)
Theorem start_thread_once_per_process (sys sys' : system) (m : t) (s : shared) :
  let m1 := fst (_start sys m s) in
  let s1 := snd (_start sys m s) in
  _start sys m1 s1 = (m1, s1)
  /\ (exists th, _thread m1 = Thread th)
  /\ (thread_ops s1 = thread_ops s
      \/ thread_ops s1 = thread_ops s ++ [Started (next_thread s)])
  /\ _thread_pid m1 = Some (getpid sys)
  /\ cls s1 = cls s
  /\ (_event m1, _done_ev m1, _start_ev m1) = (_event m, _done_ev m, _start_ev m)
  /\ (getpid sys' <> getpid sys ->
      thread_ops (snd (_start sys' m1 s1)) = thread_ops s1 ++ [Started (next_thread s1)]
      /\ _thread (fst (_start sys' m1 s1)) = Thread (next_thread s1)
      /\ _thread_pid (fst (_start sys' m1 s1)) = Some (getpid sys')).
Proof.
  intros m1 s1.
  assert (Hcases : (exists th, _thread m = Thread th /\ _thread_pid m = Some (getpid sys)
                               /\ m1 = m /\ s1 = s)
                   \/ (m1 = fst (spawn sys m s) /\ s1 = snd (spawn sys m s))).
  { unfold m1, s1, _start. destruct (_thread m) as [|b|th] eqn:Hth; auto.
    destruct (_thread_pid m) as [p|] eqn:Hp; simpl; auto.
    destruct (Z.eqb_spec p (getpid sys)) as [->|Hne]; simpl; auto.
    left. exists th. auto. }
  assert (Hrun : exists th, _thread m1 = Thread th /\ _thread_pid m1 = Some (getpid sys)).
  { destruct Hcases as [(th & Hth & Hp & -> & ->)|[-> ->]]; [by exists th|].
    by exists (next_thread s). }
  destruct Hrun as (th & Hth & Hp).
  split_and!.
  - unfold _start. rewrite Hth, Hp. simpl. by rewrite Z.eqb_refl.
  - by exists th.
  - destruct Hcases as [(_ & _ & _ & _ & ->)|[_ ->]]; auto.
  - exact Hp.
  - destruct Hcases as [(_ & _ & _ & _ & ->)|[_ ->]]; reflexivity.
  - destruct Hcases as [(_ & _ & _ & -> & _)|[-> _]]; reflexivity.
  - intros Hne. unfold _start. rewrite Hth, Hp. simpl.
    destruct (Z.eqb_spec (getpid sys) (getpid sys')); [congruence|]. simpl. auto.
Qed.

End MonitorRunFacts.

Section MonitorElectionFacts.

Import BackgroundMonitor MonitorRun.

(** The thread of the monitor runs in the calling process. *)
Definition running (sys : system) (m : t) : Prop :=
  exists th, _thread m = Thread th /\ _thread_pid m = Some (getpid sys).

Lemma start_running (sys : system) (m : t) (s : shared) :
  running sys (fst (_start sys m s))
  /\ cls (snd (_start sys m s)) = cls s
  /\ (running sys m -> _start sys m s = (m, s)).
Proof.
  unfold running, _start.
  destruct (_thread m) as [|b|th] eqn:Hth; simpl.
  - split_and!; eauto. intros (th & ? & _). discriminate.
  - split_and!; eauto. intros (th & ? & _). discriminate.
  - destruct (_thread_pid m) as [p|] eqn:Hp; simpl.
    + destruct (Z.eqb_spec p (getpid sys)) as [->|Hne]; simpl.
      * split_and!; eauto.
      * split_and!; eauto. intros (th' & _ & [= Heq]). by destruct Hne.
    + split_and!; eauto. intros (th' & _ & ?). discriminate.
Qed.

Lemma start_each_cons (sys : system) (i : nat) (ids : list nat) (h : gmap nat t) (s : shared) :
  start_each sys (i :: ids) (h, s)
  = start_each sys ids
      (match h !! i with
       | Some m => (<[i := fst (_start sys m s)]> h, snd (_start sys m s))
       | None => (h, s)
       end).
Proof.
  unfold start_each. simpl. destruct (h !! i) as [m|]; [|reflexivity].
  by destruct (_start sys m s).
Qed.

Lemma start_each_spec (sys : system) (ids : list nat) :
  forall (h : gmap nat t) (s : shared),
    let r := start_each sys ids (h, s) in
    cls (snd r) = cls s
    /\ (forall i, i ∉ ids -> fst r !! i = h !! i)
    /\ (forall i, h !! i = None -> fst r !! i = None)
    /\ (forall i m, h !! i = Some m ->
          exists m', fst r !! i = Some m'
                     /\ (running sys m -> m' = m)
                     /\ (i ∈ ids -> running sys m')).
Proof.
  induction ids as [|j ids IH]; intros h s r.
  - unfold r, start_each. simpl. split_and!; auto.
    intros i m Hi. exists m. split_and!; auto. intros Hin. by apply elem_of_nil in Hin.
  - unfold r. rewrite start_each_cons.
    destruct (h !! j) as [mj|] eqn:Hj.
    + destruct (start_running sys mj s) as (Hrun & Hcls & Hsame).
      specialize (IH (<[j := fst (_start sys mj s)]> h) (snd (_start sys mj s))).
      destruct IH as (IHc & IHout & IHnone & IHin).
      split_and!.
      * by rewrite IHc.
      * intros i Hi. apply not_elem_of_cons in Hi as [Hne Hi].
        rewrite (IHout i Hi). by rewrite lookup_insert_ne.
      * intros i Hi. apply IHnone. rewrite lookup_insert_ne; [exact Hi|congruence].
      * intros i m Hi. destruct (decide (i = j)) as [->|Hne].
        -- rewrite Hj in Hi. injection Hi as <-.
           destruct (IHin j (fst (_start sys mj s))) as (m' & Hm' & Hkeep & _).
           { by rewrite lookup_insert_eq. }
           exists m'. split; [exact Hm'|]. rewrite (Hkeep Hrun). split.
           ++ intros Hr. by rewrite (Hsame Hr).
           ++ intros _. exact Hrun.
        -- destruct (IHin i m) as (m' & Hm' & Hkeep & Hids).
           { by rewrite lookup_insert_ne. }
           exists m'. split_and!; auto.
           intros Hin. apply elem_of_cons in Hin as [?|Hin]; [congruence|]. by apply Hids.
    + specialize (IH h s). destruct IH as (IHc & IHout & IHnone & IHin).
      split_and!; auto.
      * intros i Hi. apply not_elem_of_cons in Hi as [_ Hi]. by apply IHout.
      * intros i m Hi. destruct (IHin i m Hi) as (m' & Hm' & Hkeep & Hids).
        exists m'. split_and!; auto.
        intros Hin. apply elem_of_cons in Hin as [->|Hin]; [congruence|]. by apply Hids.
Qed.

Lemma start_each_running (sys : system) (ids : list nat) :
  forall (h : gmap nat t) (s : shared),
    (forall i m, i ∈ ids -> h !! i = Some m -> running sys m) ->
    start_each sys ids (h, s) = (h, s).
Proof.
  induction ids as [|j ids IH]; intros h s Hall; [reflexivity|].
  rewrite start_each_cons.
  destruct (h !! j) as [mj|] eqn:Hj.
  - destruct (start_running sys mj s) as (_ & _ & Hsame).
    rewrite (Hsame (Hall j mj ltac:(left) Hj)). simpl.
    rewrite insert_id by exact Hj.
    apply IH. intros i m Hi. apply Hall. by right.
  - apply IH. intros i m Hi. apply Hall. by right.
Qed.

(** In thread mode [start_all] starts the thread of every monitor
    registered for the task, once: a monitor whose thread already runs in
    the calling process is left alone, so calling [start_all] again changes
    nothing; monitors that are not registered for the task are not
    touched, and neither are the class attributes. *)
Theorem start_all_in_thread_mode_starts_each_once
        (sys : system) (task : Task) (wait_for_subprocess : bool)
        (h : gmap nat t) (s : shared) :
  _report_subprocess_enabled task = false ->
  let r := start_all sys task wait_for_subprocess h s in
  snd r = Returns InParent
  /\ cls (snd (fst r)) = cls s
  /\ start_all sys task wait_for_subprocess (fst (fst r)) (snd (fst r)) = r
  /\ (forall i m, i ∈ instances_of task (cls s) -> h !! i = Some m ->
        exists m', fst (fst r) !! i = Some m' /\ running sys m')
  /\ (forall i, i ∉ instances_of task (cls s) -> fst (fst r) !! i = h !! i).
Proof.
  intros Hmode r. unfold r, start_all. rewrite Hmode. cbn [negb fst snd].
  destruct (start_each_spec sys (instances_of task (cls s)) h s)
    as (Hcls & Hout & Hnone & Hin).
  destruct (start_each sys (instances_of task (cls s)) (h, s)) as [h' s'] eqn:Hrun.
  cbn [fst snd] in *.
  split_and!; auto.
  - unfold instances_of in *. rewrite Hcls.
    rewrite start_each_running; [reflexivity|].
    intros i m Hi Hm.
    destruct (h !! i) as [m0|] eqn:Hm0.
    + destruct (Hin i m0 Hm0) as (m' & Hm' & _ & Hr).
      rewrite Hm in Hm'. injection Hm' as <-. by apply Hr.
    + rewrite (Hnone i Hm0) in Hm. discriminate.
  - intros i m Hi Hm. destruct (Hin i m Hm) as (m' & Hm' & _ & Hr). eauto.
Qed.

Lemma set_subprocess_mode_once_aux (m : t) :
  set_subprocess_mode (set_subprocess_mode m) = set_subprocess_mode m.
Proof.
  destruct m as [i ev dn st tp th thp sub tid toid].
  unfold set_subprocess_mode. simpl.
  by destruct sub as [[|]|], dn, st, ev.
Qed.

(** [set_subprocess_mode] puts the monitor in subprocess mode with three
    [SafeEvent]s.  An event that already is a [SafeEvent] is kept, flag
    included; a [ForkEvent] is replaced by a new, cleared [SafeEvent], so
    its flag is forgotten.  A second call changes nothing. *)
Theorem set_subprocess_mode_once (m : t) :
  let m' := set_subprocess_mode m in
  set_subprocess_mode m' = m'
  /\ _subprocess m' = Some true
  /\ (exists e d st, _event m' = Safe e /\ _done_ev m' = Safe d /\ _start_ev m' = Safe st)
  /\ (forall e, _event m = Safe e -> _event m' = Safe e)
  /\ (forall f, _event m = Fork f -> event_flag (_event m') = false)
  /\ (self m', _thread m', _thread_pid m', _task_id m', _task_obj_id m')
     = (self m, _thread m, _thread_pid m, _task_id m, _task_obj_id m).
Proof.
  destruct m as [i ev dn st tp th thp sub tid toid].
  unfold set_subprocess_mode. simpl.
  destruct sub as [[|]|], dn, st, ev; simpl; split_and!;
    try (by eexists _, _, _); intros; first [reflexivity | congruence].
Qed.

Lemma fold_update_lookup {A : Type} (f : A -> A) (ids : list nat) :
  (forall a, f (f a) = f a) ->
  forall (h : gmap nat A) (i : nat),
    fold_left (fun h i => match h !! i with
                          | Some a => <[i := f a]> h
                          | None => h
                          end) ids h !! i
    = if bool_decide (i ∈ ids) then f <$> h !! i else h !! i.
Proof.
  intros Hidem. induction ids as [|j ids IH]; intros h i; [reflexivity|].
  cbn [fold_left]. rewrite IH.
  destruct (decide (i = j)) as [->|Hne].
  - rewrite (bool_decide_eq_true_2 (j ∈ j :: ids)) by left.
    destruct (h !! j) as [m|] eqn:Hj.
    + rewrite lookup_insert_eq. simpl. rewrite Hidem. by destruct (bool_decide _).
    + rewrite Hj. by destruct (bool_decide _).
  - assert (Hsame : bool_decide (i ∈ j :: ids) = bool_decide (i ∈ ids)).
    { apply bool_decide_ext. rewrite elem_of_cons. tauto. }
    rewrite Hsame. destruct (h !! j) as [m|]; [|reflexivity].
    by rewrite lookup_insert_ne.
Qed.

Lemma on_instance_fold (f : t -> t) (ids : list nat) :
  (forall m, f (f m) = f m) ->
  forall (h : gmap nat t) (i : nat),
    fold_left (on_instance f) ids h !! i
    = if bool_decide (i ∈ ids) then f <$> h !! i else h !! i.
Proof.
  intros Hidem h i. apply (fold_update_lookup f ids Hidem).
Qed.

(** With reporting in a subprocess, [start_all] elects the subprocess at
    most once.  When none is elected yet, the call that comes back in the
    parent has recorded the child, the parent and the task, has put every
    monitor registered for the task in subprocess mode, and has started no
    thread in the parent; from then on [start_all] changes nothing,
    whatever the task and the process. *)
Theorem start_all_elects_the_subprocess_once
        (sys : system) (task : Task) (wait_for_subprocess : bool)
        (h : gmap nat t) (s : shared) (child : Z) :
  _report_subprocess_enabled task = true ->
  (pid_truthy (_main_process (cls s)) = true ->
   start_all sys task wait_for_subprocess h s = ((h, s), Returns InParent))
  /\ (pid_truthy (_main_process (cls s)) = false ->
      fork sys = Returns child ->
      child <> 0 ->
      (forall e, Process sys (Some child) = Raises e -> is_Exception e = true) ->
      let r := start_all sys task wait_for_subprocess h s in
      let c' := cls (snd (fst r)) in
      snd r = Returns InParent
      /\ _main_process c' = Some child
      /\ _parent_pid c' = Some (getpid sys)
      /\ _main_process_task_id c' = Some (id task)
      /\ is_subprocess_enabled c' (Some task) = true
      /\ _instances c' = _instances (cls s)
      /\ thread_ops (snd (fst r)) = thread_ops s
      /\ (forall i, fst (fst r) !! i
                    = if bool_decide (i ∈ instances_of task (cls s))
                      then set_subprocess_mode <$> h !! i else h !! i)
      /\ (forall sys' task' wait',
            _report_subprocess_enabled task' = true ->
            start_all sys' task' wait' (fst (fst r)) (snd (fst r))
            = (fst r, Returns InParent))).
Proof.
  intros Hmode. split.
  - intros Helected. unfold start_all. by rewrite Hmode, Helected.
  - intros Hnone Hfork Hchild Hlookup r c'.
    assert (Hidem : forall m, set_subprocess_mode (set_subprocess_mode m)
                              = set_subprocess_mode m)
      by (intros m; apply (set_subprocess_mode_once_aux m)).
    assert (Htruthy : pid_truthy (Some child) = true).
    { simpl. by destruct (Z.eqb_spec child 0). }
    unfold c', r, start_all. rewrite Hmode, Hnone. cbn [negb].
    unfold __start_subprocess_os_fork. rewrite Hfork.
    destruct (Z.eqb_spec child 0) as [|_]; [contradiction|].
    destruct (Process sys (Some child)) as [p|e] eqn:Hp.
    + destruct wait_for_subprocess; cbn [fst snd cls set_cls];
        (split_and!; try reflexivity;
         [unfold is_subprocess_enabled, other_task, task_id_differs; simpl;
          rewrite String.eqb_refl; by destruct (Z.eqb_spec child 0)
         |intros i; apply on_instance_fold; exact Hidem
         |intros sys' task' wait' Hm'; unfold start_all; rewrite Hm'; simpl;
          by destruct (Z.eqb_spec child 0)]).
    + rewrite (Hlookup e eq_refl).
      destruct wait_for_subprocess; cbn [fst snd cls set_cls];
        (split_and!; try reflexivity;
         [unfold is_subprocess_enabled, other_task, task_id_differs; simpl;
          rewrite String.eqb_refl; by destruct (Z.eqb_spec child 0)
         |intros i; apply on_instance_fold; exact Hidem
         |intros sys' task' wait' Hm'; unfold start_all; rewrite Hm'; simpl;
          by destruct (Z.eqb_spec child 0)]).
Qed.

End MonitorElectionFacts.

Section MonitorAliveFacts.

Import BackgroundMonitor MonitorRun.

(** [is_alive] needs a thread: with [_thread] at [None] or [False] it
    never answers true, in any mode.  In particular, once [stop] has
    returned on a monitor that ran a thread, [is_alive] is false whatever
    the class attributes have become; and in thread mode the answer is
    that of the thread itself. *)
Theorem is_alive_needs_a_thread
        (sys : system) (alive : nat -> bool) (c : class_attrs) (m : t) :
  (thread_truthy (_thread m) = false ->
   forall b, snd (is_alive sys alive c m) = Returns b -> b = false)
  /\ (forall th, is_subprocess_mode c m = false -> _thread m = Thread th ->
        is_alive sys alive c m = (m, Returns (alive th)))
  /\ (forall sys0 s th m' s',
        _thread m = Thread th ->
        stop sys0 m s = ((m', s'), ForkSafe.Got tt) ->
        _thread m' = Flag false
        /\ forall b, snd (is_alive sys alive c m') = Returns b -> b = false).
Proof.
  assert (Hfalsy : forall m0, thread_truthy (_thread m0) = false ->
            forall b, snd (is_alive sys alive c m0) = Returns b -> b = false).
  { intros m0 Hth b. unfold is_alive.
    destruct (is_subprocess_mode c m0).
    - cbn [negb]. destruct (is_subprocess_alive sys c None) as [v|e]; [|discriminate].
      rewrite Hth, andb_false_r.
      destruct (get_at_exit_state c); simpl; congruence.
    - simpl. destruct (_thread m0); simpl in *; congruence. }
  split_and!.
  - apply Hfalsy.
  - intros th Hmode Hth. unfold is_alive. by rewrite Hmode, Hth.
  - intros sys0 s th m' s' Hth Hstop.
    assert (Hflag : _thread m' = Flag false).
    { unfold stop in Hstop. rewrite Hth in Hstop. simpl in Hstop.
      destruct (stop_guard sys0 (cls s) m) as [g|e]; [|discriminate].
      destruct (if g then event_set sys0 (cls s) (_event m) else (_event m, Returns tt))
        as [ev [[]|e]]; [|discriminate].
      simpl in Hstop. rewrite Hth in Hstop.
      destruct (thread_ends sys0 th); [|discriminate].
      unfold join_and_unregister in Hstop.
      destruct (_get_instances _ _) as [l c0]. by injection Hstop as <- _. }
    split; [exact Hflag|]. apply Hfalsy. by rewrite Hflag.
Qed.

(** [_fast_is_subprocess_alive] never lets an [Exception] out and is
    false without a handle.  When the handle is the one a new lookup of
    the subprocess returns, and the lookup answers, the fast and the full
    test agree.  And when [__start_subprocess_os_fork] could not get a
    handle in the parent, the fast test is false although the subprocess
    counts as enabled. *)
Theorem fast_is_subprocess_alive_never_fails (sys : system) (c : class_attrs) :
  (forall e, _fast_is_subprocess_alive c = Raises e -> is_Exception e = false)
  /\ (_main_process_proc_obj c = None -> _fast_is_subprocess_alive c = Returns false)
  /\ (forall p b,
        _main_process_proc_obj c = Some p ->
        pid_truthy (_main_process c) = true ->
        Process sys (_main_process c) = Returns p ->
        Psutil.running_and_not_zombie (Psutil.this p) = Returns b ->
        _fast_is_subprocess_alive c = Returns b
        /\ is_subprocess_alive sys c None = Returns (Some b))
  /\ (forall child e,
        fork sys = Returns child ->
        child <> 0 ->
        Process sys (Some child) = Raises e ->
        is_Exception e = true ->
        let c' := fst (__start_subprocess_os_fork sys c) in
        snd (__start_subprocess_os_fork sys c) = Returns InParent
        /\ _fast_is_subprocess_alive c' = Returns false
        /\ is_subprocess_enabled c' None = true).
Proof.
  split_and!.
  - intros e. unfold _fast_is_subprocess_alive.
    destruct (_main_process_proc_obj c) as [p|]; [|discriminate].
    destruct (Psutil.running_and_not_zombie (Psutil.this p)) as [b|x]; [discriminate|].
    destruct (is_Exception x) eqn:Hx; [discriminate|]. by intros [= <-].
  - intros Hnone. unfold _fast_is_subprocess_alive. by rewrite Hnone.
  - intros p b Hobj Hmain Hproc Hrun.
    unfold _fast_is_subprocess_alive, is_subprocess_alive, direct_lookup.
    by rewrite Hobj, Hmain, Hproc, Hrun.
  - intros child e Hfork Hchild Hproc He c'.
    unfold c', __start_subprocess_os_fork. rewrite Hfork.
    destruct (Z.eqb_spec child 0) as [|_]; [contradiction|].
    rewrite Hproc, He. cbn [fst snd].
    split_and!; try reflexivity.
    unfold is_subprocess_enabled. simpl. by destruct (Z.eqb_spec child 0).
Qed.

End MonitorAliveFacts.

Section BatchGetExamples.

Import Pipe ForkSafe SafeQueue SafeQueueBatch Sample.

(** Three objects put and written to the pipe; no [get] was made yet,
    so no reader thread runs. *)
Definition three_written : process :=
  fst (run_events dumps loads
         [Put a fine; Put b fine; Put c fine;
          Worker (Returns tt); Worker (Returns tt); Worker (Returns tt)]
         (linux 5 false)).

(** The reader makes three reads while [batch_get] waits for it. *)
Definition three_reads : list (outcome unit) := [Returns tt; Returns tt; Returns tt].

(** A queue whose second relayed message is not a pickle. *)
Definition corrupted : process :=
  mk_process 5 BackgroundMonitor.class_initial (mk_pool None None)
    (set_internal_q
       (Some (mk_sync (Some [[Byte.x42; Byte.x61]; [Byte.x00]; [Byte.x42; Byte.x63]])
                      (Some 5) TrQueue))
       (__init__ "linux")).

Lemma batch_get_returns_with_ten_rounds :
  exists w' r,
    batch_get dumps loads 10 (Returns tt) three_reads [] 2 2 three_written = Some (w', r)
    /\ forall buffer, r = Returns buffer -> Z.of_nat (length buffer) <= Z.max 0 2.
Proof.
  apply (batch_get_returns_at_most_max_items dumps loads (Returns tt) three_reads [] 2 2
           three_written 10).
  reflexivity.
Defined.


(** Three messages on the pipe and no reader: [batch_get] starts the
    reader, which relays them while [batch_get] waits, and the call
    returns [a] and [b] and leaves [c] in the inner queue. *)
Lemma batch_get_takes_a_then_b :
  exists w',
    batch_get dumps loads 10 (Returns tt) three_reads [] 2 2 three_written
    = Some (w', Returns [a; b])
    /\ relayed w' = [[Byte.x42; Byte.x63]]
    /\ messages (_q (queue w')) = [].
Proof.
  destruct (batch_get_takes_oldest_first dumps loads three_reads 2 2 [a; b; c]
              three_written 10) as (w' & Hrun & Hafter).
  - exact I.
  - reflexivity.
  - repeat constructor.
  - reflexivity.
  - exists w'. split; [exact Hrun|]. destruct Hafter as [-> ->]; [reflexivity|].
    split; reflexivity.
Defined.

Lemma batch_get_raises_on_corrupted_message :
  exists w',
    batch_get dumps loads 2 (Returns tt) [] [] 10 2 corrupted
    = Some (w', Raises PicklingError)
    /\ relayed w' = [[Byte.x42; Byte.x63]].
Proof.
  destruct (batch_get_loses_the_batch_when_unpickling_fails dumps loads [] [] 10 2
              [Byte.x42; Byte.x61] [Byte.x00] [[Byte.x42; Byte.x63]] a PicklingError
              corrupted 0) as (w' & moved & Hrun & Hrel & _ & Hnone).
  - vm_compute. split; [reflexivity|right; reflexivity].
  - reflexivity.
  - reflexivity.
  - reflexivity.
  - discriminate.
  - lia.
  - exists w'. split; [exact Hrun|]. rewrite Hrel, Hnone; [reflexivity|by right].
Defined.

End BatchGetExamples.

Section MonitorRunExamples.

Import BackgroundMonitor MonitorRun.

(** A task that reports from threads of its own process. *)
Definition thread_task : Task := mk_task "task-2" 78 true false.

(** A monitor of that task, created and started: it holds [True] and is
    registered. *)
Definition registered_monitor : t :=
  fst (start electing_system (__init__ electing_system 1 thread_task false) shared_initial).

Definition one_registered : shared :=
  snd (start electing_system (__init__ electing_system 1 thread_task false) shared_initial).

Lemma wait_in_the_subprocess_does_not_wait :
  wait orphaned_system (cls elected_and_registered) false late_monitor
  = (late_monitor, ForkSafe.Got tt)
  /\ snd (wait electing_system (cls elected_and_registered) false late_monitor)
     = ForkSafe.Blocked.
Proof.
  destruct (wait_returns_at_once_in_the_subprocess
              orphaned_system (cls elected_and_registered) false late_monitor)
    as (_ & _ & Hchild & _).
  destruct (wait_returns_at_once_in_the_subprocess
              electing_system (cls elected_and_registered) false late_monitor)
    as (_ & _ & _ & Hparent).
  split.
  - apply Hchild. reflexivity.
  - rewrite Hparent; reflexivity.
Defined.

Lemma daemon_that_raises_still_signals_done :
  snd (_daemon electing_system (cls model_monitor_started) (Raises RuntimeError) model_monitor)
  = Raises RuntimeError
  /\ _thread (fst (_daemon electing_system (cls model_monitor_started)
                           (Raises RuntimeError) model_monitor)) = Flag false
  /\ snd (event_is_set electing_system
            (_done_ev (fst (_daemon electing_system (cls model_monitor_started)
                                    (Raises RuntimeError) model_monitor)))) = true.
Proof.
  destruct (daemon_thread_always_signals_done electing_system (cls model_monitor_started)
              (Raises RuntimeError) model_monitor) as (Hfork & _).
  destruct (Hfork _ _ eq_refl eq_refl) as (Hout & Hthread & _ & Hdone & _).
  split_and!; assumption.
Defined.

Lemma start_thread_again_after_fork :
  thread_ops (snd (_start orphaned_system
                     (fst (_start electing_system model_monitor model_monitor_started))
                     (snd (_start electing_system model_monitor model_monitor_started))))
  = [Started 0%nat; Started 1%nat].
Proof.
  destruct (start_thread_once_per_process electing_system orphaned_system
              model_monitor model_monitor_started) as (_ & _ & _ & _ & _ & _ & Hfork).
  apply Hfork. discriminate.
Defined.

Lemma start_all_starts_the_registered_monitor :
  exists m',
    fst (fst (start_all electing_system thread_task true
                {[1%nat := registered_monitor]} one_registered)) !! 1%nat = Some m'
    /\ running electing_system m'.
Proof.
  destruct (start_all_in_thread_mode_starts_each_once electing_system thread_task true
              {[1%nat := registered_monitor]} one_registered eq_refl)
    as (_ & _ & _ & Hstarted & _).
  apply (Hstarted 1%nat registered_monitor).
  - assert (Hreg : instances_of thread_task (cls one_registered) = [1%nat]) by reflexivity.
    rewrite Hreg. left.
  - reflexivity.
Defined.

Lemma set_subprocess_mode_forgets_a_set_flag :
  event_flag (_event (set_event (Fork (ForkSafe.ForkEvent_set 100 ForkSafe.ForkEvent_init))
                                registered_monitor)) = true
  /\ event_flag (_event (set_subprocess_mode
                           (set_event (Fork (ForkSafe.ForkEvent_set 100 ForkSafe.ForkEvent_init))
                                      registered_monitor))) = false.
Proof.
  split; [reflexivity|].
  destruct (set_subprocess_mode_once
              (set_event (Fork (ForkSafe.ForkEvent_set 100 ForkSafe.ForkEvent_init))
                         registered_monitor)) as (_ & _ & _ & _ & Hfork & _).
  apply (Hfork (ForkSafe.ForkEvent_set 100 ForkSafe.ForkEvent_init)). reflexivity.
Defined.

Lemma start_all_elects_child_200_once :
  _main_process (cls (snd (fst (start_all electing_system main_task true
                                  {[1%nat := late_monitor]} shared_initial)))) = Some 200
  /\ start_all orphaned_system main_task false
       (fst (fst (start_all electing_system main_task true
                    {[1%nat := late_monitor]} shared_initial)))
       (snd (fst (start_all electing_system main_task true
                    {[1%nat := late_monitor]} shared_initial)))
     = (fst (start_all electing_system main_task true
               {[1%nat := late_monitor]} shared_initial), Returns InParent).
Proof.
  destruct (start_all_elects_the_subprocess_once electing_system main_task true
              {[1%nat := late_monitor]} shared_initial 200 eq_refl) as (_ & Helect).
  destruct Helect as (_ & Hmain & _ & _ & _ & _ & _ & _ & Hagain).
  - reflexivity.
  - reflexivity.
  - discriminate.
  - intros e He. discriminate.
  - split; [exact Hmain|]. apply Hagain. reflexivity.
Defined.

Lemma is_alive_false_after_stop :
  _thread (fst (fst (stop electing_system model_monitor model_monitor_started))) = Flag false
  /\ forall b,
       snd (is_alive electing_system (fun _ => true) (cls elected)
              (fst (fst (stop electing_system model_monitor model_monitor_started))))
       = Returns b ->
       b = false.
Proof.
  destruct (is_alive_needs_a_thread electing_system (fun _ => true) (cls elected)
              model_monitor) as (_ & _ & Hstopped).
  apply (Hstopped electing_system model_monitor_started 0%nat
           (fst (fst (stop electing_system model_monitor model_monitor_started)))
           (snd (fst (stop electing_system model_monitor model_monitor_started))));
    reflexivity.
Defined.

Lemma fast_and_full_test_agree_after_election :
  _fast_is_subprocess_alive (cls elected) = Returns true
  /\ is_subprocess_alive electing_system (cls elected) None = Returns (Some true).
Proof.
  destruct (fast_is_subprocess_alive_never_fails electing_system (cls elected))
    as (_ & _ & Hagree & _).
  apply (Hagree (Psutil.mk_Process
                   (Psutil.mk_proc 200 true (Returns Psutil.STATUS_RUNNING))
                   (Returns [])) true); reflexivity.
Defined.

End MonitorRunExamples.

(** ** Closing the queue *)

Section CloseFacts.

Import Pipe ForkSafe SafeQueue SafeQueueClose.
Context {obj : Type}.
Variable pickle_dumps : obj -> outcome bytes.
Variable pickle_loads : bytes -> outcome obj.

Lemma close_loop_postcondition (sys : BackgroundMonitor.system) (timeout : Z)
      (naps : list nap) :
  forall (tic prev : Z) (ev : option SafeEvent.t) (w w' : process) (ev' : option SafeEvent.t),
    close_loop pickle_dumps pickle_loads sys timeout naps tic prev ev w
    = Some ((w', ev'), Returns tt) ->
    is_pending w' = false \/ SingletonThreadPool_is_active w' = false \/ timeout <> 0.
Proof.
  induction naps as [|n rest IH]; intros tic prev ev w w' ev'; cbn [close_loop].
  - destruct (is_pending w) eqn:Hpend; [|intros [= <- _]; auto].
    destruct (signal sys (monitor w) ev) as [ev1 [[]|x]]; [|discriminate].
    destruct (SingletonThreadPool_is_active w) eqn:Hact; [discriminate|].
    intros [= <- _]. auto.
  - destruct (is_pending w) eqn:Hpend; [|intros [= <- _]; auto].
    destruct (signal sys (monitor w) ev) as [ev1 [[]|x]]; [|discriminate].
    destruct (SingletonThreadPool_is_active w) eqn:Hact; [|intros [= <- _]; auto].
    cbn [negb].
    destruct (negb (timeout =? 0) && _) eqn:Hto.
    + apply andb_true_iff in Hto as [Hnz _]. apply negb_true_iff, Z.eqb_neq in Hnz.
      intros _. auto.
    + apply IH.
Qed.

(** [close] waits only while writes are pending: with none it returns at
    once and does not touch the event; with some, and no call pool at work
    in the process, it sets the event once and returns.  And when it
    returns without a timeout, either nothing is pending any more or the
    call pool is not at work. *)
Theorem close_waits_only_for_pending_writes
        (sys : BackgroundMonitor.system) (timeout tic : Z) (naps : list nap)
        (ev : option SafeEvent.t) (w : process) :
  (is_pending w = false ->
   close pickle_dumps pickle_loads sys timeout tic naps ev w = Some ((w, ev), Returns tt))
  /\ (is_pending w = true ->
      SingletonThreadPool_is_active w = false ->
      close pickle_dumps pickle_loads sys timeout tic naps ev w
      = Some ((w, fst (signal sys (monitor w) ev)), snd (signal sys (monitor w) ev)))
  /\ (forall w' ev',
        timeout = 0 ->
        close pickle_dumps pickle_loads sys timeout tic naps ev w
        = Some ((w', ev'), Returns tt) ->
        is_pending w' = false \/ SingletonThreadPool_is_active w' = false).
Proof.
  split_and!.
  - intros Hpend. unfold close. destruct naps; cbn [close_loop]; by rewrite Hpend.
  - intros Hpend Hact. unfold close.
    destruct naps; cbn [close_loop]; rewrite Hpend, Hact;
      by destruct (signal sys (monitor w) ev) as [ev1 [[]|x]].
  - intros w' ev' Hto Hrun. unfold close in Hrun.
    destruct (close_loop_postcondition _ _ _ _ _ _ _ _ _ Hrun) as [?|[?|?]]; auto.
    contradiction.
Qed.

Lemma q_size_len_own (w : process) :
  _get_q_size_len (Some (pid w)) w = _get_q_size_len None w.
Proof.
  unfold _get_q_size_len. simpl. by destruct (negb (pid w =? 0)).
Qed.

Lemma tallied_len (w : process) :
  tallied w -> _get_q_size_len None w = Z.of_nat (length (pending w)).
Proof.
  intros Ht. unfold _get_q_size_len. simpl. unfold tallied in Ht.
  by rewrite Ht, filter_repeat, repeat_length.
Qed.

Lemma worker_writes_the_oldest (b : bytes) (rest : list bytes) (w : process) :
  sound w -> tallied w ->
  pending w = b :: rest ->
  let w1 := _worker (Returns tt) w in
  sound w1 /\ tallied w1
  /\ pending w1 = rest
  /\ messages (_q (queue w1)) = messages (_q (queue w)) ++ [b]
  /\ SingletonThreadPool_is_active w = true.
Proof.
  intros Hsound Htally Hpend w1.
  destruct (worker_step w Hsound) as (Hsound1 & _ & _ & _ & Hpid1 & _).
  assert (Hbuilt : built_here w).
  { destruct Hsound as (Hpool & Hiq & _). split; [|exact Hiq].
    destruct (__thread_pool (pool w)); [|exact Hpool]. by destruct Hpool as (? & ? & _). }
  destruct (step_keeps_tally pickle_dumps pickle_loads (Worker (Returns tt)) w eq_refl
              Hbuilt Htally) as (_ & Htally1 & _).
  cbn [step fst] in Htally1. fold w1 in Hsound1, Htally1.
  split; [exact Hsound1|]. split; [exact Htally1|].
  destruct Hsound as (Hpool & _ & _).
  unfold pending in Hpend. unfold w1, _worker, SingletonThreadPool_is_active.
  destruct (__thread_pool (pool w)) as [tc|] eqn:Htc; [|discriminate].
  destruct Hpool as (Hpid & Hown & Halive & Hreal). rewrite Halive, Hpid.
  destruct (get_owned (pid w) true (_queue tc) Hown) as [Hown' Hget].
  destruct (ForkQueue_get (pid w) true (_queue tc)) as [rq r]. simpl in Hown', Hget.
  destruct (items (_queue tc)) as [|r0 rest0]; [discriminate|].
  destruct Hget as [-> Hrq].
  apply Forall_cons in Hreal as [Hr0 _].
  destruct r0 as [[b0 allow_raise]|]; [|by destruct Hr0].
  simpl in Hpend. injection Hpend as -> <-.
  unfold pending. simpl. rewrite Hrq, Z.eqb_refl.
  split_and!; try reflexivity. unfold ThreadCalls_is_alive. by rewrite Halive.
Qed.

Lemma close_loop_flushes (sys : BackgroundMonitor.system) (timeout : Z) (naps : list nap) :
  forall (tic prev : Z) (w : process),
    sound w -> tallied w ->
    Forall (fun n => during n = [Worker (Returns tt)]) naps ->
    (length (pending w) <= length naps)%nat ->
    Z.of_nat (length (pending w)) <= prev ->
    exists w',
      close_loop pickle_dumps pickle_loads sys timeout naps tic prev None w
      = Some ((w', None), Returns tt)
      /\ pending w' = []
      /\ is_pending w' = false
      /\ messages (_q (queue w')) = messages (_q (queue w)) ++ pending w.
Proof.
  induction naps as [|n rest IH]; intros tic prev w Hsound Htally Hnaps Hlen Hprev.
  - destruct (pending w) as [|b bs] eqn:Hpend; [|simpl in Hlen; lia].
    assert (Hnone : is_pending w = false).
    { unfold is_pending. rewrite (tallied_len w Htally), Hpend. reflexivity. }
    exists w. cbn [close_loop]. rewrite Hnone, app_nil_r. auto.
  - destruct (pending w) as [|b bs] eqn:Hpend.
    + assert (Hnone : is_pending w = false).
      { unfold is_pending. rewrite (tallied_len w Htally), Hpend. reflexivity. }
      exists w. cbn [close_loop]. rewrite Hnone, app_nil_r. auto.
    + assert (Hsome : is_pending w = true).
      { unfold is_pending. rewrite (tallied_len w Htally), Hpend. reflexivity. }
      destruct (worker_writes_the_oldest b bs w Hsound Htally Hpend)
        as (Hsound1 & Htally1 & Hpend1 & Hmsg1 & Hact).
      apply Forall_cons in Hnaps as [Hn Hrest].
      cbn [close_loop]. rewrite Hsome. cbn [signal]. rewrite Hact. cbn [negb].
      rewrite Hn. cbn [run_events step fst].
      set (w1 := _worker (Returns tt) w) in *.
      assert (Hcount : _get_q_size_len (Some (pid w1)) w1 = Z.of_nat (length bs)).
      { rewrite q_size_len_own, (tallied_len w1 Htally1), Hpend1. reflexivity. }
      rewrite Hcount.
      assert (Hgo : forall tic' prev',
                 Z.of_nat (length bs) <= prev' ->
                 exists w',
                   close_loop pickle_dumps pickle_loads sys timeout rest tic' prev' None w1
                   = Some ((w', None), Returns tt)
                   /\ pending w' = []
                   /\ is_pending w' = false
                   /\ messages (_q (queue w')) = messages (_q (queue w)) ++ b :: bs).
      { intros tic' prev' Hp.
        destruct (IH tic' prev' w1 Hsound1 Htally1 Hrest) as (w' & Hrun & Hp' & Hn' & Hm').
        - rewrite Hpend1. simpl in Hlen. lia.
        - rewrite Hpend1. exact Hp.
        - exists w'. split_and!; auto.
          rewrite Hm', Hmsg1, Hpend1, <- app_assoc. reflexivity. }
      simpl in Hprev.
      destruct (negb (timeout =? 0) && _).
      * destruct (Z.eqb_spec prev (Z.of_nat (length bs))) as [Heq|_]; [lia|].
        apply Hgo. lia.
      * apply Hgo. lia.
Qed.

(** When the worker of the call pool makes one write during each nap,
    [close] does not give up, whatever the timeout and the clock: given as
    many naps as there are pending writes it returns with nothing pending,
    and every pending pickle has reached the pipe, in the order of the
    puts. *)
Theorem close_flushes_the_pending_writes
        (sys : BackgroundMonitor.system) (timeout tic : Z) (naps : list nap) (w : process) :
  sound w -> tallied w ->
  Forall (fun n => during n = [Worker (Returns tt)]) naps ->
  (length (pending w) <= length naps)%nat ->
  exists w',
    close pickle_dumps pickle_loads sys timeout tic naps None w
    = Some ((w', None), Returns tt)
    /\ pending w' = []
    /\ is_pending w' = false
    /\ messages (_q (queue w')) = messages (_q (queue w)) ++ pending w.
Proof.
  intros Hsound Htally Hnaps Hlen. unfold close.
  apply close_loop_flushes; auto.
  rewrite q_size_len_own, (tallied_len w Htally). lia.
Qed.

End CloseFacts.

Section CloseExamples.

Import Pipe ForkSafe SafeQueue SafeQueueClose Sample.

(** Two objects put and handed to the pool, nothing written yet. *)
Definition two_pending : process :=
  fst (run_events dumps loads [Put a fine; Put b fine] (linux 5 false)).

(** The same queue seen by a child, pid 6, right after a fork. *)
Definition two_pending_in_child : process :=
  mk_process 6 (monitor two_pending) (pool two_pending)
             (set_q_size [5; 5; 6] (queue two_pending)).

Lemma close_in_child_does_not_wait_for_the_parent_pool :
  is_pending two_pending_in_child = true
  /\ close dumps loads electing_system 3000 0 [] (Some SafeEvent.__init__)
           two_pending_in_child
     = Some ((two_pending_in_child, Some (SafeEvent.ProcessEvent_set SafeEvent.__init__)),
             Returns tt).
Proof.
  split; [reflexivity|].
  destruct (close_waits_only_for_pending_writes dumps loads electing_system 3000 0 []
              (Some SafeEvent.__init__) two_pending_in_child) as (_ & Hidle & _).
  rewrite Hidle; reflexivity.
Defined.

Lemma close_flushes_a_then_b :
  exists w',
    close dumps loads electing_system 3000 0
          [mk_nap [Worker (Returns tt)] 100 100; mk_nap [Worker (Returns tt)] 5000 5000]
          None two_pending
    = Some ((w', None), Returns tt)
    /\ pending w' = []
    /\ is_pending w' = false
    /\ messages (_q (queue w'))
       = messages (_q (queue two_pending)) ++ pending two_pending.
Proof.
  apply (close_flushes_the_pending_writes dumps loads electing_system 3000 0
           [mk_nap [Worker (Returns tt)] 100 100; mk_nap [Worker (Returns tt)] 5000 5000]
           two_pending).
  - vm_compute. split_and!; auto; [repeat constructor; discriminate|discriminate].
  - reflexivity.
  - repeat constructor.
  - vm_compute. lia.
Defined.

End CloseExamples.

(** ** Stopping the monitors of a task and leaving subprocess mode *)

Section ClearFacts.

Import BackgroundMonitor MonitorClear.

(** The class attributes but the registry. *)
Definition attrs_but_registry (c : class_attrs) : class_attrs := set_instances ∅ c.

Lemma get_instances_attrs (m : t) (c : class_attrs) :
  attrs_but_registry (snd (_get_instances m c)) = attrs_but_registry c.
Proof.
  unfold _get_instances. by destruct (_instances c !! _task_obj_id m).
Qed.

Lemma stop_attrs (sys : system) (m : t) (s : shared) :
  attrs_but_registry (cls (snd (fst (stop sys m s)))) = attrs_but_registry (cls s).
Proof.
  unfold stop. destruct (negb (thread_truthy (_thread m))); [reflexivity|].
  destruct (stop_guard sys (cls s) m) as [g|e]; [|reflexivity].
  destruct (if g then event_set sys (cls s) (_event m) else (_event m, Returns tt))
    as [ev [[]|e]]; [|reflexivity].
  destruct (_thread (set_event ev m)) as [|b|th]; try reflexivity.
  destruct (thread_ends sys th); [|reflexivity].
  unfold join_and_unregister. cbn [cls].
  pose proof (get_instances_attrs (set_event ev m) (cls s)) as Hget.
  destruct (_get_instances (set_event ev m) (cls s)) as [l c]. cbn [snd] in Hget.
  cbn [fst snd cls set_cls]. rewrite <- Hget.
  by destruct (list_remove _ l).
Qed.

Lemma stop_without_thread (sys : system) (m : t) (s : shared) :
  (forall th, _thread m <> Thread th) ->
  snd (fst (stop sys m s)) = s.
Proof.
  intros Hflag. unfold stop. destruct (negb (thread_truthy (_thread m))); [reflexivity|].
  destruct (stop_guard sys (cls s) m) as [g|e]; [|reflexivity].
  destruct (if g then event_set sys (cls s) (_event m) else (_event m, Returns tt))
    as [ev [[]|e]]; [|reflexivity].
  change (_thread (set_event ev m)) with (_thread m).
  destruct (_thread m) as [|b|th]; try reflexivity. by destruct (Hflag th).
Qed.

Lemma stop_each_attrs (sys : system) (task : Task) (fuel : nat) :
  forall (i : nat) (h : gmap nat t) (s : shared),
    attrs_but_registry (cls (snd (fst (stop_each fuel i sys task h s))))
    = attrs_but_registry (cls s).
Proof.
  induction fuel as [|fuel IH]; intros i h s; [reflexivity|]. cbn [stop_each].
  destruct (instances_of task (cls s) !! i) as [d|]; [|reflexivity].
  destruct (h !! d) as [m|]; [|apply IH].
  pose proof (stop_attrs sys m s) as Hstop.
  destruct (stop sys m s) as [[m' s'] [[]| |e]]; cbn [fst snd] in *.
  - by rewrite IH.
  - exact Hstop.
  - exact Hstop.
Qed.

(** The walk over a list that [stop] leaves alone. *)
Lemma stop_each_flags (sys : system) (task : Task) (s : shared) (fuel : nat) :
  forall (i : nat) (h : gmap nat t),
    (forall d m, d ∈ drop i (instances_of task (cls s)) -> h !! d = Some m ->
                 (forall th, _thread m <> Thread th) /\ snd (stop sys m s) = ForkSafe.Got tt) ->
    NoDup (drop i (instances_of task (cls s))) ->
    (length (drop i (instances_of task (cls s))) <= fuel)%nat ->
    let r := stop_each fuel i sys task h s in
    snd r = ForkSafe.Got tt
    /\ snd (fst r) = s
    /\ (forall d, d ∉ drop i (instances_of task (cls s)) -> fst (fst r) !! d = h !! d)
    /\ (forall d m, d ∈ drop i (instances_of task (cls s)) -> h !! d = Some m ->
                    fst (fst r) !! d = Some (fst (fst (stop sys m s)))).
Proof.
  induction fuel as [|fuel IH]; intros i h Hall Hnd Hlen r.
  - assert (Hnil : drop i (instances_of task (cls s)) = []).
    { destruct (drop i (instances_of task (cls s))); [reflexivity|simpl in Hlen; lia]. }
    unfold r. cbn [stop_each fst snd]. rewrite Hnil. split_and!; auto.
    intros d m Hd. by apply elem_of_nil in Hd.
  - unfold r. cbn [stop_each].
    destruct (instances_of task (cls s) !! i) as [d0|] eqn:Hd0.
    2:{ apply lookup_ge_None in Hd0. rewrite drop_ge by exact Hd0.
        cbn [fst snd]. split_and!; auto. intros d m Hd. by apply elem_of_nil in Hd. }
    assert (Hdrop : drop i (instances_of task (cls s))
                    = d0 :: drop (S i) (instances_of task (cls s))).
    { by apply drop_S. }
    rewrite Hdrop in Hall, Hnd, Hlen |- *. apply NoDup_cons in Hnd as [Hfresh Hnd].
    simpl in Hlen.
    destruct (h !! d0) as [m0|] eqn:Hm0.
    + destruct (Hall d0 m0 ltac:(left) Hm0) as [Hflag Hret].
      pose proof (stop_without_thread sys m0 s Hflag) as Hs.
      destruct (stop sys m0 s) as [[m' s'] o] eqn:Hstop. cbn [fst snd] in Hs, Hret. subst s' o.
      destruct (IH (S i) (<[d0 := m']> h)) as (Hr & Hsame & Hout & Hin); [|exact Hnd|lia|].
      { intros d m Hd Hm. apply (Hall d m); [by right|].
        rewrite lookup_insert_ne in Hm; [exact Hm|]. intros <-. contradiction. }
      split_and!; auto.
      * intros d Hd. apply not_elem_of_cons in Hd as [Hne Hd].
        rewrite (Hout d Hd). by rewrite lookup_insert_ne.
      * intros d m Hd Hm. apply elem_of_cons in Hd as [->|Hd].
        -- rewrite (Hout d0 Hfresh), lookup_insert_eq. rewrite Hm0 in Hm.
           injection Hm as <-. by rewrite Hstop.
        -- apply Hin; [exact Hd|]. rewrite lookup_insert_ne; [exact Hm|].
           intros <-. contradiction.
    + destruct (IH (S i) h) as (Hr & Hsame & Hout & Hin); [|exact Hnd|lia|].
      { intros d m Hd Hm. apply (Hall d m); [by right|exact Hm]. }
      split_and!; auto.
      * intros d Hd. apply not_elem_of_cons in Hd as [_ Hd]. by apply Hout.
      * intros d m Hd Hm. apply elem_of_cons in Hd as [->|Hd]; [congruence|].
        by apply Hin.
Qed.

(** A poll at which [wait_for_sub_process] keeps waiting: the
    subprocess is seen alive, and no timeout was given or it has not
    elapsed. *)
Definition still_waits (timeout tic : Z) (c : class_attrs) (task : Task)
           (p : system * Z) : Prop :=
  is_subprocess_alive (fst p) c (Some task) = Returns (Some true)
  /\ (timeout = 0 \/ snd p - tic < timeout).

Lemma poll_waits (timeout tic : Z) (c : class_attrs) (task : Task)
      (waits rest : list (system * Z)) :
  Forall (still_waits timeout tic c task) waits ->
  poll timeout tic c task (waits ++ rest) = poll timeout tic c task rest.
Proof.
  induction 1 as [|[sy now] waits [Halive Htime] _ IH]; [reflexivity|].
  simpl in Halive, Htime. cbn [app poll]. rewrite Halive. cbn [truthy andb].
  assert (Hgo : (timeout =? 0) || (now - tic <? timeout) = true).
  { destruct Htime as [->|Hlt]; [reflexivity|].
    apply orb_true_iff. right. by apply Z.ltb_lt. }
  rewrite Hgo. exact IH.
Qed.

Lemma poll_stops (timeout tic : Z) (c : class_attrs) (task : Task)
      (last : system) (now : Z) (rest : list (system * Z)) :
  (forall v, is_subprocess_alive last c (Some task) = Returns v ->
     v <> Some true \/ (timeout <> 0 /\ timeout <= now - tic) ->
     poll timeout tic c task ((last, now) :: rest) = Some (Returns tt))
  /\ (forall e, is_subprocess_alive last c (Some task) = Raises e ->
        poll timeout tic c task ((last, now) :: rest) = Some (Raises e)).
Proof.
  split.
  - intros v Hv Hstop. cbn [poll]. rewrite Hv.
    destruct Hstop as [Hdead|[Hgiven Hover]].
    + destruct v as [[|]|]; [by destruct Hdead|reflexivity|reflexivity].
    + assert (Hend : (timeout =? 0) || (now - tic <? timeout) = false).
      { apply orb_false_iff. split; [by apply Z.eqb_neq|apply Z.ltb_ge; lia]. }
      by rewrite Hend, andb_false_r.
  - intros e He. cbn [poll]. by rewrite He.
Qed.

(** [wait_for_sub_process] does nothing when no subprocess is enabled
    for the task.  Otherwise, in a process whose registered monitors hold
    no thread (the parent, whose monitors hold [True]), it calls [stop]
    once on each monitor registered for the task, in the order of the
    registry and leaving the registry as it is, and then polls the
    subprocess: for as long as a poll sees it alive, and no timeout was
    given or the time since the first poll is below the timeout, it keeps
    waiting; it returns at the first poll that does not see the subprocess
    alive or that finds a given timeout elapsed, and raises what the first
    such poll raises. *)
Theorem wait_for_sub_process_stops_each_monitor
        (sys : system) (task : Task) (timeout tic : Z) (polls : list (system * Z))
        (h : gmap nat t) (s : shared) :
  (is_subprocess_enabled (cls s) (Some task) = false ->
   wait_for_sub_process sys task timeout tic polls h s = Some ((h, s), Returns tt))
  /\ (is_subprocess_enabled (cls s) (Some task) = true ->
      registry_ok (cls s) ->
      (forall d m, d ∈ instances_of task (cls s) -> h !! d = Some m ->
                   (forall th, _thread m <> Thread th)
                   /\ snd (stop sys m s) = ForkSafe.Got tt) ->
      exists h',
        (forall d, d ∉ instances_of task (cls s) -> h' !! d = h !! d)
        /\ (forall d m, d ∈ instances_of task (cls s) -> h !! d = Some m ->
                        h' !! d = Some (fst (fst (stop sys m s))))
        /\ (forall waits last now rest,
              polls = waits ++ (last, now) :: rest ->
              Forall (still_waits timeout tic (cls s) task) waits ->
              (forall v, is_subprocess_alive last (cls s) (Some task) = Returns v ->
                 v <> Some true \/ (timeout <> 0 /\ timeout <= now - tic) ->
                 wait_for_sub_process sys task timeout tic polls h s
                 = Some ((h', s), Returns tt))
              /\ (forall e, is_subprocess_alive last (cls s) (Some task) = Raises e ->
                    wait_for_sub_process sys task timeout tic polls h s
                    = Some ((h', s), Raises e)))
        /\ (Forall (still_waits timeout tic (cls s) task) polls ->
            wait_for_sub_process sys task timeout tic polls h s = None)).
Proof.
  split.
  - intros Hoff. unfold wait_for_sub_process. by rewrite Hoff.
  - intros Hon Hok Hall.
    unfold wait_for_sub_process. rewrite Hon. cbn [negb].
    destruct (stop_each_flags sys task s (length (instances_of task (cls s))) 0 h)
      as (Hr & Hs & Hout & Hin).
    { exact Hall. }
    { rewrite drop_0. unfold instances_of.
      destruct (_instances (cls s) !! obj_id task) as [l|] eqn:Hl;
        [by apply (Hok _ _ Hl)|apply NoDup_nil_2]. }
    { by rewrite drop_0. }
    rewrite drop_0 in Hout, Hin.
    destruct (stop_each _ 0 sys task h s) as [[h' s'] o]. cbn [fst snd] in *. subst o s'.
    exists h'. split; [exact Hout|]. split; [exact Hin|]. split.
    + intros waits last now rest -> Hwaits.
      rewrite (poll_waits timeout tic (cls s) task waits _ Hwaits).
      destruct (poll_stops timeout tic (cls s) task last now rest) as [Hret Hraise].
      split.
      * intros v Hv Hstop. by rewrite (Hret v Hv Hstop).
      * intros e He. by rewrite (Hraise e He).
    + intros Hwaits.
      pose proof (poll_waits timeout tic (cls s) task polls [] Hwaits) as Hnone.
      rewrite app_nil_r in Hnone. by rewrite Hnone.
Qed.

(** [clear_main_process] for another task than the one of the
    subprocess changes nothing.  For that task, when it returns, the five
    attributes of the election are [None] and the registry is empty, while
    the at-exit state is what it was: no subprocess is enabled for any
    task, every monitor is out of subprocess mode (its own [_subprocess]
    flag and events stay), no monitor is registered any more, the call
    pool is forgotten, and [start_all] may elect again. *)
Theorem clear_main_process_forgets_the_subprocess
        (sys : system) (task : Task) (tic : Z) (polls : list (system * Z))
        (h : gmap nat t) (s : shared) (pool : SafeQueue.SingletonThreadPool) :
  (task_id_differs (cls s) (id task) = true ->
   clear_main_process sys task tic polls h s pool = Some (((h, s), pool), Returns tt))
  /\ (forall h' s' pool',
        task_id_differs (cls s) (id task) = false ->
        clear_main_process sys task tic polls h s pool = Some (((h', s'), pool'), Returns tt) ->
        cls s' = mk_class None None None None None (get_at_exit_state (cls s)) ∅
        /\ pool' = SafeQueue.mk_pool None None
        /\ (forall t, is_subprocess_enabled (cls s') t = false)
        /\ (forall m, is_subprocess_mode (cls s') m = false)
        /\ (forall t, instances_of t (cls s') = [])
        /\ pid_truthy (_main_process (cls s')) = false).
Proof.
  split.
  - intros Hother. unfold clear_main_process. by rewrite Hother.
  - intros h' s' pool' Hmine. unfold clear_main_process. rewrite Hmine.
    assert (Hattrs : forall h1 s1 o,
               wait_for_sub_process sys task 0 tic polls h s = Some ((h1, s1), o) ->
               _at_exit (cls s1) = _at_exit (cls s)).
    { intros h1 s1 o. unfold wait_for_sub_process.
      destruct (negb _); [by intros [= _ <- _]|].
      pose proof (stop_each_attrs sys task (length (instances_of task (cls s))) 0 h s)
        as Hsame.
      destruct (stop_each _ 0 sys task h s) as [[h2 s2] [[]| |e]]; cbn [fst snd] in Hsame.
      - destruct (poll 0 tic (cls s2) task polls); [|discriminate].
        intros [= _ <- _]. apply (f_equal _at_exit) in Hsame. exact Hsame.
      - discriminate.
      - intros [= _ <- _]. apply (f_equal _at_exit) in Hsame. exact Hsame. }
    destruct (wait_for_sub_process sys task 0 tic polls h s) as [[[h1 s1] [[]|e]]|] eqn:Hwait;
      [|discriminate..].
    intros [= <- <- <-]. cbn [cls set_cls].
    rewrite (Hattrs h1 s1 (Returns tt) eq_refl). unfold get_at_exit_state.
    split_and!; [reflexivity|reflexivity|by intros [t|]| | |reflexivity].
    + intros m. unfold is_subprocess_mode. simpl. by rewrite andb_false_r.
    + intros t. unfold instances_of. simpl. by rewrite lookup_empty.
Qed.

End ClearFacts.

(** ** [SingletonLock] and the mode of a monitor *)

Section SingletonLockFacts.

Import SingletonLock.

Lemma create_twice (l : t) : create (create l) = create l.
Proof. by destruct l as [[k|]]. Qed.

(** [instantiate] gives a lock to every [SingletonLock] created so far
    that has none, keeps the locks that exist as they are, touches nothing
    else, and changes nothing when called again.  [release] on an object
    whose lock was never created returns quietly; and a [with] block on
    such an object creates the lock, holds it inside and leaves it free. *)
Theorem SingletonLock_instantiate_creates_each_lock_once (c : class_state) :
  let c' := instantiate c in
  instantiate c' = c'
  /\ _instances c' = _instances c
  /\ (forall i, objects c' !! i
                = if bool_decide (i ∈ _instances c) then create <$> objects c !! i
                  else objects c !! i)
  /\ (forall l k, _lock l = Some k -> create l = l)
  /\ (forall pid me l, _lock l = None ->
        release pid me l = (l, Returns tt)
        /\ snd (__enter__ pid me l) = ForkSafe.Got true
        /\ snd (ForkSafeRLock._is_owned pid me
                  (default ForkSafeRLock.__init__ (_lock (fst (__enter__ pid me l))))) = true
        /\ snd (__exit__ pid me (fst (__enter__ pid me l))) = Returns tt
        /\ snd (ForkSafeRLock._is_owned pid me
                  (default ForkSafeRLock.__init__
                     (_lock (fst (__exit__ pid me (fst (__enter__ pid me l))))))) = false).
Proof.
  intros c'.
  assert (Hlook : forall c0 i, objects (instantiate c0) !! i
                    = if bool_decide (i ∈ _instances c0) then create <$> objects c0 !! i
                      else objects c0 !! i).
  { intros c0 i. unfold instantiate. cbn [objects].
    apply (fold_update_lookup create (_instances c0) create_twice). }
  split_and!.
  - unfold c'. transitivity (mk_class (_instances c) (objects (instantiate c)));
      [|reflexivity].
    unfold instantiate at 1. change (_instances (instantiate c)) with (_instances c).
    f_equal. apply map_eq. intros i.
    rewrite (fold_update_lookup create (_instances c) create_twice), Hlook.
    destruct (bool_decide (i ∈ _instances c)); [|reflexivity].
    destruct (objects c !! i); simpl; [|reflexivity]. by rewrite create_twice.
  - reflexivity.
  - apply Hlook.
  - intros l k Hk. unfold create. by rewrite Hk.
  - intros pid me l Hnone.
    set (held := ForkSafe.mk_sync (Some (ForkSafeRLock.mk_rlock (Some me) 1)) (Some pid)
                                  ForkSafeRLock.ThreadRLock).
    set (free := ForkSafe.mk_sync (Some (ForkSafeRLock.mk_rlock None 0)) (Some pid)
                                  ForkSafeRLock.ThreadRLock).
    assert (Hown : forall k, ForkSafe._create pid (ForkSafe.mk_sync (Some k) (Some pid)
                                                     ForkSafeRLock.ThreadRLock)
                             = ForkSafe.mk_sync (Some k) (Some pid) ForkSafeRLock.ThreadRLock).
    { intros k. unfold ForkSafe._create, ForkSafe.stale. simpl. by rewrite Z.eqb_refl. }
    assert (Hin : __enter__ pid me l = (mk (Some held), ForkSafe.Got true)).
    { unfold __enter__, acquire, create. rewrite Hnone. reflexivity. }
    assert (Hout : __exit__ pid me (mk (Some held)) = (mk (Some free), Returns tt)).
    { unfold __exit__, release, held. cbn [_lock]. unfold ForkSafeRLock.release.
      cbn [ForkSafe._sync]. rewrite Hown.
      unfold ForkSafe.the_sync, ForkSafeRLock.RLock_release. simpl.
      by rewrite bool_decide_eq_true_2. }
    rewrite Hin. cbn [fst snd _lock default]. rewrite Hout. cbn [fst snd _lock default].
    split_and!; try reflexivity.
    + unfold release. by rewrite Hnone.
    + unfold ForkSafeRLock._is_owned, id, held. rewrite Hown.
      unfold ForkSafe.the_sync, ForkSafeRLock.RLock_is_owned. simpl.
      by rewrite bool_decide_eq_true_2.
    + unfold ForkSafeRLock._is_owned, id, free. rewrite Hown. reflexivity.
Qed.

Lemma SingletonLock_instantiate_two_objects :
  objects (instantiate (__init__ 2 (__init__ 1 class_initial))) !! 1%nat
  = Some (mk (Some ForkSafeRLock.__init__))
  /\ release 7 1 (mk None) = (mk None, Returns tt).
Proof.
  destruct (SingletonLock_instantiate_creates_each_lock_once
              (__init__ 2 (__init__ 1 class_initial))) as (_ & _ & Hlook & _ & Hfresh).
  split.
  - rewrite Hlook. reflexivity.
  - apply (Hfresh 7 1%nat (mk None)). reflexivity.
Defined.

End SingletonLockFacts.

Section MonitorModeFacts.

Import BackgroundMonitor.

(** The mode of a monitor is decided when it is created.  A monitor made
    for a model, or for a task that is not the main task, runs in thread
    mode: [start] starts its thread at once, registers nothing, and no
    class attribute can put it in subprocess mode.  A monitor of the main
    task holds [True] after [start] and is registered: no thread is started
    for it until [start_all]. *)
Theorem start_runs_a_thread_only_in_thread_mode
        (sys : system) (identity : nat) (task : Task) (for_model : bool) (s : shared) :
  let m := __init__ sys identity task for_model in
  (for_model || negb (is_main_task task) = true ->
   running sys (fst (start sys m s))
   /\ cls (snd (start sys m s)) = cls s
   /\ thread_ops (snd (start sys m s)) = thread_ops s ++ [Started (next_thread s)]
   /\ forall c, is_subprocess_mode c (fst (start sys m s)) = false)
  /\ (for_model || negb (is_main_task task) = false ->
      _thread (fst (start sys m s)) = Flag true
      /\ thread_ops (snd (start sys m s)) = thread_ops s
      /\ identity ∈ instances_of task (cls (snd (start sys m s)))
      /\ attrs_but_registry (cls (snd (start sys m s))) = attrs_but_registry (cls s)).
Proof.
  intros m. split.
  - intros Hmode.
    assert (Hsub : _subprocess m = Some false).
    { unfold m, __init__. cbn [_subprocess].
      destruct for_model, (is_main_task task); try reflexivity. discriminate. }
    unfold start. cbn [_thread m __init__ thread_truthy negb].
    unfold m, __init__ in *. cbn in Hsub |- *. rewrite Hsub. cbn.
    unfold running. cbn. split_and!; eauto.
  - intros Hmode.
    assert (Hsub : _subprocess m = None).
    { unfold m, __init__. cbn [_subprocess].
      destruct for_model, (is_main_task task); try reflexivity; discriminate. }
    pose proof (start_registers sys m s) as Hreg.
    rewrite Hsub in Hreg. specialize (Hreg eq_refl).
    unfold start in *. cbn [_thread m __init__ thread_truthy negb] in *.
    unfold m, __init__ in *. cbn in Hsub, Hreg |- *. rewrite Hsub in *. cbn in *.
    pose proof (get_instances_attrs
                  (mk identity (Fork ForkSafe.ForkEvent_init) (Fork ForkSafe.ForkEvent_init)
                      (Fork ForkSafe.ForkEvent_init) (getpid sys) (Flag true) None None
                      (id task) (obj_id task)) (cls s)) as Hget.
    destruct (_get_instances _ (cls s)) as [l c] eqn:E. cbn [snd] in Hget.
    destruct (bool_decide (identity ∈ l)); cbn [fst snd cls set_cls thread_ops] in *.
    + split_and!; auto.
    + pose proof (get_instances_attrs
                    (mk identity (Fork ForkSafe.ForkEvent_init) (Fork ForkSafe.ForkEvent_init)
                        (Fork ForkSafe.ForkEvent_init) (getpid sys) (Flag true) None None
                        (id task) (obj_id task)) c) as Hget'.
      destruct (_get_instances _ c) as [l' c'] eqn:E'. cbn [snd] in Hget'.
      cbn [fst snd cls set_cls thread_ops] in *.
      split_and!; auto. rewrite <- Hget, <- Hget'. reflexivity.
Qed.

Lemma start_of_a_model_monitor_runs_its_thread :
  running electing_system
    (fst (start electing_system (__init__ electing_system 2 main_task true) elected))
  /\ is_subprocess_mode (cls elected)
       (fst (start electing_system (__init__ electing_system 2 main_task true) elected))
     = false.
Proof.
  destruct (start_runs_a_thread_only_in_thread_mode electing_system 2 main_task true elected)
    as (Hthread & _).
  destruct (Hthread eq_refl) as (Hrun & _ & _ & Hmode).
  split; [exact Hrun|apply Hmode].
Defined.

End MonitorModeFacts.

Section ClearExamples.

Import BackgroundMonitor MonitorClear.

(** The parent stops its late monitor and polls: without a timeout it
    waits while the subprocess is alive and returns at the third poll,
    which finds it a zombie; with a timeout of two seconds it returns at
    the second poll although the subprocess is still alive. *)
Lemma wait_for_sub_process_stops_the_late_monitor :
  (exists h',
     h' !! 1%nat = Some (fst (fst (stop widowed_system late_monitor elected_and_registered)))
     /\ wait_for_sub_process widowed_system main_task 0 0
          [(electing_system, 1); (electing_system, 2); (widowed_system, 3)]
          {[1%nat := late_monitor]} elected_and_registered
        = Some ((h', elected_and_registered), Returns tt))
  /\ (exists h',
        wait_for_sub_process widowed_system main_task 2 0
          [(electing_system, 1); (electing_system, 2); (electing_system, 3)]
          {[1%nat := late_monitor]} elected_and_registered
        = Some ((h', elected_and_registered), Returns tt))
  /\ wait_for_sub_process widowed_system main_task 0 0
       [(electing_system, 1); (electing_system, 2)]
       {[1%nat := late_monitor]} elected_and_registered
     = None.
Proof.
  assert (Hreg : instances_of main_task (cls elected_and_registered) = [1%nat])
    by reflexivity.
  assert (Hok : registry_ok (cls elected_and_registered)).
  { intros k l Hl.
    destruct (decide (k = 77)) as [->|Hne].
    - vm_compute in Hl. injection Hl as <-. apply NoDup_singleton.
    - assert (Hnone : _instances (cls elected_and_registered) !! k = None).
      { change (_instances (cls elected_and_registered)) with ({[77 := [1%nat]]} : gmap Z (list nat)).
        by apply lookup_singleton_ne. }
      rewrite Hnone in Hl. discriminate. }
  assert (Hall : forall d m,
             d ∈ instances_of main_task (cls elected_and_registered) ->
             ({[1%nat := late_monitor]} : gmap nat t) !! d = Some m ->
             (forall th, _thread m <> Thread th)
             /\ snd (stop widowed_system m elected_and_registered) = ForkSafe.Got tt).
  { intros d m Hd Hm. rewrite Hreg in Hd. apply list_elem_of_singleton in Hd. subst d.
    rewrite lookup_singleton_eq in Hm. injection Hm as <-.
    split; [intros th; discriminate|reflexivity]. }
  assert (Halive : still_waits 0 0 (cls elected_and_registered) main_task (electing_system, 1)
                   /\ still_waits 0 0 (cls elected_and_registered) main_task (electing_system, 2)
                   /\ still_waits 2 0 (cls elected_and_registered) main_task (electing_system, 1)).
  { split_and!; (split; [reflexivity|simpl; lia]). }
  destruct Halive as (Hone & Htwo & Hshort).
  split_and!.
  - destruct (wait_for_sub_process_stops_each_monitor widowed_system main_task 0 0
                [(electing_system, 1); (electing_system, 2); (widowed_system, 3)]
                {[1%nat := late_monitor]} elected_and_registered) as (_ & Hon).
    destruct (Hon eq_refl Hok Hall) as (h' & _ & Hin & Hpoll & _).
    exists h'. split.
    + apply (Hin 1%nat late_monitor); [rewrite Hreg; left|reflexivity].
    + destruct (Hpoll [(electing_system, 1); (electing_system, 2)] widowed_system 3 []
                  eq_refl) as [Hret _].
      * by repeat constructor.
      * apply (Hret (Some false)); [reflexivity|left; discriminate].
  - destruct (wait_for_sub_process_stops_each_monitor widowed_system main_task 2 0
                [(electing_system, 1); (electing_system, 2); (electing_system, 3)]
                {[1%nat := late_monitor]} elected_and_registered) as (_ & Hon).
    destruct (Hon eq_refl Hok Hall) as (h' & _ & _ & Hpoll & _).
    exists h'.
    destruct (Hpoll [(electing_system, 1)] electing_system 2 [(electing_system, 3)]
                eq_refl) as [Hret _].
    + by repeat constructor.
    + apply (Hret (Some true)); [reflexivity|right; lia].
  - destruct (wait_for_sub_process_stops_each_monitor widowed_system main_task 0 0
                [(electing_system, 1); (electing_system, 2)]
                {[1%nat := late_monitor]} elected_and_registered) as (_ & Hon).
    destruct (Hon eq_refl Hok Hall) as (h' & _ & _ & _ & Hnone).
    apply Hnone. by repeat constructor.
Defined.

Lemma clear_main_process_leaves_other_tasks_alone :
  clear_main_process widowed_system thread_task 0 [] {[1%nat := late_monitor]}
    elected_and_registered (SafeQueue.mk_pool None (Some 100))
  = Some ((({[1%nat := late_monitor]}, elected_and_registered),
           SafeQueue.mk_pool None (Some 100)), Returns tt)
  /\ exists h',
       clear_main_process widowed_system main_task 0 [(widowed_system, 0)]
         {[1%nat := late_monitor]} elected_and_registered (SafeQueue.mk_pool None (Some 100))
       = Some (((h', set_cls class_initial elected_and_registered),
                SafeQueue.mk_pool None None), Returns tt).
Proof.
  destruct (clear_main_process_forgets_the_subprocess widowed_system thread_task 0 []
              {[1%nat := late_monitor]} elected_and_registered
              (SafeQueue.mk_pool None (Some 100))) as (Hother & _).
  split; [apply Hother; reflexivity|].
  eexists. vm_compute. reflexivity.
Defined.

End ClearExamples.

(** ** Stopping monitors that run threads *)

Section StopEachFacts.

Import BackgroundMonitor MonitorClear.

(** The places a walk visits when every visit removes the element
    visited: the first, the third, and so on; and the places it passes
    over. *)
Fixpoint visited (l : list nat) : list nat :=
  match l with
  | [] => []
  | a :: rest =>
      a :: match rest with
           | [] => []
           | _ :: rest' => visited rest'
           end
  end.

Fixpoint passed_over (l : list nat) : list nat :=
  match l with
  | [] => []
  | _ :: rest =>
      match rest with
      | [] => []
      | b :: rest' => b :: passed_over rest'
      end
  end.

Lemma visited_pair (a b : nat) (l : list nat) :
  visited (a :: b :: l) = a :: visited l /\ passed_over (a :: b :: l) = b :: passed_over l.
Proof. split; reflexivity. Qed.

Lemma visited_subset (l : list nat) : forall d, d ∈ visited l -> d ∈ l.
Proof.
  assert (Hboth : forall n l, (length l <= n)%nat -> forall d, d ∈ visited l -> d ∈ l).
  { clear l. induction n as [|n IH]; intros l Hlen d Hd.
    - destruct l; [exact Hd|simpl in Hlen; lia].
    - destruct l as [|a [|b l]]; [exact Hd|exact Hd|].
      destruct (visited_pair a b l) as [Hv _]. rewrite Hv in Hd.
      apply elem_of_cons in Hd as [->|Hd]; [left|].
      right. right. apply (IH l); [simpl in Hlen; lia|exact Hd]. }
  apply (Hboth (length l)). lia.
Qed.

Lemma split_at_unique (a : nat) (l1 : list nat) :
  forall k1 l2 k2,
    a ∉ l1 -> a ∉ k1 -> l1 ++ a :: l2 = k1 ++ a :: k2 -> l1 = k1 /\ l2 = k2.
Proof.
  induction l1 as [|x l1 IH]; intros k1 l2 k2 Hl Hk Heq.
  - destruct k1 as [|y k1]; simpl in Heq.
    + by injection Heq as ->.
    + injection Heq as <- _. destruct Hk. left.
  - destruct k1 as [|y k1]; simpl in Heq.
    + injection Heq as -> _. destruct Hl. left.
    + injection Heq as -> Heq.
      apply not_elem_of_cons in Hl as [_ Hl]. apply not_elem_of_cons in Hk as [_ Hk].
      destruct (IH k1 l2 k2 Hl Hk Heq) as [-> ->]. by split.
Qed.

Lemma stop_joins (sys : system) (m : t) (s : shared) (th : nat) :
  _thread m = Thread th ->
  snd (stop sys m s) = ForkSafe.Got tt ->
  thread_ends sys th = true
  /\ exists ev, fst (stop sys m s) = join_and_unregister th (set_event ev m) s.
Proof.
  intros Hth. unfold stop. rewrite Hth. cbn [thread_truthy negb].
  destruct (stop_guard sys (cls s) m) as [g|e]; [|discriminate].
  destruct (if g then event_set sys (cls s) (_event m) else (_event m, Returns tt))
    as [ev [[]|e]]; [|discriminate].
  change (_thread (set_event ev m)) with (_thread m). rewrite Hth.
  destruct (thread_ends sys th); [|discriminate].
  intros _. split; [reflexivity|by exists ev].
Qed.

(** Whether [stop] returns does not depend on the registry. *)
Lemma stop_outcome_attrs (sys : system) (m : t) (s s' : shared) :
  attrs_but_registry (cls s') = attrs_but_registry (cls s) ->
  snd (stop sys m s') = snd (stop sys m s).
Proof.
  intros Hattrs. unfold stop. destruct (negb (thread_truthy (_thread m))); [reflexivity|].
  change (stop_guard sys (cls s') m) with (stop_guard sys (attrs_but_registry (cls s')) m).
  change (event_set sys (cls s') (_event m))
    with (event_set sys (attrs_but_registry (cls s')) (_event m)).
  rewrite Hattrs.
  change (stop_guard sys (attrs_but_registry (cls s)) m) with (stop_guard sys (cls s) m).
  change (event_set sys (attrs_but_registry (cls s)) (_event m))
    with (event_set sys (cls s) (_event m)).
  destruct (stop_guard sys (cls s) m) as [g|e]; [|reflexivity].
  destruct (if g then event_set sys (cls s) (_event m) else (_event m, Returns tt))
    as [ev [[]|e]]; [|reflexivity].
  destruct (_thread (set_event ev m)) as [|b|th]; try reflexivity.
  by destruct (thread_ends sys th).
Qed.

Lemma stop_shrinks (sys : system) (task : Task) (m : t) (s : shared) :
  (length (instances_of task (cls (snd (fst (stop sys m s)))))
   <= length (instances_of task (cls s)))%nat.
Proof.
  unfold stop. destruct (negb (thread_truthy (_thread m))); [reflexivity|].
  destruct (stop_guard sys (cls s) m) as [g|e]; [|reflexivity].
  destruct (if g then event_set sys (cls s) (_event m) else (_event m, Returns tt))
    as [ev [[]|e]]; [|reflexivity].
  destruct (_thread (set_event ev m)) as [|b|th]; try reflexivity.
  destruct (thread_ends sys th); [|reflexivity].
  set (m1 := set_event ev m). cbn [fst snd].
  destruct (decide (_task_obj_id m1 = obj_id task)) as [Hkey|Hkey].
  - destruct (join_and_unregister_spec th m1 s) as (_ & _ & _ & Hreg & _).
    unfold registered in Hreg. rewrite Hkey in Hreg. unfold instances_of.
    destruct Hreg as [(l1 & l2 & -> & _ & ->)|[_ ->]]; [|reflexivity].
    rewrite !length_app. simpl. lia.
  - unfold join_and_unregister, _get_instances, store_instances, set_instances, instances_of.
    cbn [cls fst snd set_cls].
    destruct (_instances (cls s) !! _task_obj_id m1) as [l|] eqn:Hl; cbn [_instances].
    + destruct (list_remove (self m1) l); simpl; [|reflexivity].
      by rewrite lookup_insert_ne.
    + destruct (list_remove (self m1) []); simpl;
        rewrite ?lookup_insert_ne by exact Hkey; reflexivity.
Qed.

(** The fuel [wait_for_sub_process] gives the walk is enough: more of
    it changes nothing. *)
Lemma stop_each_more_fuel (sys : system) (task : Task) (fuel : nat) :
  forall (extra i : nat) (h : gmap nat t) (s : shared),
    (length (instances_of task (cls s)) - i <= fuel)%nat ->
    stop_each (fuel + extra) i sys task h s = stop_each fuel i sys task h s.
Proof.
  induction fuel as [|fuel IH]; intros extra i h s Hlen.
  - assert (Hnone : instances_of task (cls s) !! i = None)
      by (apply lookup_ge_None; lia).
    destruct extra; [reflexivity|]. simpl. by rewrite Hnone.
  - cbn [Nat.add stop_each].
    destruct (instances_of task (cls s) !! i) as [d|] eqn:Hd; [|reflexivity].
    destruct (h !! d) as [m|]; [|apply IH; lia].
    pose proof (stop_shrinks sys task m s) as Hshrink.
    destruct (stop sys m s) as [[m' s'] [[]| |e]]; [|reflexivity..].
    cbn [fst snd] in Hshrink. apply IH. lia.
Qed.

Lemma stop_each_threads (sys : system) (task : Task) (s0 : shared) (fuel : nat) :
  forall (rest kept : list nat) (h : gmap nat t) (s : shared),
    instances_of task (cls s) = kept ++ rest ->
    NoDup (kept ++ rest) ->
    (length rest <= fuel)%nat ->
    attrs_but_registry (cls s) = attrs_but_registry (cls s0) ->
    (forall d, d ∈ rest ->
       exists m th, h !! d = Some m /\ self m = d /\ _task_obj_id m = obj_id task
                    /\ _thread m = Thread th
                    /\ snd (stop sys m s0) = ForkSafe.Got tt) ->
    let r := stop_each fuel (length kept) sys task h s in
    snd r = ForkSafe.Got tt
    /\ instances_of task (cls (snd (fst r))) = kept ++ passed_over rest
    /\ (forall d, d ∈ visited rest ->
          exists m', fst (fst r) !! d = Some m' /\ _thread m' = Flag false)
    /\ (forall d, d ∉ visited rest -> fst (fst r) !! d = h !! d).
Proof.
  induction fuel as [|fuel IH]; intros rest kept h s Hlist Hnd Hlen Hattrs Hall r.
  - destruct rest; [|simpl in Hlen; lia]. unfold r. cbn [stop_each fst snd visited passed_over].
    split_and!; auto. intros d Hd. by apply elem_of_nil in Hd.
  - unfold r. cbn [stop_each]. rewrite Hlist.
    destruct rest as [|a rest].
    { rewrite lookup_ge_None_2 by (rewrite app_nil_r; lia).
      cbn [fst snd visited passed_over]. split_and!; auto.
      intros d Hd. by apply elem_of_nil in Hd. }
    rewrite lookup_app_r by lia. rewrite Nat.sub_diag. cbn [lookup list_lookup].
    destruct (Hall a ltac:(left)) as (m & th & Hm & Hself & Hkey & Hth & Hret).
    rewrite Hm.
    rewrite <- (stop_outcome_attrs sys m s0 s Hattrs) in Hret.
    destruct (stop_joins sys m s th Hth Hret) as (_ & ev & Hstop).
    pose proof (stop_attrs sys m s) as Hattrs'.
    destruct (stop sys m s) as [[m' s'] o]. cbn [fst snd] in Hret, Hstop, Hattrs'. subst o.
    destruct (join_and_unregister_spec th (set_event ev m) s) as (_ & Hflag & _ & Hreg & _).
    rewrite <- Hstop in Hflag, Hreg. cbn [fst snd] in Hflag, Hreg.
    change (self (set_event ev m)) with (self m) in Hreg. rewrite Hself in Hreg.
    unfold registered in Hreg. change (_task_obj_id (set_event ev m)) with (_task_obj_id m) in Hreg.
    rewrite Hkey in Hreg. fold (instances_of task (cls s)) in Hreg.
    fold (instances_of task (cls s')) in Hreg. rewrite Hlist in Hreg.
    assert (Hfresh : (a ∉ kept) /\ (a ∉ rest)).
    { apply NoDup_app in Hnd as (_ & Hdisj & Hnd).
      apply NoDup_cons in Hnd as [Hrest _]. split; [|exact Hrest].
      intros Hin. apply (Hdisj a Hin). left. }
    destruct Hfresh as [Hkept Hrest].
    assert (Hlist' : instances_of task (cls s') = kept ++ rest).
    { destruct Hreg as [(l1 & l2 & Heq & Hl1 & ->)|[Hnot _]].
      - destruct (split_at_unique a kept l1 rest l2 Hkept Hl1 Heq) as [-> ->]. reflexivity.
      - destruct Hnot. apply elem_of_app. right. left. }
    assert (Hnd' : NoDup (kept ++ rest)).
    { apply NoDup_app in Hnd as (Hk & Hdisj & Hr). apply NoDup_cons in Hr as [_ Hr].
      apply NoDup_app. split_and!; auto.
      intros x Hx Hin. apply (Hdisj x Hx). by right. }
    destruct rest as [|b rest].
    + destruct fuel as [|fuel]; cbn [stop_each fst snd visited passed_over].
      * split_and!; auto.
        -- intros d Hd. apply list_elem_of_singleton in Hd. subst d.
           exists m'. by rewrite lookup_insert_eq.
        -- intros d Hd. rewrite lookup_insert_ne; [reflexivity|].
           intros <-. apply Hd. left.
      * rewrite Hlist'. rewrite lookup_ge_None_2 by (rewrite app_nil_r; lia).
        cbn [fst snd]. split_and!; auto.
        -- intros d Hd. apply list_elem_of_singleton in Hd. subst d.
           exists m'. by rewrite lookup_insert_eq.
        -- intros d Hd. rewrite lookup_insert_ne; [reflexivity|].
           intros <-. apply Hd. left.
    + destruct (visited_pair a b rest) as [Hv Hp]. rewrite Hv, Hp.
      assert (Hab : a <> b).
      { intros ->. apply Hrest. left. }
      destruct (IH rest (kept ++ [b]) (<[a := m']> h) s') as (Hr & Hfinal & Hstopped & Hkeep).
      { rewrite Hlist', <- app_assoc. reflexivity. }
      { rewrite <- app_assoc. exact Hnd'. }
      { simpl in Hlen. lia. }
      { by rewrite Hattrs'. }
      { intros d Hd. destruct (Hall d) as (md & thd & Hmd & Hrestd); [by do 2 right|].
        exists md, thd. split; [|exact Hrestd].
        rewrite lookup_insert_ne; [exact Hmd|]. intros <-. apply Hrest. by right. }
      rewrite length_app in Hr, Hfinal, Hstopped, Hkeep. simpl in Hr, Hfinal, Hstopped, Hkeep.
      rewrite Nat.add_1_r in Hr, Hfinal, Hstopped, Hkeep.
      assert (Ha : a ∉ visited rest).
      { intros Hin. apply Hrest. right. by apply visited_subset. }
      split_and!.
      * exact Hr.
      * rewrite Hfinal, <- app_assoc. reflexivity.
      * intros d Hd. apply elem_of_cons in Hd as [->|Hd]; [|by apply Hstopped].
        exists m'. by rewrite (Hkeep a Ha), lookup_insert_eq.
      * intros d Hd. apply not_elem_of_cons in Hd as [Hne Hd].
        rewrite (Hkeep d Hd). by rewrite lookup_insert_ne.
Qed.

(** In a process whose registered monitors run threads that come to
    their end when joined, so that each [stop] returns: each [stop] that
    [wait_for_sub_process] makes removes the monitor from the list being
    walked, so the walk passes over the monitor that followed it: the
    first, third, fifth monitor are joined and unregistered, and the
    second, fourth, sixth stay registered and are not touched. *)
Theorem stop_each_passes_over_every_second_monitor
        (sys : system) (task : Task) (h : gmap nat t) (s : shared) :
  NoDup (instances_of task (cls s)) ->
  (forall d, d ∈ instances_of task (cls s) ->
     exists m th, h !! d = Some m /\ self m = d /\ _task_obj_id m = obj_id task
                  /\ _thread m = Thread th
                  /\ thread_ends sys th = true
                  /\ snd (stop sys m s) = ForkSafe.Got tt) ->
  let r := stop_each (length (instances_of task (cls s))) 0 sys task h s in
  snd r = ForkSafe.Got tt
  /\ instances_of task (cls (snd (fst r))) = passed_over (instances_of task (cls s))
  /\ (forall d, d ∈ visited (instances_of task (cls s)) ->
        exists m', fst (fst r) !! d = Some m' /\ _thread m' = Flag false)
  /\ (forall d, d ∉ visited (instances_of task (cls s)) -> fst (fst r) !! d = h !! d)
  /\ (forall extra,
        stop_each (length (instances_of task (cls s)) + extra) 0 sys task h s = r).
Proof.
  intros Hnd Hall r.
  destruct (stop_each_threads sys task s (length (instances_of task (cls s)))
              (instances_of task (cls s)) [] h s) as (Hr & Hlist & Hstopped & Hkeep);
    auto.
  { intros d Hd. destruct (Hall d Hd) as (m & th & Hm & Hself & Hkey & Hth & _ & Hret).
    exists m, th. by split_and!. }
  split_and!; auto.
  intros extra. apply stop_each_more_fuel. lia.
Qed.

End StopEachFacts.

Section StopEachExamples.

Import BackgroundMonitor MonitorClear.

(** Two monitors of the main task running their threads in the
    subprocess, pid 200; the threads come to their end when joined. *)
Definition subprocess_system : system :=
  mk_system 200
    (fun p => Returns (Psutil.mk_Process
                         (Psutil.mk_proc (default 200 p) true (Returns Psutil.STATUS_RUNNING))
                         (Returns [])))
    (Returns 0)
    (fun _ => true).

Definition first_monitor : t :=
  mk 1 (Fork ForkSafe.ForkEvent_init) (Fork ForkSafe.ForkEvent_init)
     (Fork ForkSafe.ForkEvent_init) 100 (Thread 0) (Some 200) None "task-1" 77.

Definition second_monitor : t :=
  mk 2 (Fork ForkSafe.ForkEvent_init) (Fork ForkSafe.ForkEvent_init)
     (Fork ForkSafe.ForkEvent_init) 100 (Thread 1) (Some 200) None "task-1" 77.

Definition two_running : shared :=
  mk_shared (set_instances {[77 := [1%nat; 2%nat]]} (cls elected))
            [Started 0%nat; Started 1%nat] 2.

(** The same subprocess, with monitor threads that do not come to their
    end: the first [stop] waits at its join. *)
Definition stalled_subprocess_system : system :=
  mk_system (getpid subprocess_system) (Process subprocess_system) (fork subprocess_system)
            (fun _ => false).

Example stop_each_waits_for_the_first_thread :
  snd (stop_each 2 0 stalled_subprocess_system main_task
         {[1%nat := first_monitor; 2%nat := second_monitor]} two_running)
  = ForkSafe.Blocked
  /\ instances_of main_task
       (cls (snd (fst (stop_each 2 0 stalled_subprocess_system main_task
                         {[1%nat := first_monitor; 2%nat := second_monitor]} two_running))))
     = [1%nat; 2%nat].
Proof. split; reflexivity. Qed.

Lemma stop_each_leaves_the_second_monitor_running :
  instances_of main_task
    (cls (snd (fst (stop_each 2 0 subprocess_system main_task
                      {[1%nat := first_monitor; 2%nat := second_monitor]} two_running))))
  = [2%nat]
  /\ fst (fst (stop_each 2 0 subprocess_system main_task
                 {[1%nat := first_monitor; 2%nat := second_monitor]} two_running)) !! 2%nat
     = Some second_monitor.
Proof.
  assert (Hreg : instances_of main_task (cls two_running) = [1%nat; 2%nat]) by reflexivity.
  destruct (stop_each_passes_over_every_second_monitor subprocess_system main_task
              {[1%nat := first_monitor; 2%nat := second_monitor]} two_running)
    as (_ & Hlist & _ & Hkeep & _).
  - rewrite Hreg. apply NoDup_cons. split.
    + intros Hin. apply list_elem_of_singleton in Hin. discriminate.
    + apply NoDup_singleton.
  - rewrite Hreg. intros d Hd.
    apply elem_of_cons in Hd as [->|Hd].
    + exists first_monitor, 0%nat. split_and!; reflexivity.
    + apply list_elem_of_singleton in Hd. subst d.
      exists second_monitor, 1%nat. split_and!; reflexivity.
  - split; [exact Hlist|].
    apply (Hkeep 2%nat). rewrite Hreg. cbn.
    intros Hin. apply list_elem_of_singleton in Hin. discriminate.
Defined.

End StopEachExamples.

(** ** Closing the call pool *)

Section PoolCloseFacts.

Import Pipe ForkSafe SafeQueue SafeQueueClose ThreadPoolClose.

Definition call_bytes (c : call) : bytes :=
  match c with q_put_call b _ => b end.

(** The pool was built here, its worker is at work, and its queue holds
    the calls [calls] followed by [tail]. *)
Definition serving (calls : list call) (tail : list (option call)) (w : process) : Prop :=
  exists tc,
    __thread_pool (pool w) = Some tc
    /\ __thread_pool_pid (pool w) = Some (pid w)
    /\ owned (pid w) (_queue tc)
    /\ _thread tc = Some true
    /\ items (_queue tc) = map Some calls ++ tail
    /\ _q_size (queue w) = repeat (pid w) (length calls).

Lemma worker_serves (calls : list call) (w : process) :
  forall (turns : list (outcome unit)) (rest : list (outcome unit)),
    serving calls [None] w ->
    length turns = S (length calls) ->
    Forall (fun o => o = Returns tt) turns ->
    let w' := worker_turns (turns ++ rest) w in
    messages (_q (queue w')) = messages (_q (queue w)) ++ map call_bytes calls
    /\ _q_size (queue w') = []
    /\ pid w' = pid w
    /\ monitor w' = monitor w
    /\ _internal_q (queue w') = _internal_q (queue w)
    /\ exists tc', __thread_pool (pool w') = Some tc' /\ _thread tc' = None
                   /\ items (_queue tc') = []
                   /\ __thread_pool_pid (pool w') = Some (pid w).
Proof.
  revert w. induction calls as [|[b allow_raise] calls IH];
    intros w turns rest Hserve Hlen Hok w'.
  - destruct turns as [|o [|o' turns]]; try discriminate.
    apply Forall_cons in Hok as [-> _].
    destruct Hserve as (tc & Htc & Hpid & Hown & Halive & Hitems & Hsize).
    simpl in Hitems, Hsize.
    assert (Hone : exists tc1, _worker (Returns tt) w = set_calls tc1 w
                               /\ _thread tc1 = None /\ items (_queue tc1) = []).
    { unfold _worker. rewrite Htc, Halive.
      destruct (get_owned (pid w) true (_queue tc) Hown) as [_ Hget].
      rewrite Hitems in Hget. destruct Hget as [Hres Hrest].
      destruct (ForkQueue_get (pid w) true (_queue tc)) as [rq r]. simpl in Hres, Hrest.
      subst r. eexists. split; [reflexivity|]. by split. }
    destruct Hone as (tc1 & Hstep & Hdead & Hempty).
    assert (Hidle : forall l, worker_turns l (set_calls tc1 w) = set_calls tc1 w).
    { induction l as [|x l IHl]; [reflexivity|].
      unfold worker_turns in *. simpl. unfold _worker at 2. simpl. rewrite Hdead. exact IHl. }
    unfold w', worker_turns. simpl. rewrite Hstep.
    fold (worker_turns rest (set_calls tc1 w)). rewrite Hidle. simpl.
    rewrite app_nil_r. split_and!; auto. exists tc1. auto.
  - destruct turns as [|o turns]; [discriminate|].
    apply Forall_cons in Hok as [-> Hok]. simpl in Hlen. injection Hlen as Hlen.
    destruct Hserve as (tc & Htc & Hpid & Hown & Halive & Hitems & Hsize).
    simpl in Hitems, Hsize.
    set (w1 := _worker (Returns tt) w).
    assert (Hstep : serving calls [None] w1
                    /\ messages (_q (queue w1)) = messages (_q (queue w)) ++ [b]
                    /\ pid w1 = pid w /\ monitor w1 = monitor w
                    /\ _internal_q (queue w1) = _internal_q (queue w)).
    { unfold w1, _worker. rewrite Htc, Halive.
      destruct (get_owned (pid w) true (_queue tc) Hown) as [Hown' Hget].
      rewrite Hitems in Hget. destruct Hget as [Hres Hrest].
      destruct (ForkQueue_get (pid w) true (_queue tc)) as [rq r]. simpl in Hown', Hres, Hrest.
      subst r. simpl. rewrite Hsize, pop_own_repeat.
      split_and!; try reflexivity.
      eexists. simpl. split_and!; eauto. }
    destruct Hstep as (Hserve1 & Hmsg1 & Hpid1 & Hmon1 & Hiq1).
    destruct (IH w1 turns rest Hserve1 Hlen Hok) as (Hmsg & Hsz & Hp & Hm & Hi & Hpool).
    unfold w'. change (worker_turns ((Returns tt :: turns) ++ rest) w)
      with (worker_turns (turns ++ rest) w1).
    rewrite Hmsg, Hsz, Hp, Hm, Hi, Hmsg1, Hpid1, Hmon1, Hiq1, <- app_assoc.
    split_and!; auto.
    destruct Hpool as (tc' & H1 & H2 & H3 & H4). exists tc'. rewrite <- Hpid1. auto.
Qed.

(** [SingletonThreadPool.clear()] flushes the queue: when the join
    lasts until the worker has met the sentinel, every write that was with
    the pool has reached the pipe, in the order of the puts, and the
    ledger is empty; the pool is forgotten, so the call pool is no longer
    active and the next [get()] builds a new one. *)
Theorem clear_flushes_the_pool (turns : list (outcome unit)) (w : process) :
  sound w -> tallied w ->
  is_Some (__thread_pool (pool w)) ->
  (length (pending w) < length turns)%nat ->
  Forall (fun o => o = Returns tt) turns ->
  exists w',
    SingletonThreadPool_clear turns w = Some w'
    /\ messages (_q (queue w')) = messages (_q (queue w)) ++ pending w
    /\ _q_size (queue w') = []
    /\ is_pending w' = false
    /\ pool w' = mk_pool None None
    /\ SingletonThreadPool_is_active w' = false
    /\ forall sp, snd (SingletonThreadPool_get sp w') = sp.
Proof.
  intros Hsound Htally [tc Htc] Hlen Hok.
  destruct Hsound as (Hpool & _ & _). rewrite Htc in Hpool.
  destruct Hpool as (Hpid & Hown & Halive & Hreal).
  assert (Hcalls : exists calls,
             items (_queue tc) = map Some calls /\ pending w = map call_bytes calls).
  { unfold pending. rewrite Htc. clear -Hreal.
    induction (items (_queue tc)) as [|r l IH].
    - by exists [].
    - apply Forall_cons in Hreal as [Hr Hl]. destruct (IH Hl) as (calls & -> & Hp).
      destruct r as [[b allow_raise]|]; [|by destruct Hr].
      exists (q_put_call b allow_raise :: calls). simpl. by rewrite Hp. }
  destruct Hcalls as (calls & Hitems & Hpend).
  set (w1 := set_calls (mk_calls (ForkQueue_put (pid w) None (_queue tc)) (_thread tc)) w).
  assert (Hserve : serving calls [None] w1).
  { destruct (put_owned (pid w) None (_queue tc) Hown) as [Hown1 Hitems1].
    exists (mk_calls (ForkQueue_put (pid w) None (_queue tc)) (_thread tc)).
    unfold w1, set_calls. simpl. rewrite Hitems1, Hitems. split_and!; auto.
    unfold tallied in Htally. rewrite Htally, Hpend, length_map. reflexivity. }
  assert (Hturns : turns = take (S (length calls)) turns ++ drop (S (length calls)) turns)
    by (by rewrite take_drop).
  rewrite Hpend, length_map in Hlen.
  destruct (worker_serves calls w1 (take (S (length calls)) turns)
              (drop (S (length calls)) turns) Hserve)
    as (Hmsg & Hsz & Hp & Hm & Hi & tc' & Htc' & Hdead & Hempty & Hpid').
  { rewrite length_take. lia. }
  { by apply Forall_take. }
  rewrite <- Hturns in Hmsg, Hsz, Hp, Hm, Hi, Htc', Hpid'.
  unfold SingletonThreadPool_clear, ThreadCalls_close. rewrite Htc, Halive.
  assert (Hw1 : set_calls (mk_calls (ForkQueue_put (pid w) None (_queue tc)) (Some true)) w
                = w1) by (unfold w1; by rewrite Halive).
  cbv zeta. rewrite Hw1, Htc', Hdead.
  eexists. split; [reflexivity|].
  cbn [queue set_pool set_calls pool]. rewrite Hmsg, Hsz, Hpend.
  split_and!; try reflexivity.
  - unfold is_pending, _get_q_size_len. cbn [queue set_pool set_calls]. by rewrite Hsz.
  - intros sp. unfold SingletonThreadPool_get. simpl. by destruct sp as [[]|e].
Qed.

End PoolCloseFacts.

Section PoolCloseExamples.

Import Pipe ForkSafe SafeQueue SafeQueueClose ThreadPoolClose Sample.

Lemma clear_flushes_a_then_b :
  exists w',
    SingletonThreadPool_clear [Returns tt; Returns tt; Returns tt] two_pending = Some w'
    /\ messages (_q (queue w')) = messages (_q (queue two_pending)) ++ pending two_pending
    /\ _q_size (queue w') = []
    /\ is_pending w' = false
    /\ pool w' = mk_pool None None
    /\ SingletonThreadPool_is_active w' = false
    /\ forall sp, snd (SingletonThreadPool_get sp w') = sp.
Proof.
  apply (clear_flushes_the_pool [Returns tt; Returns tt; Returns tt] two_pending).
  - vm_compute. split_and!; auto; [repeat constructor; discriminate|discriminate].
  - reflexivity.
  - by eexists.
  - vm_compute. lia.
  - repeat constructor.
Defined.

End PoolCloseExamples.
